(** * Water-body candidate grouping, sorting and distance formatting

  A shallow embedding of the search-result utilities of the Paddle Partner
  mobile client:
  - [utils/waterBodyGrouping.ts]       ([getGroupedCandidates]),
  - [components/WaterBodySelectionList.tsx] (the order the cards are
    rendered in, and its local [formatDistance]),
  - [services/waterBodyService.ts]     (the distance sort of
    [searchCombined], [calculateDistance], [formatDistance]).

  Around them, the code that produces the candidates and uses what the
  list selects is embedded as well: the selection handlers and the card
  keys of the list, the two versions of [searchCombined] with
  [searchNearby], the result list of [screens/CreateActivityScreen.tsx],
  [handleSave] of the two versions of
  [screens/CreateActivityConfirmScreen.tsx], the distance label of
  [screens/MapLocationPickerScreen.tsx], the steps of
  [screens/HomeScreen.tsx] and [utils/unitConversion.ts].

  [Array.prototype.sort] is specified for every engine ([JS.conformingSort]),
  and the haversine formula is read both in the doubles of the program
  and in the real numbers of the Standard Library.

  JavaScript numbers are IEEE-754 binary64 values; they are modelled by
  [spec_float] with [prec = 53] and [emax = 1024], so that arithmetic,
  comparison and truthiness behave as in the program. *)

From Stdlib Require Import List String Ascii Bool ZArith QArith Qround Qabs Qpower Lia Lqa.
From Stdlib Require Import Permutation DecimalString SpecFloat.
From Stdlib Require DecimalN DecimalPos.
From Stdlib Require Reals Lra.
Import ListNotations.

Local Open Scope list_scope.
Local Open Scope string_scope.

(** ** The fragment of JavaScript the program relies on *)

Module JS.

(** A [number] is a binary64 float. *)
Definition number := spec_float.

Definition prec : Z := 53.
Definition emax : Z := 1024.

(** Well-formed doubles: the mantissa is canonical and the exponent in
    range. Every value a JavaScript program can hold satisfies it. *)
Definition is_double (x : number) : bool := valid_binary prec emax x.

Definition is_finite (x : number) : bool :=
  match x with
  | S754_zero _ | S754_finite _ _ _ => true
  | S754_infinity _ | S754_nan => false
  end.

Definition add : number -> number -> number := SFadd prec emax.
Definition sub : number -> number -> number := SFsub prec emax.
Definition mul : number -> number -> number := SFmul prec emax.
Definition div : number -> number -> number := SFdiv prec emax.
Definition lt : number -> number -> bool := SFltb.

(** The double nearest to an integer (exact below [2^53]). *)
Definition of_Z (z : Z) : number := binary_normalize prec emax z 0 false.

Definition pos_zero : number := S754_zero false.

(** [ToBoolean]: [undefined], the empty string, [+0], [-0] and [NaN] are
    falsy. Optional fields are [option]s, [None] standing for
    [undefined]. *)
Definition truthy_number (x : number) : bool :=
  match x with
  | S754_zero _ | S754_nan => false
  | _ => true
  end.

Definition truthy_string (s : string) : bool := negb (s =? "").

Definition truthy_opt_string (o : option string) : bool :=
  match o with
  | Some s => truthy_string s
  | None => false
  end.

(** [o || d] on an optional string and on an optional number. *)
Definition string_or (o : option string) (d : string) : string :=
  match o with
  | Some s => if truthy_string s then s else d
  | None => d
  end.

Definition number_or (o : option number) (d : number) : number :=
  match o with
  | Some x => if truthy_number x then x else d
  | None => d
  end.

(** *** Exact values *)

(** The real value of a finite number, as a rational; [0] for the zeros
    (and, by convention, for the values that are not finite). *)
Definition value (x : number) : Q :=
  match x with
  | S754_finite s m e =>
      (if s then inject_Z (Zneg m) else inject_Z (Zpos m)) * Qpower 2 e
  | _ => 0
  end.

Definition pow10 (n : Z) : Q := Qpower 10 n.

(** The decimal digits of a natural number, ["0"] for zero. *)
Definition digits_of (n : Z) : string :=
  NilZero.string_of_uint (N.to_uint (Z.to_N n)).

Fixpoint zeros (n : nat) : string :=
  match n with
  | O => ""
  | S n' => String "0" (zeros n')
  end.

(** *** [Math.round] *)

(** A number that is not finite or that is integral is returned as it is;
    otherwise the result is [floor (x + 1/2)], with the sign of [x] when
    that is zero.  A finite double with a non-negative exponent is
    integral, and one with a negative exponent is below [2^53], so that
    the integer found is a double. *)
Definition Math_round (x : number) : number :=
  match x with
  | S754_finite s m e =>
      if (0 <=? e)%Z then x
      else
        let z := Qfloor (value x + (1 # 2)) in
        if (z =? 0)%Z then S754_zero s else of_Z z
  | _ => x
  end.

(** *** [Number::toString] (radix 10) *)

(** The set of reals that round to the double [m * 2^e]: the interval
    between the midpoints to its two neighbours, closed when [m] is even
    (ties go to the even mantissa).  The lower neighbour is half as far
    when [m] is the smallest normal mantissa. *)
Definition rounds_to (m : positive) (e : Z) (d : Q) : bool :=
  let hi := inject_Z (2 * Zpos m + 1) * Qpower 2 (e - 1) in
  let lo :=
    if ((Zpos m =? 2 ^ (prec - 1)) && (emin prec emax <? e))%Z
    then inject_Z (4 * Zpos m - 1) * Qpower 2 (e - 2)
    else inject_Z (2 * Zpos m - 1) * Qpower 2 (e - 1) in
  if Z.even (Zpos m)
  then Qle_bool lo d && Qle_bool d hi
  else negb (Qle_bool d lo) && negb (Qle_bool hi d).

(** The [n] with [10^(n-1) <= v < 10^n]: the number of digits of the
    integer part when [v >= 1], and otherwise looked for downwards from
    [0] (the smallest double is above [10^-324]). *)
Fixpoint magnitude_below (fuel : nat) (n : Z) (v : Q) : Z :=
  match fuel with
  | O => n
  | S fuel' =>
      if Qle_bool (pow10 (n - 1)) v then n
      else magnitude_below fuel' (n - 1) v
  end.

Definition magnitude (v : Q) : Z :=
  if Qle_bool 1 v then Z.of_nat (String.length (digits_of (Qfloor v)))
  else magnitude_below 330 0 v.

(** The integers [(n, k, s)] of the specification: [k >= 1] digits [s],
    [10^(k-1) <= s < 10^k], such that [s * 10^(n-k)] rounds to the number,
    with [k] as small as possible, then the value closest to the number,
    then [s] even. *)
Record decimal := mkDecimal { dec_n : Z; dec_k : nat; dec_s : Z }.

Definition candidates (m : positive) (e : Z) (n0 : Z) (k : nat)
  : option decimal :=
  let v := inject_Z (Zpos m) * Qpower 2 e in
  let p := (n0 - Z.of_nat k)%Z in
  let s1 := Qfloor (v / pow10 p) in
  let s2 := (s1 + 1)%Z in
  let d1 := inject_Z s1 * pow10 p in
  let d2 := inject_Z s2 * pow10 p in
  let lower := mkDecimal n0 k s1 in
  let upper :=
    if (s2 =? 10 ^ Z.of_nat k)%Z
    then mkDecimal (n0 + 1) k (10 ^ (Z.of_nat k - 1))
    else mkDecimal n0 k s2 in
  match rounds_to m e d1, rounds_to m e d2 with
  | true, true =>
      match Qcompare (v - d1) (d2 - v) with
      | Lt => Some lower
      | Gt => Some upper
      | Eq => if Z.even s1 then Some lower else Some upper
      end
  | true, false => Some lower
  | false, true => Some upper
  | false, false => None
  end.

Fixpoint shortest (fuel : nat) (m : positive) (e : Z) (n0 : Z) (k : nat)
  : decimal :=
  match candidates m e n0 k with
  | Some d => d
  | None =>
      match fuel with
      | O => mkDecimal n0 k (Qfloor (inject_Z (Zpos m) * Qpower 2 e
                                      / pow10 (n0 - Z.of_nat k)))
      | S fuel' => shortest fuel' m e n0 (S k)
      end
  end.

(** Seventeen digits always identify a double. *)
Definition to_decimal (m : positive) (e : Z) : decimal :=
  shortest 16 m e (magnitude (inject_Z (Zpos m) * Qpower 2 e)) 1.

Definition render_decimal (d : decimal) : string :=
  let n := dec_n d in
  let k := dec_k d in
  let s := digits_of (dec_s d) in
  if ((-6 <? n) && (n <=? 21))%Z then
    if (Z.of_nat k <=? n)%Z then s ++ zeros (Z.to_nat n - k)
    else if (0 <? n)%Z
    then substring 0 (Z.to_nat n) s ++ "."
         ++ substring (Z.to_nat n) (k - Z.to_nat n) s
    else "0." ++ zeros (Z.to_nat (- n)) ++ s
  else
    let e := (n - 1)%Z in
    let c := if (0 <=? e)%Z then "+" else "-" in
    match k with
    | 1%nat => s ++ "e" ++ c ++ digits_of (Z.abs e)
    | _ => substring 0 1 s ++ "." ++ substring 1 (k - 1) s
           ++ "e" ++ c ++ digits_of (Z.abs e)
    end.

Definition Number_toString (x : number) : string :=
  match x with
  | S754_nan => "NaN"
  | S754_zero _ => "0"
  | S754_infinity s => if s then "-Infinity" else "Infinity"
  | S754_finite s m e =>
      (if s then "-" else "") ++ render_decimal (to_decimal m e)
  end.

(** *** [Number.prototype.toFixed] *)

(** [x.toFixed(f)]: a number that is not finite, or whose magnitude is at
    least [10^21], is rendered by [Number::toString]; otherwise the
    integer [n] nearest to [x * 10^f] (the larger one on a tie) is written
    with a point before its last [f] digits. *)
Definition toFixed (x : number) (f : nat) : string :=
  match x with
  | S754_nan | S754_infinity _ => Number_toString x
  | _ =>
      let v := value x in
      let s := if Qle_bool 0 v then "" else "-" in
      let a := Qabs v in
      if Qle_bool (pow10 21) a then s ++ Number_toString (SFabs x)
      else
        let n := Qfloor (a * pow10 (Z.of_nat f) + (1 # 2)) in
        let m := digits_of n in
        match f with
        | O => s ++ m
        | _ =>
            let m := zeros (S f - String.length m) ++ m in
            let k := String.length m in
            s ++ substring 0 (k - f) m ++ "." ++ substring (k - f) f m
        end
  end.

(** *** [Array.prototype.sort] *)

(** The sort is stable, and for a consistent comparison function its
    result is fixed by the language: the elements in ascending order, equal
    ones in their original order.  The embedding is the insertion sort that
    moves an element behind another only when the comparison function
    returns a positive number ([NaN] counts as [+0]).  For a comparison
    function that is not consistent the language leaves the order to the
    engine, and the insertion sort is one engine among others: what holds
    of every engine is stated of a [conformingSort], below. *)
Section ArraySort.
Context {A : Type}.
Variable comparefn : A -> A -> number.

Definition sorts_after (a b : A) : bool := lt pos_zero (comparefn a b).

Fixpoint insert (x : A) (l : list A) : list A :=
  match l with
  | [] => [x]
  | y :: l' => if sorts_after x y then y :: insert x l' else x :: l
  end.

Definition sort (l : list A) : list A := fold_right insert [] l.
End ArraySort.

(** What the language fixes of [Array.prototype.sort], for every
    engine. *)
Section SortOrder.
Context {A : Type}.
Variable comparefn : A -> A -> number.

(** [a <CF b], [a =CF b] and [a >CF b]: [comparefn(a, b)] is below zero,
    is a zero, is above zero. *)
Definition lessCF (a b : A) : bool := lt (comparefn a b) pos_zero.

Definition equalCF (a b : A) : bool :=
  match comparefn a b with
  | S754_zero _ => true
  | _ => false
  end.

Definition greaterCF (a b : A) : bool := lt pos_zero (comparefn a b).

(** A consistent comparison function for the values of [l]: it never
    returns [NaN], [=CF] is reflexive, symmetric and transitive, and
    [<CF] and [>CF] are transitive. *)
Record consistent (l : list A) : Prop := mkConsistent {
  neverNaN : forall a b, In a l -> In b l -> comparefn a b <> S754_nan;
  equalReflexive : forall a, In a l -> equalCF a a = true;
  equalSymmetric : forall a b, In a l -> In b l ->
    equalCF a b = true -> equalCF b a = true;
  equalTransitive : forall a b c, In a l -> In b l -> In c l ->
    equalCF a b = true -> equalCF b c = true -> equalCF a c = true;
  lessTransitive : forall a b c, In a l -> In b l -> In c l ->
    lessCF a b = true -> lessCF b c = true -> lessCF a c = true;
  greaterTransitive : forall a b c, In a l -> In b l -> In c l ->
    greaterCF a b = true -> greaterCF b c = true -> greaterCF a c = true
}.

(** The sort order: no element is followed, however far behind, by one
    that the comparison function puts before it. *)
Definition sortOrder : list A -> Prop :=
  ForallOrdPairs (fun x y => lessCF y x = false).

(** The sort is stable: the elements that compare equal to an element of
    the array are in their original order. *)
Definition stable (l l' : list A) : Prop :=
  forall a, In a l -> filter (equalCF a) l' = filter (equalCF a) l.
End SortOrder.

(** An [Array.prototype.sort] rearranges the elements.  For a consistent
    comparison function the result is in the sort order and the sort is
    stable; for any other one the order is left to the engine. *)
Definition ArraySort : Type :=
  forall A : Type, (A -> A -> number) -> list A -> list A.

Definition conformingSort (sort : ArraySort) : Prop :=
  forall (A : Type) (comparefn : A -> A -> number) (l : list A),
    Permutation l (sort A comparefn l) /\
    (consistent comparefn l ->
     sortOrder comparefn (sort A comparefn l) /\
     stable comparefn l (sort A comparefn l)).

(** The insertion sort above, as an engine. *)
Definition insertionSort : ArraySort := fun A comparefn => sort comparefn.

(** *** The [Math] functions that are implementation-approximated *)

(** [Math.sqrt] is the correctly rounded square root. *)
Definition Math_sqrt : number -> number := SFsqrt prec emax.

(** [Math.PI], the double [0x400921FB54442D18]. *)
Definition Math_PI : number := S754_finite false 7074237752028440 (-51).

(** [Math.sin], [Math.cos] and [Math.atan2] return an
    implementation-approximated value; an engine is a choice of the
    three functions. *)
Record MathLibrary := mkMath {
  Math_sin : number -> number;
  Math_cos : number -> number;
  Math_atan2 : number -> number -> number
}.

(** What is used of them.  The language fixes that [sin(+0)] is [+0] and
    that [atan2(+0, x)] is [+0] for [x > 0]; the cosine of a finite number
    is a double of magnitude at most [1], as the mathematical function
    is, on every engine. *)
Record conforming (M : MathLibrary) : Prop := mkConforming {
  sin_pos_zero : Math_sin M pos_zero = pos_zero;
  cos_range : forall x, is_finite x = true ->
    is_double (Math_cos M x) = true /\
    SFleb (SFabs (Math_cos M x)) (of_Z 1) = true;
  atan2_pos_zero : forall x, lt pos_zero x = true ->
    Math_atan2 M pos_zero x = pos_zero
}.

End JS.

(** ** services/waterBodyService: the search-result record *)

Module WaterBodySearchResult.
(** Modelled from the spec: the declaration of the type
    [WaterBodySearchResult] that the grouper imports is missing (the
    service re-exports it from the package [@paddlepartner/shared]).  The
    record has the fields of a candidate that [getGroupedCandidates], the
    selection list and their tests read and write, under the names the
    program gives them; [osmData], of type [any], is kept as an opaque
    text. *)
Record t := mk {
  source : string;
  sharedWaterBodyId : option string;
  sectionId : option string;
  sectionIndex : option JS.number;
  sectionName : option string;
  name : string;
  type : option string;
  distance : option JS.number;
  osmId : option string;
  osmData : option string
}.
End WaterBodySearchResult.

(** ** utils/waterBodyGrouping *)

Module SectionEntry.
(** An element of [GroupedWaterBody.sections]. *)
Record t := mk {
  sectionIndex : JS.number;
  sectionId : string;
  sectionName : string;
  candidate : WaterBodySearchResult.t
}.
End SectionEntry.

Module GroupedWaterBody.
Record t := mk {
  waterBodyId : string;
  name : string;
  type : option string;
  distance : option JS.number;
  sections : list SectionEntry.t
}.
End GroupedWaterBody.

Module GroupedCandidatesResult.
Record t := mk {
  groups : list GroupedWaterBody.t;
  osmCandidates : list WaterBodySearchResult.t
}.
End GroupedCandidatesResult.

(** A JavaScript [Map] with string keys.  Iteration follows insertion order
    and [set] on a key that is present keeps its position, so the map is an
    association list with the oldest key first. *)
Module StringMap.
Section Ops.
Context {V : Type}.

Definition t := list (string * V).

Definition empty : t := [].

Fixpoint has (m : t) (k : string) : bool :=
  match m with
  | [] => false
  | (k', _) :: m' => if k' =? k then true else has m' k
  end.

Fixpoint set (m : t) (k : string) (v : V) : t :=
  match m with
  | [] => [(k, v)]
  | (k', v') :: m' =>
      if k' =? k then (k', v) :: m' else (k', v') :: set m' k v
  end.

(** The value stored under [k] is an object, and [groups.get(k)] returns
    that object itself: [modify] is a mutation of it in place, seen by
    [values] in the end. *)
Fixpoint modify (m : t) (k : string) (f : V -> V) : t :=
  match m with
  | [] => []
  | (k', v) :: m' =>
      if k' =? k then (k', f v) :: m' else (k', v) :: modify m' k f
  end.

Definition values (m : t) : list V := map snd m.
End Ops.
Arguments t : clear implicits.
End StringMap.

Module WaterBodyGrouping.
Import WaterBodySearchResult.

Definition isOSM (candidate : WaterBodySearchResult.t) : bool :=
  source candidate =? "osm".

(** The object pushed on [group.sections]. *)
Definition sectionOf (candidate : WaterBodySearchResult.t) (sectionName : string)
  : SectionEntry.t :=
  {| SectionEntry.sectionIndex :=
       JS.number_or (sectionIndex candidate) JS.pos_zero;
     SectionEntry.sectionId := JS.string_or (sectionId candidate) "";
     SectionEntry.sectionName := sectionName;
     SectionEntry.candidate := candidate |}.

(** The object stored by [groups.set] the first time an id is met. *)
Definition newGroup (waterBodyId : string) (candidate : WaterBodySearchResult.t)
  : GroupedWaterBody.t :=
  {| GroupedWaterBody.waterBodyId := waterBodyId;
     GroupedWaterBody.name := name candidate;
     GroupedWaterBody.type := type candidate;
     GroupedWaterBody.distance := distance candidate;
     GroupedWaterBody.sections := [] |}.

Definition pushSection (s : SectionEntry.t) (group : GroupedWaterBody.t)
  : GroupedWaterBody.t :=
  {| GroupedWaterBody.waterBodyId := GroupedWaterBody.waterBodyId group;
     GroupedWaterBody.name := GroupedWaterBody.name group;
     GroupedWaterBody.type := GroupedWaterBody.type group;
     GroupedWaterBody.distance := GroupedWaterBody.distance group;
     GroupedWaterBody.sections := (GroupedWaterBody.sections group ++ [s])%list |}.

(** The two accumulators of the loop: the [groups] map and the
    [osmCandidates] array. *)
Definition state : Type :=
  (StringMap.t GroupedWaterBody.t * list WaterBodySearchResult.t)%type.

(** One iteration of [for (const candidate of candidates)]. *)
Definition step (showOSM : bool) (st : state)
    (candidate : WaterBodySearchResult.t) : state :=
  let '(groups, osmCandidates) := st in
  if isOSM candidate && negb showOSM then st
  else if isOSM candidate then (groups, (osmCandidates ++ [candidate])%list)
  else
    match sharedWaterBodyId candidate with
    | None => st
    | Some waterBodyId =>
        if negb (JS.truthy_string waterBodyId) then st
        else
          let groups :=
            if negb (StringMap.has groups waterBodyId)
            then StringMap.set groups waterBodyId (newGroup waterBodyId candidate)
            else groups in
          match sectionName candidate with
          | Some sectionName =>
              if JS.truthy_string sectionName
              then (StringMap.modify groups waterBodyId
                      (pushSection (sectionOf candidate sectionName)),
                    osmCandidates)
              else (groups, osmCandidates)
          | None => (groups, osmCandidates)
          end
    end.

Definition getGroupedCandidates (candidates : list WaterBodySearchResult.t)
    (showOSM : bool) : GroupedCandidatesResult.t :=
  let '(groups, osmCandidates) :=
    fold_left (step showOSM) candidates (StringMap.empty, []) in
  {| GroupedCandidatesResult.groups := StringMap.values groups;
     GroupedCandidatesResult.osmCandidates := osmCandidates |}.

End WaterBodyGrouping.

(** ** components/WaterBodySelectionList *)

Module WaterBodySelectionList.

(** The cards of the results pane, in the order they are laid out. *)
Inductive Card :=
| CommunityCard (waterBody : GroupedWaterBody.t)
| OSMCard (index : nat) (candidate : WaterBodySearchResult.t).

Inductive Results :=
| NoResults
| Cards (cards : list Card).

Fixpoint mapi {A B : Type} (f : nat -> A -> B) (i : nat) (l : list A)
  : list B :=
  match l with
  | [] => []
  | x :: l' => f i x :: mapi f (S i) l'
  end.

(** The body of the [ScrollView], which is what the component returns
    once it is neither loading nor in error: [groups.map(...)] and then
    [osmCandidates.map(...)], unless there is nothing to show. *)
Definition renderResults (r : GroupedCandidatesResult.t) : Results :=
  let groups := GroupedCandidatesResult.groups r in
  let osmCandidates := GroupedCandidatesResult.osmCandidates r in
  let totalResults := (List.length groups + List.length osmCandidates)%nat in
  if (totalResults =? 0)%nat then NoResults
  else Cards (List.map CommunityCard groups ++ mapi OSMCard 0 osmCandidates)%list.

(** What the component shows for the candidates it holds. *)
Definition render (candidates : list WaterBodySearchResult.t) (showOSM : bool)
  : Results :=
  renderResults (WaterBodyGrouping.getGroupedCandidates candidates showOSM).

Definition formatDistance (meters : JS.number) : string :=
  if JS.lt meters (JS.of_Z 1000)
  then JS.Number_toString (JS.Math_round meters) ++ "m"
  else JS.toFixed (JS.div meters (JS.of_Z 1000)) 1 ++ "km".

End WaterBodySelectionList.

(** ** services/waterBodyService *)

Module WaterBodyService.

(** *** The distance sort of [searchCombined] *)

(** The comparison functions read nothing but the [distance] of a result,
    so the element type is left open. *)
Section SortResults.
Context {A : Type}.
Variable distance : A -> option JS.number.

(** [(a, b) => (a.distance || 0) - (b.distance || 0)] *)
Definition compareDistanceOrZero (a b : A) : JS.number :=
  JS.sub (JS.number_or (distance a) JS.pos_zero)
         (JS.number_or (distance b) JS.pos_zero).

(** [(a, b) => { if (a.distance !== undefined && b.distance !== undefined)
    return a.distance - b.distance; return 0 }] *)
Definition compareDefinedDistance (a b : A) : JS.number :=
  match distance a, distance b with
  | Some da, Some db => JS.sub da db
  | _, _ => JS.pos_zero
  end.

(** [results.sort(...)] as [searchCombined] first had it, and as it was
    rewritten for the results of the backend. *)
Definition sortByDistanceOrZero (results : list A) : list A :=
  JS.sort compareDistanceOrZero results.

Definition sortByDefinedDistance (results : list A) : list A :=
  JS.sort compareDefinedDistance results.
End SortResults.

(** *** [calculateDistance] *)

(** [(degrees * Math.PI) / 180] *)
Definition toRadians (degrees : JS.number) : JS.number :=
  JS.div (JS.mul degrees JS.Math_PI) (JS.of_Z 180).

Definition calculateDistance (M : JS.MathLibrary)
    (lat1 lon1 lat2 lon2 : JS.number) : JS.number :=
  let R := JS.of_Z 6371000 in
  let phi1 := toRadians lat1 in
  let phi2 := toRadians lat2 in
  let dphi := toRadians (JS.sub lat2 lat1) in
  let dlambda := toRadians (JS.sub lon2 lon1) in
  let half z := JS.div z (JS.of_Z 2) in
  let a :=
    JS.add
      (JS.mul (JS.Math_sin M (half dphi)) (JS.Math_sin M (half dphi)))
      (JS.mul
         (JS.mul (JS.mul (JS.Math_cos M phi1) (JS.Math_cos M phi2))
                 (JS.Math_sin M (half dlambda)))
         (JS.Math_sin M (half dlambda))) in
  let c :=
    JS.mul (JS.of_Z 2)
           (JS.Math_atan2 M (JS.Math_sqrt a)
                            (JS.Math_sqrt (JS.sub (JS.of_Z 1) a))) in
  JS.mul R c.

(** *** [formatDistance] *)

Definition formatDistance (meters : JS.number) : string :=
  if JS.lt meters (JS.of_Z 1000)
  then JS.Number_toString (JS.Math_round meters) ++ "m"
  else JS.toFixed (JS.div meters (JS.of_Z 1000)) 1 ++ "km".

End WaterBodyService.

(** ** Vocabulary of the statements *)

Module GroupingSpec.
Import WaterBodySearchResult WaterBodyGrouping.

(** The id under which a candidate is grouped: the [sharedWaterBodyId] of
    a community (not OSM) candidate that has one.  As in the program, a
    field is present when it is truthy: defined and not the empty
    string. *)
Definition groupingKey (c : WaterBodySearchResult.t) : option string :=
  if isOSM c then None
  else match sharedWaterBodyId c with
       | Some k => if JS.truthy_string k then Some k else None
       | None => None
       end.

(** The water-body ids of the community candidates, in input order and
    with repetitions. *)
Definition communityIds (l : list WaterBodySearchResult.t) : list string :=
  flat_map (fun c => match groupingKey c with
                     | Some k => [k]
                     | None => []
                     end) l.

(** The distinct elements of a list, each at its first occurrence. *)
Fixpoint firstSeen (ks : list string) : list string :=
  match ks with
  | [] => []
  | k :: ks' => k :: filter (fun k' => negb (k' =? k)) (firstSeen ks')
  end.

(** The community candidates of water body [k]. *)
Definition belongsTo (k : string) (c : WaterBodySearchResult.t) : bool :=
  match groupingKey c with
  | Some k' => k' =? k
  | None => false
  end.

Definition hasSectionName (c : WaterBodySearchResult.t) : bool :=
  JS.truthy_opt_string (sectionName c).

Definition hasSectionId (c : WaterBodySearchResult.t) : bool :=
  JS.truthy_opt_string (sectionId c).

(** The section entry of a candidate that has a section name. *)
Definition sectionEntry (c : WaterBodySearchResult.t) : SectionEntry.t :=
  {| SectionEntry.sectionIndex := JS.number_or (sectionIndex c) JS.pos_zero;
     SectionEntry.sectionId := JS.string_or (sectionId c) "";
     SectionEntry.sectionName := JS.string_or (sectionName c) "";
     SectionEntry.candidate := c |}.

(** The fields of a group that are fixed when it is created. *)
Definition header (g : GroupedWaterBody.t)
  : string * string * option string * option JS.number :=
  (GroupedWaterBody.waterBodyId g, GroupedWaterBody.name g,
   GroupedWaterBody.type g, GroupedWaterBody.distance g).

(** The group of water body [k] in closed form, from the candidates that
    belong to it. *)
Definition groupOf (l : list WaterBodySearchResult.t) (k : string)
  : GroupedWaterBody.t :=
  let members := filter (belongsTo k) l in
  {| GroupedWaterBody.waterBodyId := k;
     GroupedWaterBody.name :=
       match members with c :: _ => name c | [] => "" end;
     GroupedWaterBody.type :=
       match members with c :: _ => type c | [] => None end;
     GroupedWaterBody.distance :=
       match members with c :: _ => distance c | [] => None end;
     GroupedWaterBody.sections :=
       map sectionEntry (filter hasSectionName members) |}.

Definition groupsOf (l : list WaterBodySearchResult.t)
  : StringMap.t GroupedWaterBody.t :=
  map (fun k => (k, groupOf l k)) (firstSeen (communityIds l)).

Definition osmOf (showOSM : bool) (l : list WaterBodySearchResult.t)
  : list WaterBodySearchResult.t :=
  if showOSM then filter isOSM l else [].

End GroupingSpec.

(** ** Vocabulary of the display order *)

Module DisplaySpec.
Import WaterBodySelectionList.

Definition isCommunityCard (card : Card) : bool :=
  match card with
  | CommunityCard _ => true
  | OSMCard _ _ => false
  end.

Definition isOSMCard (card : Card) : bool :=
  match card with
  | CommunityCard _ => false
  | OSMCard _ _ => true
  end.

(** In [l], every element that satisfies [P] stands before every element
    that satisfies [Q]. *)
Definition before {A : Type} (P Q : A -> bool) (l : list A) : Prop :=
  forall i j x y,
    nth_error l i = Some x -> nth_error l j = Some y ->
    P x = true -> Q y = true -> (i < j)%nat.

End DisplaySpec.

(** ** Sample candidates *)

Module Samples.
Import WaterBodySearchResult.

Definition community (id : option string) (section : option (option string * string))
    (name : string) (distance : option Z) : WaterBodySearchResult.t :=
  {| source := "shared_database";
     sharedWaterBodyId := id;
     sectionId := match section with Some (i, _) => i | None => None end;
     sectionIndex := None;
     sectionName := match section with Some (_, n) => Some n | None => None end;
     name := name;
     type := Some "lake";
     distance := option_map JS.of_Z distance;
     osmId := None;
     osmData := None |}.

Definition osm (id name : string) (distance : option Z)
  : WaterBodySearchResult.t :=
  {| source := "osm";
     sharedWaterBodyId := None;
     sectionId := None;
     sectionIndex := None;
     sectionName := None;
     name := name;
     type := Some "lake";
     distance := option_map JS.of_Z distance;
     osmId := Some id;
     osmData := None |}.

(** Two sections of one lake, 500 m away, and a map candidate at 100 m. *)
Definition upper := community (Some "W1") (Some (Some "S1", "Upper")) "Lake A" (Some 500%Z).
Definition lower := community (Some "W1") (Some (Some "S2", "Lower")) "Lake A" (Some 500%Z).
Definition osmLake := osm "123" "OSM Lake" (Some 100%Z).

(** A legacy record, with a section name and no section id, and a
    record without water-body id. *)
Definition legacy := community (Some "W2") (Some (None, "Legacy Section")) "Legacy Lake" None.
Definition invalid := community None None "Invalid Lake" None.

(** The two sections with an OSM candidate and the invalid record between
    them, and the three valid records with the closer OSM candidate
    first. *)
Definition mixed : list WaterBodySearchResult.t :=
  [upper; osmLake; invalid; lower].
Definition closerFirst : list WaterBodySearchResult.t :=
  [osmLake; upper; lower].

End Samples.

(** ** Vocabulary of the sort *)

Module SortSpec.

Section Distance.
Context {A : Type}.
Variable distance : A -> option JS.number.

Definition hasDistance (x : A) : bool :=
  match distance x with
  | Some _ => true
  | None => false
  end.

Definition lacksDistance (x : A) : bool := negb (hasDistance x).

(** Every entry that lacks a distance is placed after all the entries
    that have one. *)
Definition missingLast (l : list A) : Prop :=
  DisplaySpec.before hasDistance lacksDistance l.

(** No distance, or the distance [d]. *)
Definition sameDistance (d : JS.number) (x : A) : Prop :=
  distance x = None \/ distance x = Some d.
End Distance.

(** Search results reduced to an id and the distance. *)
Definition result : Type := (string * option JS.number)%type.

Definition noDistance : result := ("a", None).
Definition fiveMeters : result := ("b", Some (JS.of_Z 5)).
Definition oneMeter : result := ("c", Some (JS.of_Z 1)).

End SortSpec.

(** ** Vocabulary of the formatter *)

Module FormatSpec.

(** A finite number that is not below zero. *)
Definition nonNegativeFinite (x : JS.number) : bool :=
  match x with
  | S754_zero _ | S754_finite false _ _ => true
  | _ => false
  end.

Definition isDigit (c : ascii) : bool :=
  ((48 <=? nat_of_ascii c) && (nat_of_ascii c <=? 57))%nat.

Fixpoint allDigits (s : string) : bool :=
  match s with
  | "" => true
  | String c s' => isDigit c && allDigits s'
  end.

Fixpoint containsPoint (s : string) : bool :=
  match s with
  | "" => false
  | String c s' => (c =? ".")%char || containsPoint s'
  end.

(** A number written with exactly one decimal place, followed by
    ["km"]: some digits, a point, one digit, the suffix. *)
Definition oneDecimalKm (s : string) : Prop :=
  exists a d,
    s = a ++ "." ++ String d "km" /\
    a <> "" /\ allDigits a = true /\ isDigit d = true.

(** The integer nearest to a rational, the larger one on a tie. *)
Definition nearest (x : Q) : Z := Qfloor (x + (1 # 2)).

(** A distance of [10^24] meters. *)
Definition septillion : JS.number := JS.of_Z (10 ^ 24).

End FormatSpec.

(** ** Vocabulary of the distance calculator *)

Module DistanceSpec.

(** A zero, or a finite number with a mantissa below [2^D] and an exponent
    of at most [E]. *)
Definition small (D E : Z) (x : JS.number) : Prop :=
  match x with
  | S754_zero _ => True
  | S754_finite _ m e => (Zpos m < 2 ^ D)%Z /\ (e <= E)%Z
  | _ => False
  end.

(** Valid coordinates: a latitude between [-90] and [90] degrees and a
    longitude between [-180] and [180]. *)
Definition validLatitude (lat : JS.number) : bool :=
  JS.is_double lat && SFleb (SFabs lat) (JS.of_Z 90).

Definition validLongitude (lon : JS.number) : bool :=
  JS.is_double lon && SFleb (SFabs lon) (JS.of_Z 180).

(** The quantity under the square roots of the haversine formula,
    [sin^2 (dphi / 2) + cos phi1 * cos phi2 * sin^2 (dlambda / 2)], with
    the products taken in the order of the program. *)
Definition haversine (M : JS.MathLibrary) (phi1 phi2 dphi dlambda : JS.number)
  : JS.number :=
  let half z := JS.div z (JS.of_Z 2) in
  JS.add
    (JS.mul (JS.Math_sin M (half dphi)) (JS.Math_sin M (half dphi)))
    (JS.mul
       (JS.mul (JS.mul (JS.Math_cos M phi1) (JS.Math_cos M phi2))
               (JS.Math_sin M (half dlambda)))
       (JS.Math_sin M (half dlambda))).

(** The mean radius of the Earth, in meters. *)
Definition earthRadius : Z := 6371000.

(** An engine for which the three properties are plain: the small-angle
    approximations [sin x = x], [cos x = 1] and [atan2 (y, x) = y]. *)
Definition smallAngles : JS.MathLibrary :=
  {| JS.Math_sin := fun x => x;
     JS.Math_cos := fun _ => JS.of_Z 1;
     JS.Math_atan2 := fun y _ => y |}.

(** The point of the tests of the service, [(35.886272, -82.82698)]. *)
Definition frenchBroadLat : JS.number :=
  JS.div (JS.of_Z 35886272) (JS.of_Z 1000000).
Definition frenchBroadLon : JS.number :=
  JS.div (JS.of_Z (-8282698)) (JS.of_Z 100000).

End DistanceSpec.

(** ** The haversine formula *)

(** The formula that the specification names, written once over an
    arithmetic that is left open, so that it can be read in the doubles of
    the program and in the real numbers. *)
Module Haversine.

(** The operations and the constants that the formula is made of. *)
Record Arithmetic (T : Type) := mkArithmetic {
  add : T -> T -> T;
  sub : T -> T -> T;
  mul : T -> T -> T;
  div : T -> T -> T;
  sqrt : T -> T;
  sin : T -> T;
  cos : T -> T;
  atan2 : T -> T -> T;
  pi : T;
  of_Z : Z -> T
}.
Arguments add {T}.
Arguments sub {T}.
Arguments mul {T}.
Arguments div {T}.
Arguments sqrt {T}.
Arguments sin {T}.
Arguments cos {T}.
Arguments atan2 {T}.
Arguments pi {T}.
Arguments of_Z {T}.

Section Formula.
Context {T : Type}.
Variable K : Arithmetic T.

(** An angle given in degrees, in radians. *)
Definition radians (degrees : T) : T :=
  div K (mul K degrees (pi K)) (of_Z K 180).

Definition half (x : T) : T := div K x (of_Z K 2).

(** The formula, for two points given by their latitude and longitude in
    degrees and the mean radius of the Earth in meters:
    [a = sin^2 (dphi / 2) + cos phi1 * cos phi2 * sin^2 (dlambda / 2)],
    [c = 2 * atan2 (sqrt a, sqrt (1 - a))] and [d = R * c]. *)
Definition distance (lat1 lon1 lat2 lon2 : T) : T :=
  let R := of_Z K DistanceSpec.earthRadius in
  let phi1 := radians lat1 in
  let phi2 := radians lat2 in
  let dphi := radians (sub K lat2 lat1) in
  let dlambda := radians (sub K lon2 lon1) in
  let a :=
    add K (mul K (sin K (half dphi)) (sin K (half dphi)))
          (mul K (mul K (mul K (cos K phi1) (cos K phi2))
                        (sin K (half dlambda)))
                 (sin K (half dlambda))) in
  let c :=
    mul K (of_Z K 2)
          (atan2 K (sqrt K a) (sqrt K (sub K (of_Z K 1) a))) in
  mul K R c.
End Formula.

(** The arithmetic of the program: doubles, with the [Math] functions of
    an engine. *)
Definition doubles (M : JS.MathLibrary) : Arithmetic JS.number :=
  {| add := JS.add; sub := JS.sub; mul := JS.mul; div := JS.div;
     sqrt := JS.Math_sqrt;
     sin := JS.Math_sin M; cos := JS.Math_cos M; atan2 := JS.Math_atan2 M;
     pi := JS.Math_PI; of_Z := JS.of_Z |}.

Module Real.
Import Reals.
Local Open Scope R_scope.

(** The angle of the point [(x, y)] of the plane, between [-PI] and [PI]. *)
Definition atan2 (y x : R) : R :=
  if Rlt_dec 0 x then atan (y / x)
  else if Rlt_dec x 0
       then (if Rle_dec 0 y then atan (y / x) + PI else atan (y / x) - PI)
       else if Rlt_dec 0 y then PI / 2
            else if Rlt_dec y 0 then - (PI / 2) else 0.

(** The arithmetic of the real numbers. *)
Definition numbers : Arithmetic R :=
  mkArithmetic R Rplus Rminus Rmult Rdiv sqrt sin cos atan2 PI IZR.

(** The point of the unit sphere at a latitude and a longitude given in
    degrees. *)
Definition onSphere (lat lon : R) : R * R * R :=
  let phi := lat * PI / 180 in
  let lambda := lon * PI / 180 in
  (cos phi * cos lambda, cos phi * sin lambda, sin phi).

Definition dot (u v : R * R * R) : R :=
  let '(ux, uy, uz) := u in
  let '(vx, vy, vz) := v in
  ux * vx + uy * vy + uz * vz.

(** The angle between two points of the unit sphere, seen from its
    centre, and the length of the arc of the great circle between the two
    points on a sphere of a given radius. *)
Definition centralAngle (u v : R * R * R) : R := acos (dot u v).

Definition greatCircleDistance (radius lat1 lon1 lat2 lon2 : R) : R :=
  radius * centralAngle (onSphere lat1 lon1) (onSphere lat2 lon2).

End Real.

End Haversine.

(** ** The string methods the program calls *)

Module JSString.

(** [s.startsWith(p)] *)
Definition startsWith (s p : string) : bool := String.prefix p s.

(** [s.includes(t)] *)
Definition includes (s t : string) : bool :=
  match String.index 0 t s with
  | Some _ => true
  | None => false
  end.

(** [s.split(sep)] for a separator of one character: the pieces between
    the occurrences of the separator, of which there is at least one. *)
Fixpoint split (sep : ascii) (s : string) : list string :=
  match s with
  | "" => [""]
  | String c s' =>
      if (c =? sep)%char then "" :: split sep s'
      else match split sep s' with
           | piece :: pieces => String c piece :: pieces
           | [] => [String c ""]
           end
  end.

(** A field that is missing reads as [undefined], and a template literal
    prints it as such. *)
Definition interpolate (o : option string) : string :=
  match o with
  | Some s => s
  | None => "undefined"
  end.

(** The value of [a || b] on optional strings, and of [a || undefined]
    on a string. *)
Definition or_else (a b : option string) : option string :=
  if JS.truthy_opt_string a then a else b.

Definition or_undefined (s : string) : option string :=
  if JS.truthy_string s then Some s else None.

(** An optional string that is truthy, as a string. *)
Definition truthy (o : option string) : option string :=
  match o with
  | Some s => or_undefined s
  | None => None
  end.

(** [s.toLowerCase()] and [s.trim()] follow the Unicode tables of the
    engine; an engine is a choice of the two functions. *)
Record StringLibrary := mkStrings {
  toLowerCase : string -> string;
  trim : string -> string
}.

End JSString.

(** ** components/WaterBodySelectionList: what a press selects *)

Module WaterBodySelection.
(** The interface [WaterBodySelection] of the component. *)
Record t := mk {
  source : string;
  sharedWaterBodyId : option string;
  sectionId : option string;
  sectionIndex : option JS.number;
  sectionName : option string;
  name : option string;
  type : option string;
  osmId : option string;
  osmData : option string
}.
End WaterBodySelection.

Module SelectionHandlers.
Import WaterBodySelectionList.

(** The argument that [selectSection] passes to [onSelect]. *)
Definition selectSection (waterBody : GroupedWaterBody.t)
    (section : SectionEntry.t) : WaterBodySelection.t :=
  {| WaterBodySelection.source := "shared_database";
     WaterBodySelection.sharedWaterBodyId :=
       Some (GroupedWaterBody.waterBodyId waterBody);
     WaterBodySelection.sectionId := Some (SectionEntry.sectionId section);
     WaterBodySelection.sectionIndex := Some (SectionEntry.sectionIndex section);
     WaterBodySelection.sectionName := Some (SectionEntry.sectionName section);
     WaterBodySelection.name := Some (GroupedWaterBody.name waterBody);
     WaterBodySelection.type := GroupedWaterBody.type waterBody;
     WaterBodySelection.osmId := None;
     WaterBodySelection.osmData := None |}.

Definition selectWaterBodyWithoutSection (waterBody : GroupedWaterBody.t)
  : WaterBodySelection.t :=
  {| WaterBodySelection.source := "shared_database";
     WaterBodySelection.sharedWaterBodyId :=
       Some (GroupedWaterBody.waterBodyId waterBody);
     WaterBodySelection.sectionId := None;
     WaterBodySelection.sectionIndex := None;
     WaterBodySelection.sectionName := None;
     WaterBodySelection.name := Some (GroupedWaterBody.name waterBody);
     WaterBodySelection.type := GroupedWaterBody.type waterBody;
     WaterBodySelection.osmId := None;
     WaterBodySelection.osmData := None |}.

Definition selectOSMWaterBody (candidate : WaterBodySearchResult.t)
  : WaterBodySelection.t :=
  {| WaterBodySelection.source := "osm";
     WaterBodySelection.sharedWaterBodyId := None;
     WaterBodySelection.sectionId := None;
     WaterBodySelection.sectionIndex := None;
     WaterBodySelection.sectionName := None;
     WaterBodySelection.name := Some (WaterBodySearchResult.name candidate);
     WaterBodySelection.type := WaterBodySearchResult.type candidate;
     WaterBodySelection.osmId := WaterBodySearchResult.osmId candidate;
     WaterBodySelection.osmData := WaterBodySearchResult.osmData candidate |}.

(** The buttons of a card, by what a press on them selects: a community
    card has one button per section and then the button that selects the
    water body without a section; an OSM card has one button. *)
Definition buttons (card : Card) : list WaterBodySelection.t :=
  match card with
  | CommunityCard waterBody =>
      (map (selectSection waterBody) (GroupedWaterBody.sections waterBody)
       ++ [selectWaterBodyWithoutSection waterBody])%list
  | OSMCard _ candidate => [selectOSMWaterBody candidate]
  end.

(** Every selection the list offers for the candidates it holds. *)
Definition offered (candidates : list WaterBodySearchResult.t) (showOSM : bool)
  : list WaterBodySelection.t :=
  match render candidates showOSM with
  | NoResults => []
  | Cards cards => flat_map buttons cards
  end.

(** The [key] of an OSM card, [`osm-${candidate.osmId}-${index}`]; an
    array index is printed as its decimal digits. *)
Definition osmKey (index : nat) (candidate : WaterBodySearchResult.t)
  : string :=
  "osm-" ++ JSString.interpolate (WaterBodySearchResult.osmId candidate)
         ++ "-" ++ JS.digits_of (Z.of_nat index).

(** The keys of the cards of each of the two lists: the [key] of a
    community card is [waterBody.waterBodyId]. *)
Definition groupKeys (cards : list Card) : list string :=
  flat_map (fun card => match card with
                        | CommunityCard waterBody =>
                            [GroupedWaterBody.waterBodyId waterBody]
                        | OSMCard _ _ => []
                        end) cards.

Definition osmKeys (cards : list Card) : list string :=
  flat_map (fun card => match card with
                        | CommunityCard _ => []
                        | OSMCard index candidate => [osmKey index candidate]
                        end) cards.

End SelectionHandlers.

(** ** Vocabulary of the selections *)

Module SelectionSpec.
Import WaterBodySearchResult.

(** The selection of water body [k], whose first candidate in the input
    is [first]: without a section, or with the section of the candidate
    [c]. *)
Definition communitySelection (k : string) (first : WaterBodySearchResult.t)
    (section : option WaterBodySearchResult.t) : WaterBodySelection.t :=
  {| WaterBodySelection.source := "shared_database";
     WaterBodySelection.sharedWaterBodyId := Some k;
     WaterBodySelection.sectionId :=
       option_map (fun c => JS.string_or (sectionId c) "") section;
     WaterBodySelection.sectionIndex :=
       option_map (fun c => JS.number_or (sectionIndex c) JS.pos_zero) section;
     WaterBodySelection.sectionName :=
       match section with
       | Some c => sectionName c
       | None => None
       end;
     WaterBodySelection.name := Some (name first);
     WaterBodySelection.type := type first;
     WaterBodySelection.osmId := None;
     WaterBodySelection.osmData := None |}.

End SelectionSpec.

(** ** The backend, as the confirmation screens call it *)

Module Coordinates.
(** [{ latitude: number; longitude: number }] *)
Record t := mk { latitude : JS.number; longitude : JS.number }.
End Coordinates.

Module Backend.

(** The body of [POST /activities/check-osm-match]. *)
Module CheckRequest.
Record t := mk {
  osmId : option string;
  name : option string;
  type : option string;
  coordinates : list JS.number
}.
End CheckRequest.

(** What is read of its answer: [matched] and [sharedWaterBody._id]. *)
Module CheckData.
Record t := mk {
  matched : bool;
  sharedWaterBody : option (option string)
}.
End CheckData.

(** The body of [POST /shared-water-bodies]. *)
Module CreateRequest.
Record t := mk {
  name : option string;
  type : option string;
  coordinates : list JS.number;
  section : option string;
  osmData : option string * option string
}.
End CreateRequest.

(** What is read of its answer: [data._id]. *)
Module CreateData.
Record t := mk { data : option (option string) }.
End CreateData.

Module Photo.
Record t := mk { data : string; contentType : string; uploadedAt : string }.
End Photo.

(** The object [activityData] sent to [POST /activities/manual]; a
    property that is not set is [None]. *)
Module ActivityData.
Record t := mk {
  latitude : JS.number;
  longitude : JS.number;
  sharedWaterBodyId : option string;
  startDate : string;
  name : option string;
  notes : option string;
  sectionId : option string;
  sectionName : option string;
  waterLevel : option string;
  paddleType : option string;
  photo : option Photo.t
}.
End ActivityData.

(** What the handler reads of an exception: [error.response.data.error]
    and [error.message]. *)
Module Failure.
Record t := mk { responseError : option string; message : option string }.

(** [new Error(message)] *)
Definition Error (message : string) : t :=
  {| responseError := None; message := Some message |}.
End Failure.

(** The requests, in the order they are sent. *)
Inductive Call :=
| CheckOsmMatch (request : CheckRequest.t)
| CreateSharedWaterBody (request : CreateRequest.t)
| CreateManualActivity (activityData : ActivityData.t).

(** The backend answers a request or makes the call throw. *)
Record Api := mkApi {
  checkOsmMatch : CheckRequest.t -> Failure.t + CheckData.t;
  createSharedWaterBody : CreateRequest.t -> Failure.t + CreateData.t;
  createManualActivity : ActivityData.t -> Failure.t + unit
}.

(** A computation that sends requests and returns or throws. *)
Definition M (A : Type) : Type := (list Call * (Failure.t + A))%type.

Definition ret {A : Type} (a : A) : M A := ([], inr a).

Definition throw {A : Type} (e : Failure.t) : M A := ([], inl e).

Definition bind {A B : Type} (m : M A) (f : A -> M B) : M B :=
  match m with
  | (calls, inl e) => (calls, inl e)
  | (calls, inr a) =>
      let '(calls', r) := f a in ((calls ++ calls')%list, r)
  end.

Definition call {A : Type} (c : Call) (answer : Failure.t + A) : M A :=
  ([c], answer).

(** The alert a handler ends with. *)
Module Alert.
Record t := mk { title : string; message : string }.
End Alert.

(** What [handleSave] has done when it returns: the requests it has sent,
    the alert it shows and the [loading] flag it leaves. *)
Module Saved.
Record t := mk { calls : list Call; alert : Alert.t; loading : bool }.
End Saved.

End Backend.

(** ** screens/CreateActivityConfirmScreen, for a selection of the list *)

(** The screen as it was rewritten for the selections of
    [WaterBodySelectionList]. *)
Module ConfirmSelection.
Import Backend.

(** The fields of the form, the date as the text [toISOString] gives. *)
Module Form.
Record t := mk {
  activityName : string;
  notes : string;
  sectionName : string;
  waterLevel : string;
  activityDate : string;
  selectedPaddleType : string;
  photoData : option string
}.
End Form.

Section HandleSave.
Variable strings : JSString.StringLibrary.
(** [osmData] is data of the backend that the program passes on; this is
    its [osmType] property. *)
Variable osmTypeOf : string -> option string.
Variable api : Api.
(** [new Date().toISOString()] at the time of the call. *)
Variable now : string.
Variable selectedWaterBody : WaterBodySelection.t.
Variable location : Coordinates.t.
Variable form : Form.t.

Notation "x <- m ;; k" := (bind m (fun x => k))
  (at level 61, m at next level, right associativity).

Definition isOSMWaterBody : bool :=
  WaterBodySelection.source selectedWaterBody =? "osm".

Definition isSection : bool :=
  JS.truthy_opt_string (WaterBodySelection.sectionId selectedWaterBody).

(** [sectionName.trim() || undefined] *)
Definition typedSection : option string :=
  JSString.or_undefined (JSString.trim strings (Form.sectionName form)).

(** The first part of the handler: the id of the water body, the id of the
    section to send and the name of the section. *)
Definition resolveWaterBody
  : M (option string * option string * option string) :=
  if isOSMWaterBody then
    let osmId := WaterBodySelection.osmId selectedWaterBody in
    let osmType :=
      JSString.or_else
        (match WaterBodySelection.osmData selectedWaterBody with
         | Some osmData => osmTypeOf osmData
         | None => None
         end)
        (WaterBodySelection.type selectedWaterBody) in
    let coordinates :=
      [Coordinates.longitude location; Coordinates.latitude location] in
    let request :=
      {| CheckRequest.osmId := osmId;
         CheckRequest.name := WaterBodySelection.name selectedWaterBody;
         CheckRequest.type := osmType;
         CheckRequest.coordinates := coordinates |} in
    checkData <- call (CheckOsmMatch request) (checkOsmMatch api request) ;;
    match CheckData.matched checkData, CheckData.sharedWaterBody checkData with
    | true, Some _id => ret (_id, None, typedSection)
    | _, _ =>
        let request :=
          {| CreateRequest.name := WaterBodySelection.name selectedWaterBody;
             CreateRequest.type := osmType;
             CreateRequest.coordinates := coordinates;
             CreateRequest.section := typedSection;
             CreateRequest.osmData := (osmId, osmType) |} in
        createData <- call (CreateSharedWaterBody request)
                           (createSharedWaterBody api request) ;;
        match CreateData.data createData with
        | Some _id =>
            if JS.truthy_opt_string _id then ret (_id, None, typedSection)
            else throw (Failure.Error
                          "Failed to create water body - invalid response")
        | None =>
            throw (Failure.Error
                     "Failed to create water body - invalid response")
        end
    end
  else if negb (JS.truthy_opt_string
                  (WaterBodySelection.sharedWaterBodyId selectedWaterBody))
  then throw (Failure.Error "Invalid water body selection - missing ID")
  else
    let sharedWaterBodyId :=
      WaterBodySelection.sharedWaterBodyId selectedWaterBody in
    if isSection
       && JS.truthy_opt_string (WaterBodySelection.sectionId selectedWaterBody)
    then ret (sharedWaterBodyId,
              WaterBodySelection.sectionId selectedWaterBody,
              WaterBodySelection.sectionName selectedWaterBody)
    else ret (sharedWaterBodyId, None, None).

(** The object [activityData]. *)
Definition activityDataOf (sharedWaterBodyId sectionIdToSend
    finalSectionName : option string) : ActivityData.t :=
  {| ActivityData.latitude := Coordinates.latitude location;
     ActivityData.longitude := Coordinates.longitude location;
     ActivityData.sharedWaterBodyId := sharedWaterBodyId;
     ActivityData.startDate := Form.activityDate form;
     ActivityData.name :=
       JSString.or_undefined (JSString.trim strings (Form.activityName form));
     ActivityData.notes :=
       JSString.or_undefined (JSString.trim strings (Form.notes form));
     ActivityData.sectionId := JSString.truthy sectionIdToSend;
     ActivityData.sectionName := JSString.truthy finalSectionName;
     ActivityData.waterLevel :=
       JSString.or_undefined (JSString.trim strings (Form.waterLevel form));
     ActivityData.paddleType :=
       JSString.or_undefined (Form.selectedPaddleType form);
     ActivityData.photo :=
       match JSString.truthy (Form.photoData form) with
       | Some photoData =>
           Some {| Photo.data := photoData;
                   Photo.contentType := "image/jpeg";
                   Photo.uploadedAt := now |}
       | None => None
       end |}.

(** The body of the [try] block. *)
Definition save : M unit :=
  resolved <- resolveWaterBody ;;
  let '(sharedWaterBodyId, sectionIdToSend, finalSectionName) := resolved in
  let activityData :=
    activityDataOf sharedWaterBodyId sectionIdToSend finalSectionName in
  call (CreateManualActivity activityData) (createManualActivity api activityData).

(** [error.response?.data?.error || error.message || 'Failed to create
    activity'] *)
Definition errorMessage (error : Failure.t) : string :=
  JS.string_or
    (JSString.or_else (Failure.responseError error) (Failure.message error))
    "Failed to create activity".

Definition handleSave : Saved.t :=
  let '(calls, r) := save in
  {| Saved.calls := calls;
     Saved.alert :=
       match r with
       | inr _ => {| Alert.title := "Success";
                     Alert.message := "Activity created successfully!" |}
       | inl error => {| Alert.title := "Error";
                         Alert.message := errorMessage error |}
       end;
     Saved.loading := false |}.

End HandleSave.

End ConfirmSelection.

(** ** services/waterBodyService: the search over the candidates of the
    backend *)

(** [searchCombined] as it was rewritten for the rows that the backend
    answers with, and the result type that this version of the service
    declares. *)
Module CandidateSearch.

(** A row of [response.data.waterBodies].  The program reads the rows
    untyped; the fields it reads are given the types of the result fields
    they are copied to: texts for ids and names, an array of numbers for
    coordinates, a number for the distance. *)
Module Candidate.
Record t := mk {
  waterBodyId : option string;
  sharedWaterBodyId : option string;
  sectionId : option string;
  sectionName : option string;
  section : option string;
  name : string;
  coordinates : option (list JS.number);
  sectionCoordinates : option (list JS.number);
  osmId : option string;
  osmType : option string;
  distance : option JS.number
}.
End Candidate.

Module Location.
Record t := mk { type : string; coordinates : list JS.number }.
End Location.

(** [SharedWaterBody] and [SharedWaterBodySection], with the properties
    that [searchCombined] sets. *)
Module SharedWaterBody.
Record t := mk { _id : option string; name : string; location : Location.t }.
End SharedWaterBody.

Module SharedWaterBodySection.
Record t := mk {
  _id : string;
  sharedWaterBody : option string;
  sectionName : string;
  location : Location.t
}.
End SharedWaterBodySection.

Inductive ResultType := shared | section.

(** [WaterBodySearchResult] *)
Module Result.
Record t := mk {
  type : ResultType;
  id : string;
  name : string;
  distance : option JS.number;
  sharedWaterBody : option SharedWaterBody.t;
  section : option SharedWaterBodySection.t
}.
End Result.

Module OSMStatus.
Record t := mk {
  success : bool;
  error : option string;
  candidateCount : JS.number
}.
End OSMStatus.

(** [WaterBodySearchResponse] *)
Module Response.
Record t := mk { results : list Result.t; osmStatus : option OSMStatus.t }.
End Response.

(** The two requests of [searchCombined], with their parameters, and what
    is read of the answer. *)
Inductive Request :=
| Search (q : string)
| ByCoordinates (latitude longitude : JS.number) (isMapSelected : string).

Module ResponseData.
Record t := mk {
  waterBodies : option (list Candidate.t);
  osmStatus : option OSMStatus.t
}.
End ResponseData.

Definition point (coordinates : list JS.number) : Location.t :=
  {| Location.type := "Point"; Location.coordinates := coordinates |}.

(** [[0, 0]] *)
Definition origin : list JS.number := [JS.pos_zero; JS.pos_zero].

(** [a || b], and [a || b || [0, 0]], on arrays: an array is truthy. *)
Definition array_or {A : Type} (a : option (list A)) (b : list A) : list A :=
  match a with
  | Some coordinates => coordinates
  | None => b
  end.

(** The body of [candidates.forEach]: the result pushed for a candidate,
    if any. *)
Definition resultOf (candidate : Candidate.t) : option Result.t :=
  let waterBodyId :=
    JSString.or_else (Candidate.waterBodyId candidate)
                     (Candidate.sharedWaterBodyId candidate) in
  let sectionId := Candidate.sectionId candidate in
  let sectionName :=
    JSString.or_else (Candidate.sectionName candidate)
                     (Candidate.section candidate) in
  match JSString.truthy sectionName, JSString.truthy sectionId with
  | Some sectionName, Some sectionId =>
      let coordinates :=
        array_or (Candidate.coordinates candidate)
                 (array_or (Candidate.sectionCoordinates candidate) origin) in
      Some {| Result.type := section;
              Result.id := sectionId;
              Result.name := Candidate.name candidate ++ " - " ++ sectionName;
              Result.sharedWaterBody :=
                Some {| SharedWaterBody._id := waterBodyId;
                        SharedWaterBody.name := Candidate.name candidate;
                        SharedWaterBody.location := point coordinates |};
              Result.section :=
                Some {| SharedWaterBodySection._id := sectionId;
                        SharedWaterBodySection.sharedWaterBody := waterBodyId;
                        SharedWaterBodySection.sectionName := sectionName;
                        SharedWaterBodySection.location := point coordinates |};
              Result.distance := Candidate.distance candidate |}
  | _, _ =>
      match JSString.truthy (Candidate.osmId candidate) with
      | Some osmId =>
          Some {| Result.type := shared;
                  Result.id :=
                    "osm-" ++ JSString.interpolate (Candidate.osmType candidate)
                           ++ "-" ++ osmId;
                  Result.name := Candidate.name candidate;
                  Result.sharedWaterBody :=
                    Some {| SharedWaterBody._id := Some osmId;
                            SharedWaterBody.name := Candidate.name candidate;
                            SharedWaterBody.location :=
                              point (array_or (Candidate.coordinates candidate)
                                              origin) |};
                  Result.section := None;
                  Result.distance := Candidate.distance candidate |}
      | None =>
          match JSString.truthy waterBodyId with
          | Some waterBodyId =>
              Some {| Result.type := shared;
                      Result.id := waterBodyId;
                      Result.name := Candidate.name candidate;
                      Result.sharedWaterBody :=
                        Some {| SharedWaterBody._id := Some waterBodyId;
                                SharedWaterBody.name := Candidate.name candidate;
                                SharedWaterBody.location :=
                                  point (array_or (Candidate.coordinates candidate)
                                                  origin) |};
                      Result.section := None;
                      Result.distance := Candidate.distance candidate |}
          | None => None
          end
      end
  end.

(** [results], once [candidates.forEach] has run. *)
Definition resultsOf (candidates : list Candidate.t) : list Result.t :=
  flat_map (fun candidate => match resultOf candidate with
                             | Some result => [result]
                             | None => []
                             end) candidates.

(** The request that is sent: the search by name when there is a query,
    and otherwise the search around the location. *)
Definition requestOf (latitude longitude : JS.number) (query : option string)
    (isMapSelected : bool) : Request :=
  match JSString.truthy query with
  | Some query => Search query
  | None =>
      ByCoordinates latitude longitude (if isMapSelected then "true" else "false")
  end.

(** What [searchCombined] returns for the answer of the backend. *)
Definition responseOf (data : ResponseData.t) : Response.t :=
  let candidates := array_or (ResponseData.waterBodies data) [] in
  {| Response.results :=
       WaterBodyService.sortByDefinedDistance Result.distance
         (resultsOf candidates);
     Response.osmStatus := ResponseData.osmStatus data |}.

(** [searchCombined]; [api_get] is the backend, which answers or makes
    the call throw. *)
Definition searchCombined (api_get : Request -> Backend.Failure.t + ResponseData.t)
    (latitude longitude : JS.number) (query : option string)
    (isMapSelected : bool) : Backend.Failure.t + Response.t :=
  match api_get (requestOf latitude longitude query isMapSelected) with
  | inl error => inl error
  | inr data => inr (responseOf data)
  end.

End CandidateSearch.

(** ** components/WaterBodySelectionList: loading, error and results *)

Module SelectionListState.
Import WaterBodySelectionList Backend.

(** The answer of [searchCombined], as the component reads it. *)
Module Response.
Record t := mk {
  results : list WaterBodySearchResult.t;
  osmStatus : option CandidateSearch.OSMStatus.t
}.
End Response.

(** The state of the component, with the values given to [useState]. *)
Record State := mkState {
  isLoading : bool;
  error : string;
  candidates : list WaterBodySearchResult.t;
  osmStatus : option CandidateSearch.OSMStatus.t;
  showOSM : bool
}.

Definition initialState : State :=
  {| isLoading := true; error := ""; candidates := []; osmStatus := None;
     showOSM := true |}.

(** [fetchWaterBodies] up to the call of the service. *)
Definition startFetch (st : State) : State :=
  {| isLoading := true; error := ""; candidates := []; osmStatus := None;
     showOSM := showOSM st |}.

(** [err.response?.data?.error || err.message || 'Failed to fetch water
    bodies'] *)
Definition errorMessage (err : Failure.t) : string :=
  JS.string_or
    (JSString.or_else (Failure.responseError err) (Failure.message err))
    "Failed to fetch water bodies".

(** [fetchWaterBodies] once the service has answered or thrown: the state
    it leaves, and the message it passes to [onError] when the component
    has been given one. *)
Definition fetchWaterBodies (answer : Failure.t + Response.t) (st : State)
  : State * option string :=
  let st := startFetch st in
  match answer with
  | inr response =>
      ({| isLoading := false;
          error := error st;
          candidates := Response.results response;
          osmStatus := Response.osmStatus response;
          showOSM := showOSM st |}, None)
  | inl err =>
      ({| isLoading := false;
          error := errorMessage err;
          candidates := candidates st;
          osmStatus := osmStatus st;
          showOSM := showOSM st |}, Some (errorMessage err))
  end.

(** What the component returns: the spinner while it is loading, the
    error with its button when there is one, and otherwise the results
    pane, under the warning when OpenStreetMap has failed. *)
Inductive View :=
| LoadingView
| ErrorView (error : string)
| ResultsView (warning : bool) (results : Results).

Definition view (st : State) : View :=
  if isLoading st then LoadingView
  else if JS.truthy_string (error st) then ErrorView (error st)
  else ResultsView
         (match osmStatus st with
          | Some status => negb (CandidateSearch.OSMStatus.success status)
          | None => false
          end)
         (render (candidates st) (showOSM st)).

End SelectionListState.

(** ** Vocabulary of the views *)

Module ViewSpec.
Import WaterBodySearchResult SelectionListState.

(** A candidate that the list does not show: one of OpenStreetMap while
    the toggle is off, or one of the community without water-body id. *)
Definition hidden (showOSM : bool) (c : WaterBodySearchResult.t) : Prop :=
  if WaterBodyGrouping.isOSM c then showOSM = false
  else JS.truthy_opt_string (sharedWaterBodyId c) = false.

(** The view is the results pane in its empty state. *)
Definition emptyState (v : View) : bool :=
  match v with
  | ResultsView _ WaterBodySelectionList.NoResults => true
  | _ => false
  end.

End ViewSpec.

(** ** screens/CreateActivityScreen: the list of results *)

Module CreateActivityScreen.
Import CandidateSearch.

(** [item.id.startsWith('osm-')], by which a row gets the OSM icon and
    label instead of the community ones. *)
Definition isOSM (item : Result.t) : bool :=
  JSString.startsWith (Result.id item) "osm-".

(** The [data] of the [FlatList]. *)
Definition listData (waterBodies : list Result.t) (showOSM : bool)
  : list Result.t :=
  filter (fun wb => showOSM || negb (JSString.startsWith (Result.id wb) "osm-"))
         waterBodies.

End CreateActivityScreen.

(** ** screens/CreateActivityConfirmScreen, for a result of the search *)

Module ConfirmSearchResult.
Import Backend CandidateSearch.

Module Form.
Record t := mk {
  activityName : string;
  notes : string;
  sectionName : string;
  waterLevel : string;
  activityDate : string;
  selectedPaddleType : string
}.
End Form.

Section HandleSave.
Variable strings : JSString.StringLibrary.
Variable api : Api.
Variable selectedWaterBody : Result.t.
Variable location : Coordinates.t.
Variable form : Form.t.

Notation "x <- m ;; k" := (bind m (fun x => k))
  (at level 61, m at next level, right associativity).

Definition isOSMWaterBody : bool :=
  JSString.startsWith (Result.id selectedWaterBody) "osm-".

Definition isSection : bool :=
  match Result.type selectedWaterBody with
  | section => true
  | shared => false
  end.

(** [sectionName.trim() || undefined] *)
Definition typedSection : option string :=
  JSString.or_undefined (JSString.trim strings (Form.sectionName form)).

(** [const [, osmType, osmId] = selectedWaterBody.id.split('-')] *)
Definition osmParts : option string * option string :=
  let parts := JSString.split "-" (Result.id selectedWaterBody) in
  (nth_error parts 1, nth_error parts 2).

(** The first part of the handler: the id of the water body, the name of
    the section and the location of the activity. *)
Definition resolveWaterBody
  : M (option string * option string * Coordinates.t) :=
  if isOSMWaterBody then
    let '(osmType, osmId) := osmParts in
    let coordinates :=
      [Coordinates.longitude location; Coordinates.latitude location] in
    let request :=
      {| CheckRequest.osmId := osmId;
         CheckRequest.name := Some (Result.name selectedWaterBody);
         CheckRequest.type := osmType;
         CheckRequest.coordinates := coordinates |} in
    checkData <- call (CheckOsmMatch request) (checkOsmMatch api request) ;;
    match CheckData.matched checkData, CheckData.sharedWaterBody checkData with
    | true, Some _id => ret (_id, typedSection, location)
    | _, _ =>
        let request :=
          {| CreateRequest.name := Some (Result.name selectedWaterBody);
             CreateRequest.type := osmType;
             CreateRequest.coordinates := coordinates;
             CreateRequest.section := typedSection;
             CreateRequest.osmData := (osmId, osmType) |} in
        createData <- call (CreateSharedWaterBody request)
                           (createSharedWaterBody api request) ;;
        match CreateData.data createData with
        | Some _id =>
            if JS.truthy_opt_string _id then ret (_id, typedSection, location)
            else throw (Failure.Error
                          "Failed to create water body - invalid response")
        | None =>
            throw (Failure.Error
                     "Failed to create water body - invalid response")
        end
    end
  else
    let waterBodyId :=
      match Result.sharedWaterBody selectedWaterBody with
      | Some waterBody => SharedWaterBody._id waterBody
      | None => None
      end in
    if negb (JS.truthy_opt_string waterBodyId)
    then throw (Failure.Error "Invalid water body selection")
    else
      match Result.sharedWaterBody selectedWaterBody with
      | Some waterBody =>
          match Location.coordinates (SharedWaterBody.location waterBody) with
          | [longitude; latitude] =>
              let finalSectionName :=
                if isSection then
                  match Result.section selectedWaterBody with
                  | Some sectionOfResult =>
                      JSString.or_undefined
                        (SharedWaterBodySection.sectionName sectionOfResult)
                  | None => None
                  end
                else None in
              ret (waterBodyId, finalSectionName,
                   {| Coordinates.longitude := longitude;
                      Coordinates.latitude := latitude |})
          | _ => throw (Failure.Error "Water body missing location coordinates")
          end
      | None => throw (Failure.Error "Water body missing location coordinates")
      end.

(** The object [activityData]. *)
Definition activityDataOf (sharedWaterBodyId finalSectionName : option string)
    (activityLocation : Coordinates.t) : ActivityData.t :=
  {| ActivityData.latitude := Coordinates.latitude activityLocation;
     ActivityData.longitude := Coordinates.longitude activityLocation;
     ActivityData.sharedWaterBodyId := sharedWaterBodyId;
     ActivityData.startDate := Form.activityDate form;
     ActivityData.name :=
       JSString.or_undefined (JSString.trim strings (Form.activityName form));
     ActivityData.notes :=
       JSString.or_undefined (JSString.trim strings (Form.notes form));
     ActivityData.sectionId := None;
     ActivityData.sectionName := JSString.truthy finalSectionName;
     ActivityData.waterLevel :=
       JSString.or_undefined (JSString.trim strings (Form.waterLevel form));
     ActivityData.paddleType :=
       JSString.or_undefined (Form.selectedPaddleType form);
     ActivityData.photo := None |}.

(** The body of the [try] block. *)
Definition save : M unit :=
  resolved <- resolveWaterBody ;;
  let '(sharedWaterBodyId, finalSectionName, activityLocation) := resolved in
  let activityData :=
    activityDataOf sharedWaterBodyId finalSectionName activityLocation in
  call (CreateManualActivity activityData) (createManualActivity api activityData).

Definition errorMessage (error : Failure.t) : string :=
  JS.string_or
    (JSString.or_else (Failure.responseError error) (Failure.message error))
    "Failed to create activity".

Definition handleSave : Saved.t :=
  let '(calls, r) := save in
  {| Saved.calls := calls;
     Saved.alert :=
       match r with
       | inr _ => {| Alert.title := "Success";
                     Alert.message := "Activity created successfully!" |}
       | inl error => {| Alert.title := "Error";
                         Alert.message := errorMessage error |}
       end;
     Saved.loading := false |}.

End HandleSave.

End ConfirmSearchResult.

(** ** Vocabulary of the candidates *)

Module CandidateSpec.
Import CandidateSearch.

(** [candidate.waterBodyId || candidate.sharedWaterBodyId] and
    [candidate.sectionName || candidate.section] *)
Definition waterBodyIdOf (c : Candidate.t) : option string :=
  JSString.or_else (Candidate.waterBodyId c) (Candidate.sharedWaterBodyId c).

Definition sectionNameOf (c : Candidate.t) : option string :=
  JSString.or_else (Candidate.sectionName c) (Candidate.section c).

(** A candidate of a section has the name and the id of a section; a
    candidate of OpenStreetMap is not of a section and has an OSM id; a
    candidate of a water body is neither and has the id of a water body.
    Present means truthy, as in the program. *)
Definition ofSection (c : Candidate.t) : bool :=
  JS.truthy_opt_string (sectionNameOf c)
  && JS.truthy_opt_string (Candidate.sectionId c).

Definition ofOSM (c : Candidate.t) : bool :=
  negb (ofSection c) && JS.truthy_opt_string (Candidate.osmId c).

Definition ofWaterBody (c : Candidate.t) : bool :=
  negb (ofSection c) && negb (JS.truthy_opt_string (Candidate.osmId c))
  && JS.truthy_opt_string (waterBodyIdOf c).

Definition usable (c : Candidate.t) : bool :=
  ofSection c || ofOSM c || ofWaterBody c.

(** The id that the result of a community candidate gets. *)
Definition communityId (c : Candidate.t) : option string :=
  if ofSection c then Candidate.sectionId c else waterBodyIdOf c.

(** The ids of the database do not look like the ids made up for
    OpenStreetMap. *)
Definition plainId (o : option string) : bool :=
  match o with
  | Some s => negb (JSString.startsWith s "osm-")
  | None => true
  end.

(** A text without hyphen. *)
Fixpoint hyphenFree (s : string) : bool :=
  match s with
  | "" => true
  | String c s' => negb (c =? "-")%char && hyphenFree s'
  end.

(** The type and the id of a candidate of OpenStreetMap have no hyphen. *)
Definition hyphenFreeOSM (c : Candidate.t) : bool :=
  hyphenFree (JSString.interpolate (Candidate.osmType c))
  && match Candidate.osmId c with
     | Some osmId => hyphenFree osmId
     | None => true
     end.

(** The coordinates that the result of a candidate gets. *)
Definition coordinatesOf (c : Candidate.t) : list JS.number :=
  if ofSection c
  then array_or (Candidate.coordinates c)
                (array_or (Candidate.sectionCoordinates c) origin)
  else array_or (Candidate.coordinates c) origin.

End CandidateSpec.

(** ** Vocabulary of the order of the results *)

Module OrderSpec.

Definition is_nan (x : JS.number) : bool :=
  match x with
  | S754_nan => true
  | _ => false
  end.

(** A distance that is a number: a double other than [NaN]. *)
Definition isDistance (o : option JS.number) : bool :=
  match o with
  | Some d => JS.is_double d && negb (is_nan d)
  | None => false
  end.

(** A distance that is missing, or a double. *)
Definition isDoubleOrMissing (o : option JS.number) : bool :=
  match o with
  | Some d => JS.is_double d
  | None => true
  end.

Section Keys.
Context {A : Type}.
Variable key : A -> JS.number.

(** Closest first: no entry is followed, however far behind, by an entry
    with a smaller key. *)
Definition ascending : list A -> Prop :=
  ForallOrdPairs (fun x y => JS.lt (key y) (key x) = false).
End Keys.

(** The key of a result in each of the two sorts: the distance, with [0]
    for a distance that is missing or falsy, and the distance itself. *)
Definition distanceOrZero (o : option JS.number) : JS.number :=
  JS.number_or o JS.pos_zero.

Definition definedDistance (o : option JS.number) : JS.number :=
  match o with
  | Some d => d
  | None => S754_nan
  end.

End OrderSpec.

(** ** services/waterBodyService: the search around a location *)

(** [searchNearby] and [searchCombined] as the service first had them,
    over the water bodies of the backend, with the types that this
    version of the service declares. *)
Module NearbySearch.

(** [coordinates: [number, number]], longitude first. *)
Module Location.
Record t := mk { type : string; coordinates : JS.number * JS.number }.
End Location.

(** [sharedWaterBody] is the id of the water body or the water body
    itself; the program does not read it, and the id stands for both. *)
Module SharedWaterBodySection.
Record t := mk {
  _id : string;
  sharedWaterBody : string;
  sectionName : string;
  location : Location.t
}.
End SharedWaterBodySection.

Module SharedWaterBody.
Record t := mk {
  _id : string;
  name : string;
  alternateNames : option (list string);
  location : Location.t;
  sections : option (list SharedWaterBodySection.t)
}.
End SharedWaterBody.

Inductive ResultType := shared | section.

Module Result.
Record t := mk {
  type : ResultType;
  id : string;
  name : string;
  distance : option JS.number;
  sharedWaterBody : option SharedWaterBody.t;
  section : option SharedWaterBodySection.t
}.
End Result.

(** The parameters of [GET /shared-water-bodies/by-coordinates]. *)
Module Params.
Record t := mk {
  latitude : JS.number;
  longitude : JS.number;
  maxDistance : JS.number
}.
End Params.

Section Search.
Variable strings : JSString.StringLibrary.
Variable M : JS.MathLibrary.
(** The backend: [response.data.waterBodies] for the parameters of the
    request, or an exception. *)
Variable api_get :
  Params.t -> Backend.Failure.t + option (list SharedWaterBody.t).

Definition searchNearby (latitude longitude radiusKm : JS.number)
  : Backend.Failure.t + list SharedWaterBody.t :=
  match api_get {| Params.latitude := latitude;
                   Params.longitude := longitude;
                   Params.maxDistance := JS.mul radiusKm (JS.of_Z 1000) |} with
  | inl error => inl error
  | inr waterBodies => inr (CandidateSearch.array_or waterBodies [])
  end.

(** The test of the filter, for the query in lower case. *)
Definition matchesQuery (queryLower : string) (wb : SharedWaterBody.t) : bool :=
  JSString.includes (JSString.toLowerCase strings (SharedWaterBody.name wb))
                    queryLower
  || match SharedWaterBody.alternateNames wb with
     | Some alternateNames =>
         existsb (fun alt =>
                    JSString.includes (JSString.toLowerCase strings alt)
                                      queryLower)
                 alternateNames
     | None => false
     end.

Definition distanceTo (latitude longitude : JS.number) (location : Location.t)
  : JS.number :=
  WaterBodyService.calculateDistance M latitude longitude
    (snd (Location.coordinates location)) (fst (Location.coordinates location)).

(** The result pushed for a water body, and for one of its sections. *)
Definition sharedResult (latitude longitude : JS.number)
    (wb : SharedWaterBody.t) : Result.t :=
  {| Result.type := shared;
     Result.id := SharedWaterBody._id wb;
     Result.name := SharedWaterBody.name wb;
     Result.sharedWaterBody := Some wb;
     Result.section := None;
     Result.distance :=
       Some (distanceTo latitude longitude (SharedWaterBody.location wb)) |}.

Definition sectionResult (latitude longitude : JS.number)
    (wb : SharedWaterBody.t) (s : SharedWaterBodySection.t) : Result.t :=
  {| Result.type := section;
     Result.id := SharedWaterBodySection._id s;
     Result.name :=
       SharedWaterBody.name wb ++ " - " ++ SharedWaterBodySection.sectionName s;
     Result.sharedWaterBody := Some wb;
     Result.section := Some s;
     Result.distance :=
       Some (distanceTo latitude longitude (SharedWaterBodySection.location s)) |}.

(** The body of [waterBodies.forEach]. *)
Definition resultsOf (latitude longitude : JS.number) (wb : SharedWaterBody.t)
  : list Result.t :=
  sharedResult latitude longitude wb
  :: map (sectionResult latitude longitude wb)
         (CandidateSearch.array_or (SharedWaterBody.sections wb) []).

(** The water bodies that are kept: all of them without a query. *)
Definition filtered (query : option string) (nearby : list SharedWaterBody.t)
  : list SharedWaterBody.t :=
  match JSString.truthy query with
  | Some query =>
      filter (matchesQuery (JSString.toLowerCase strings query)) nearby
  | None => nearby
  end.

Definition searchCombined (latitude longitude : JS.number)
    (query : option string) : Backend.Failure.t + list Result.t :=
  match searchNearby latitude longitude (JS.of_Z 50) with
  | inl error => inl error
  | inr nearby =>
      inr (WaterBodyService.sortByDistanceOrZero Result.distance
             (flat_map (resultsOf latitude longitude) (filtered query nearby)))
  end.

End Search.

End NearbySearch.

(** ** screens/MapLocationPickerScreen *)

Module MapLocationPickerScreen.

(** The screen has its own copy of [calculateDistance]. *)
Definition calculateDistance (M : JS.MathLibrary)
    (lat1 lon1 lat2 lon2 : JS.number) : JS.number :=
  let R := JS.of_Z 6371000 in
  let phi1 := JS.div (JS.mul lat1 JS.Math_PI) (JS.of_Z 180) in
  let phi2 := JS.div (JS.mul lat2 JS.Math_PI) (JS.of_Z 180) in
  let dphi := JS.div (JS.mul (JS.sub lat2 lat1) JS.Math_PI) (JS.of_Z 180) in
  let dlambda := JS.div (JS.mul (JS.sub lon2 lon1) JS.Math_PI) (JS.of_Z 180) in
  let a :=
    JS.add
      (JS.mul (JS.Math_sin M (JS.div dphi (JS.of_Z 2)))
              (JS.Math_sin M (JS.div dphi (JS.of_Z 2))))
      (JS.mul
         (JS.mul (JS.mul (JS.Math_cos M phi1) (JS.Math_cos M phi2))
                 (JS.Math_sin M (JS.div dlambda (JS.of_Z 2))))
         (JS.Math_sin M (JS.div dlambda (JS.of_Z 2)))) in
  let c :=
    JS.mul (JS.of_Z 2)
           (JS.Math_atan2 M (JS.Math_sqrt a)
                            (JS.Math_sqrt (JS.sub (JS.of_Z 1) a))) in
  JS.mul R c.

(** The state of the screen is the location of the marker, which starts
    at [initialLocation]. *)
Definition initialState (initialLocation : Coordinates.t) : Coordinates.t :=
  initialLocation.

(** [handleResetToGPS] moves the marker back to the GPS location. *)
Definition handleResetToGPS (initialLocation : Coordinates.t)
    (selectedLocation : Coordinates.t) : Coordinates.t :=
  initialLocation.

(** [distance], from the GPS location to the marker. *)
Definition distance (M : JS.MathLibrary)
    (initialLocation selectedLocation : Coordinates.t) : JS.number :=
  calculateDistance M
    (Coordinates.latitude initialLocation)
    (Coordinates.longitude initialLocation)
    (Coordinates.latitude selectedLocation)
    (Coordinates.longitude selectedLocation).

(** The text under the coordinates, shown when [distance > 10]. *)
Definition distanceText (M : JS.MathLibrary)
    (initialLocation selectedLocation : Coordinates.t) : option string :=
  let distance := distance M initialLocation selectedLocation in
  if JS.lt (JS.of_Z 10) distance then
    Some (if JS.lt distance (JS.of_Z 1000)
          then JS.Number_toString (JS.Math_round distance) ++ "m from GPS"
          else JS.toFixed (JS.div distance (JS.of_Z 1000)) 2 ++ "km from GPS")
  else None.

End MapLocationPickerScreen.

(** ** screens/HomeScreen: the steps of the creation of an activity *)

Module HomeScreen.

Inductive CreateActivityStep := select | map | confirm.

Section Flow.
(** The type of the water body that is selected. *)
Context {WaterBody : Type}.

Record State := mkState {
  showCreateActivity : bool;
  createActivityStep : CreateActivityStep;
  selectedWaterBody : option WaterBody;
  selectedLocation : option Coordinates.t;
  mapOverrideLocation : option Coordinates.t
}.

(** The values given to [useState]. *)
Definition initialState : State :=
  {| showCreateActivity := false;
     createActivityStep := select;
     selectedWaterBody := None;
     selectedLocation := None;
     mapOverrideLocation := None |}.

(** The button that opens the modal: [setShowCreateActivity(true)]. *)
Definition openCreateActivity (st : State) : State :=
  {| showCreateActivity := true;
     createActivityStep := createActivityStep st;
     selectedWaterBody := selectedWaterBody st;
     selectedLocation := selectedLocation st;
     mapOverrideLocation := mapOverrideLocation st |}.

Definition handleContinueToMap (waterBody : WaterBody)
    (location : Coordinates.t) (st : State) : State :=
  {| showCreateActivity := showCreateActivity st;
     createActivityStep := confirm;
     selectedWaterBody := Some waterBody;
     selectedLocation := Some location;
     mapOverrideLocation := mapOverrideLocation st |}.

Definition handleOpenMapPicker (currentLocation : Coordinates.t) (st : State)
  : State :=
  {| showCreateActivity := showCreateActivity st;
     createActivityStep := map;
     selectedWaterBody := selectedWaterBody st;
     selectedLocation := Some currentLocation;
     mapOverrideLocation := mapOverrideLocation st |}.

Definition handleLocationConfirmed (location : Coordinates.t) (st : State)
  : State :=
  {| showCreateActivity := showCreateActivity st;
     createActivityStep := select;
     selectedWaterBody := None;
     selectedLocation := selectedLocation st;
     mapOverrideLocation := Some location |}.

Definition handleBackToSelect (st : State) : State :=
  {| showCreateActivity := showCreateActivity st;
     createActivityStep := select;
     selectedWaterBody := selectedWaterBody st;
     selectedLocation := selectedLocation st;
     mapOverrideLocation := mapOverrideLocation st |}.

Definition handleActivityCreated (st : State) : State :=
  {| showCreateActivity := false;
     createActivityStep := select;
     selectedWaterBody := None;
     selectedLocation := None;
     mapOverrideLocation := None |}.

Definition handleCancel (st : State) : State :=
  {| showCreateActivity := false;
     createActivityStep := select;
     selectedWaterBody := None;
     selectedLocation := None;
     mapOverrideLocation := None |}.

(** The callbacks, as the screens of the modal are given them. *)
Inductive Event :=
| Open
| Continue (waterBody : WaterBody) (location : Coordinates.t)
| OpenMapPicker (currentLocation : Coordinates.t)
| LocationConfirmed (location : Coordinates.t)
| BackToSelect
| ActivityCreated
| Cancel.

(** The modal is rendered while [showCreateActivity] holds, and holds the
    screen of the current step; a callback can be called when the screen
    that was given it is rendered.  [handleCancel] is also what closes the
    modal. *)
Definition enabled (st : State) (event : Event) : bool :=
  match event with
  | Open => true
  | Cancel => showCreateActivity st
  | Continue _ _ | OpenMapPicker _ =>
      showCreateActivity st
      && match createActivityStep st with select => true | _ => false end
  | LocationConfirmed _ =>
      showCreateActivity st
      && match createActivityStep st with map => true | _ => false end
  | BackToSelect =>
      showCreateActivity st
      && match createActivityStep st with select => false | _ => true end
  | ActivityCreated =>
      showCreateActivity st
      && match createActivityStep st with confirm => true | _ => false end
  end.

Definition handle (event : Event) (st : State) : State :=
  match event with
  | Open => openCreateActivity st
  | Continue waterBody location => handleContinueToMap waterBody location st
  | OpenMapPicker currentLocation => handleOpenMapPicker currentLocation st
  | LocationConfirmed location => handleLocationConfirmed location st
  | BackToSelect => handleBackToSelect st
  | ActivityCreated => handleActivityCreated st
  | Cancel => handleCancel st
  end.

(** The states that the screen can be in. *)
Inductive reachable : State -> Prop :=
| reachable_initial : reachable initialState
| reachable_handle st event :
    reachable st -> enabled st event = true -> reachable (handle event st).

(** What the modal shows. *)
Inductive Screen :=
| NoModal
| SelectScreen (mapOverrideLocation : option Coordinates.t)
| MapScreen (initialLocation : option Coordinates.t)
| ConfirmScreen (selectedWaterBody : option WaterBody)
                (location : option Coordinates.t).

Definition screen (st : State) : Screen :=
  if showCreateActivity st then
    match createActivityStep st with
    | select => SelectScreen (mapOverrideLocation st)
    | map => MapScreen (selectedLocation st)
    | confirm => ConfirmScreen (selectedWaterBody st) (selectedLocation st)
    end
  else NoModal.

End Flow.
Arguments State : clear implicits.
Arguments Event : clear implicits.
Arguments Screen : clear implicits.

End HomeScreen.

(** ** Vocabulary of the steps *)

Module HomeSpec.
Import HomeScreen.

(** At the map step there is a location, at the confirmation step a
    water body and a location, and while the modal is closed the flow is
    at its start. *)
Definition wellFormed {WaterBody : Type} (st : State WaterBody) : Prop :=
  match createActivityStep st with
  | select => True
  | map => selectedLocation st <> None
  | confirm => selectedWaterBody st <> None /\ selectedLocation st <> None
  end /\
  (showCreateActivity st = false -> st = initialState).

End HomeSpec.

(** ** utils/unitConversion *)

Module UnitConversion.

(** [1609.34], the double nearest to it, and [1000]. *)
Definition METERS_PER_MILE : JS.number :=
  JS.div (JS.of_Z 160934) (JS.of_Z 100).

Definition METERS_PER_KILOMETER : JS.number := JS.of_Z 1000.

Inductive Units := metric | imperial.

(** [isNaN(x)] on a number. *)
Definition isNaN (x : JS.number) : bool :=
  match x with
  | S754_nan => true
  | _ => false
  end.

(** An argument may be [null] or [undefined], which [None] stands for;
    the test [x == null || isNaN(x)] is the same in the four
    conversions. *)
Definition metersToMiles (meters : option JS.number) : JS.number :=
  match meters with
  | None => JS.pos_zero
  | Some meters =>
      if isNaN meters then JS.pos_zero else JS.div meters METERS_PER_MILE
  end.

Definition metersToKilometers (meters : option JS.number) : JS.number :=
  match meters with
  | None => JS.pos_zero
  | Some meters =>
      if isNaN meters then JS.pos_zero else JS.div meters METERS_PER_KILOMETER
  end.

Definition milesToMeters (miles : option JS.number) : JS.number :=
  match miles with
  | None => JS.pos_zero
  | Some miles =>
      if isNaN miles then JS.pos_zero else JS.mul miles METERS_PER_MILE
  end.

Definition kilometersToMeters (kilometers : option JS.number) : JS.number :=
  match kilometers with
  | None => JS.pos_zero
  | Some kilometers =>
      if isNaN kilometers then JS.pos_zero
      else JS.mul kilometers METERS_PER_KILOMETER
  end.

Definition metersToUserUnit (meters : option JS.number) (units : Units)
  : JS.number :=
  match units with
  | imperial => metersToMiles meters
  | metric => metersToKilometers meters
  end.

Definition userUnitToMeters (distance : option JS.number) (units : Units)
  : JS.number :=
  match units with
  | imperial => milesToMeters distance
  | metric => kilometersToMeters distance
  end.

Definition getUnitLabel (units : Units) : string :=
  match units with
  | imperial => "mi"
  | metric => "km"
  end.

(** [formatDistance (meters, units, decimals = 2)].  The number of
    decimals is an integer, [None] when the argument is left out;
    [toFixed] throws a [RangeError] for a number of decimals that is not
    between [0] and [100], and the result is then [None]. *)
Definition formatDistance (meters : option JS.number) (units : Units)
    (decimals : option Z) : option string :=
  let decimals := match decimals with Some d => d | None => 2%Z end in
  let distance := metersToUserUnit meters units in
  let label := getUnitLabel units in
  if ((0 <=? decimals) && (decimals <=? 100))%Z
  then Some (JS.toFixed distance (Z.to_nat decimals) ++ " " ++ label)
  else None.

(** A distance that is [null], [undefined] or [NaN]. *)
Definition missing (x : option JS.number) : bool :=
  match x with
  | Some x => isNaN x
  | None => true
  end.

End UnitConversion.

(** ** Vocabulary of the runs of [handleSave] *)

Module SaveSpec.
Import Backend.

(** The requests that come before the request for the activity: none for
    a community water body; for one of OpenStreetMap the check, and after
    it the creation of the water body when the check finds no match. *)
Definition lookup (isOSM : bool) (before : list Call) : Prop :=
  if isOSM
  then (exists check, before = [CheckOsmMatch check]) \/
       (exists check create,
           before = [CheckOsmMatch check; CreateSharedWaterBody create])
  else before = [].

Definition success : Alert.t :=
  {| Alert.title := "Success";
     Alert.message := "Activity created successfully!" |}.

(** A run of [handleSave] in order: the requests of the lookup, in which
    after which either nothing more is sent and an error is shown, or the
    request for the activity is sent, last, and its answer decides
    between the success alert and an error.  Unless the water body is the
    match that a check has found, the activity is sent with the id of a
    water body.  The [loading] flag is cleared. *)
Definition orderly (api : Api) (isOSM : bool) (saved : Saved.t) : Prop :=
  Saved.loading saved = false /\
  exists before,
    lookup isOSM before /\
    ((Saved.calls saved = before /\
      Alert.title (Saved.alert saved) = "Error") \/
     exists activityData,
       Saved.calls saved = (before ++ [CreateManualActivity activityData])%list /\
       ((forall check, before <> [CheckOsmMatch check]) ->
        JS.truthy_opt_string (ActivityData.sharedWaterBodyId activityData)
        = true) /\
       match createManualActivity api activityData with
       | inr _ => Saved.alert saved = success
       | inl _ => Alert.title (Saved.alert saved) = "Error"
       end).

End SaveSpec.

(** ** Vocabulary of the distances *)

Module SymmetrySpec.

(** The sine of the engine is odd: [sin (-x) = - sin x], also on zeros,
    infinities and [NaN]. *)
Definition oddSine (M : JS.MathLibrary) : Prop :=
  forall x, JS.Math_sin M (SFopp x) = SFopp (JS.Math_sin M x).

(** Two numbers that are opposite, or both [+0]: what [x - y] and [y - x]
    are. *)
Definition mirrored (a b : JS.number) : Prop :=
  b = SFopp a \/ (a = JS.pos_zero /\ b = JS.pos_zero).

End SymmetrySpec.

Module BoundarySpec.

(** The double [999.5]. *)
Definition halfBelow1000 : JS.number := JS.div (JS.of_Z 1999) (JS.of_Z 2).

End BoundarySpec.

(** ** Sample data *)

Module Examples.
Import Backend.

(** An engine on texts that are in lower case and trimmed already. *)
Definition plainStrings : JSString.StringLibrary :=
  {| JSString.toLowerCase := fun s => s; JSString.trim := fun s => s |}.

(** A backend that finds no match, creates the water body ["W9"] and
    accepts the activity. *)
Definition accepting : Api :=
  {| checkOsmMatch := fun _ =>
       inr {| CheckData.matched := false; CheckData.sharedWaterBody := None |};
     createSharedWaterBody := fun _ =>
       inr {| CreateData.data := Some (Some "W9") |};
     createManualActivity := fun _ => inr tt |}.

(** The point of the tests of the service, and a point a thousandth of a
    degree to the north of it. *)
Definition frenchBroad : Coordinates.t :=
  {| Coordinates.latitude := DistanceSpec.frenchBroadLat;
     Coordinates.longitude := DistanceSpec.frenchBroadLon |}.

Definition northOfFrenchBroad : Coordinates.t :=
  {| Coordinates.latitude := JS.div (JS.of_Z 35887272) (JS.of_Z 1000000);
     Coordinates.longitude := DistanceSpec.frenchBroadLon |}.

(** A form with a name and nothing else, for each of the two versions of
    the confirmation screen. *)
Definition selectionForm : ConfirmSelection.Form.t :=
  {| ConfirmSelection.Form.activityName := "Morning paddle";
     ConfirmSelection.Form.notes := "";
     ConfirmSelection.Form.sectionName := "";
     ConfirmSelection.Form.waterLevel := "";
     ConfirmSelection.Form.activityDate := "2025-01-01T08:00:00.000Z";
     ConfirmSelection.Form.selectedPaddleType := "";
     ConfirmSelection.Form.photoData := None |}.

Definition resultForm : ConfirmSearchResult.Form.t :=
  {| ConfirmSearchResult.Form.activityName := "Morning paddle";
     ConfirmSearchResult.Form.notes := "";
     ConfirmSearchResult.Form.sectionName := "";
     ConfirmSearchResult.Form.waterLevel := "";
     ConfirmSearchResult.Form.activityDate := "2025-01-01T08:00:00.000Z";
     ConfirmSearchResult.Form.selectedPaddleType := "" |}.

(** The candidates of the tests of the service: a section of the French
    Broad River, a hundred meters away, and a river of OpenStreetMap, five
    kilometres away. *)
Definition upperSection : CandidateSearch.Candidate.t :=
  {| CandidateSearch.Candidate.waterBodyId := Some "wb-123";
     CandidateSearch.Candidate.sharedWaterBodyId := None;
     CandidateSearch.Candidate.sectionId := Some "section-456";
     CandidateSearch.Candidate.sectionName := Some "Upper Section";
     CandidateSearch.Candidate.section := None;
     CandidateSearch.Candidate.name := "French Broad River";
     CandidateSearch.Candidate.coordinates :=
       Some [DistanceSpec.frenchBroadLon; DistanceSpec.frenchBroadLat];
     CandidateSearch.Candidate.sectionCoordinates := None;
     CandidateSearch.Candidate.osmId := None;
     CandidateSearch.Candidate.osmType := None;
     CandidateSearch.Candidate.distance := Some (JS.of_Z 100) |}.

Definition nolichucky : CandidateSearch.Candidate.t :=
  {| CandidateSearch.Candidate.waterBodyId := None;
     CandidateSearch.Candidate.sharedWaterBodyId := None;
     CandidateSearch.Candidate.sectionId := None;
     CandidateSearch.Candidate.sectionName := None;
     CandidateSearch.Candidate.section := None;
     CandidateSearch.Candidate.name := "Nolichucky River";
     CandidateSearch.Candidate.coordinates := None;
     CandidateSearch.Candidate.sectionCoordinates := None;
     CandidateSearch.Candidate.osmId := Some "456";
     CandidateSearch.Candidate.osmType := Some "way";
     CandidateSearch.Candidate.distance := Some (JS.of_Z 5000) |}.

(** Two water bodies as the search by name answers with them: one without
    distance, and one five meters away. *)
Definition unmeasured : CandidateSearch.Candidate.t :=
  {| CandidateSearch.Candidate.waterBodyId := None;
     CandidateSearch.Candidate.sharedWaterBodyId := Some "wb-1";
     CandidateSearch.Candidate.sectionId := None;
     CandidateSearch.Candidate.sectionName := None;
     CandidateSearch.Candidate.section := None;
     CandidateSearch.Candidate.name := "Lake James";
     CandidateSearch.Candidate.coordinates := None;
     CandidateSearch.Candidate.sectionCoordinates := None;
     CandidateSearch.Candidate.osmId := None;
     CandidateSearch.Candidate.osmType := None;
     CandidateSearch.Candidate.distance := None |}.

Definition fiveMetersAway : CandidateSearch.Candidate.t :=
  {| CandidateSearch.Candidate.waterBodyId := None;
     CandidateSearch.Candidate.sharedWaterBodyId := Some "wb-2";
     CandidateSearch.Candidate.sectionId := None;
     CandidateSearch.Candidate.sectionName := None;
     CandidateSearch.Candidate.section := None;
     CandidateSearch.Candidate.name := "Lake Lure";
     CandidateSearch.Candidate.coordinates := None;
     CandidateSearch.Candidate.sectionCoordinates := None;
     CandidateSearch.Candidate.osmId := None;
     CandidateSearch.Candidate.osmType := None;
     CandidateSearch.Candidate.distance := Some (JS.of_Z 5) |}.

(** The answer of the backend with the farther candidate first. *)
Definition answer : CandidateSearch.ResponseData.t :=
  {| CandidateSearch.ResponseData.waterBodies := Some [nolichucky; upperSection];
     CandidateSearch.ResponseData.osmStatus := None |}.

(** A lake with one section, for the search around a location, and a
    backend that answers with it. *)
Definition lakeSection : NearbySearch.SharedWaterBodySection.t :=
  {| NearbySearch.SharedWaterBodySection._id := "S1";
     NearbySearch.SharedWaterBodySection.sharedWaterBody := "W1";
     NearbySearch.SharedWaterBodySection.sectionName := "North Shore";
     NearbySearch.SharedWaterBodySection.location :=
       {| NearbySearch.Location.type := "Point";
          NearbySearch.Location.coordinates :=
            (DistanceSpec.frenchBroadLon, DistanceSpec.frenchBroadLat) |} |}.

Definition lake : NearbySearch.SharedWaterBody.t :=
  {| NearbySearch.SharedWaterBody._id := "W1";
     NearbySearch.SharedWaterBody.name := "lake james";
     NearbySearch.SharedWaterBody.alternateNames := None;
     NearbySearch.SharedWaterBody.location :=
       {| NearbySearch.Location.type := "Point";
          NearbySearch.Location.coordinates :=
            (DistanceSpec.frenchBroadLon, DistanceSpec.frenchBroadLat) |};
     NearbySearch.SharedWaterBody.sections := Some [lakeSection] |}.

Definition nearbyLake (params : NearbySearch.Params.t)
  : Failure.t + option (list NearbySearch.SharedWaterBody.t) :=
  inr (Some [lake]).

(** The creation of an activity once it has been opened and a water body
    has been chosen at the sample location. *)
Definition chosen : HomeScreen.State string :=
  HomeScreen.handle (HomeScreen.Continue "W1" frenchBroad)
                    (HomeScreen.handle HomeScreen.Open HomeScreen.initialState).

End Examples.


(** * Properties *)

(** ** Lists of keys *)

Section FirstSeen.
Import GroupingSpec.

Lemma firstSeen_In (k : string) (ks : list string) :
  In k (firstSeen ks) <-> In k ks.
Proof.
  induction ks as [|a ks IH]; simpl; [tauto|].
  rewrite filter_In, IH, negb_true_iff, String.eqb_neq.
  destruct (string_dec a k) as [->|Hne]; [tauto|].
  split; [tauto|]. intros [H|H]; [tauto|]. right. split; congruence.
Qed.

Lemma firstSeen_NoDup (ks : list string) : NoDup (firstSeen ks).
Proof.
  induction ks as [|a ks IH]; simpl; constructor.
  - rewrite filter_In, negb_true_iff, String.eqb_neq. tauto.
  - now apply NoDup_filter.
Qed.

Lemma firstSeen_snoc (ks : list string) (k : string) :
  firstSeen (ks ++ [k]) =
  if existsb (String.eqb k) ks then firstSeen ks else (firstSeen ks ++ [k])%list.
Proof.
  induction ks as [|a ks IH]; simpl; [reflexivity|].
  rewrite IH. destruct (String.eqb_spec k a) as [->|Hne]; simpl.
  - destruct (existsb (String.eqb a) ks); [reflexivity|].
    rewrite filter_app; simpl. rewrite String.eqb_refl; simpl.
    now rewrite app_nil_r.
  - destruct (existsb (String.eqb k) ks); [reflexivity|].
    rewrite filter_app; simpl.
    destruct (String.eqb_spec k a); [congruence|reflexivity].
Qed.

Lemma existsb_eqb_In (k : string) (ks : list string) :
  existsb (String.eqb k) ks = true <-> In k ks.
Proof.
  rewrite existsb_exists. split.
  - intros [x [Hin Heq]]. apply String.eqb_eq in Heq. now subst.
  - intros Hin. exists k. split; [assumption|apply String.eqb_refl].
Qed.

(** The number of distinct elements does not depend on which occurrence
    is kept. *)
Lemma firstSeen_length (ks : list string) :
  List.length (firstSeen ks) = List.length (nodup string_dec ks).
Proof.
  apply Permutation_length, NoDup_Permutation.
  - apply firstSeen_NoDup.
  - apply NoDup_nodup.
  - intros k. now rewrite firstSeen_In, nodup_In.
Qed.

End FirstSeen.

(** ** The insertion-ordered map *)

Section StringMapFacts.
Context {V : Type}.
Implicit Types (m : StringMap.t V) (k : string) (ks : list string).

Lemma has_tabulate (F : string -> V) ks k :
  StringMap.has (map (fun k' => (k', F k')) ks) k = existsb (String.eqb k) ks.
Proof.
  induction ks as [|a ks IH]; simpl; [reflexivity|].
  rewrite IH, (String.eqb_sym k a). now destruct (a =? k).
Qed.

Lemma set_fresh m k (v : V) :
  StringMap.has m k = false -> StringMap.set m k v = (m ++ [(k, v)])%list.
Proof.
  induction m as [|[k' v'] m IH]; simpl; [reflexivity|].
  destruct (k' =? k); [discriminate|]. intros H. now rewrite IH.
Qed.

Lemma modify_fresh_app m m' k (f : V -> V) :
  StringMap.has m k = false ->
  StringMap.modify (m ++ m')%list k f = (m ++ StringMap.modify m' k f)%list.
Proof.
  induction m as [|[k' v'] m IH]; simpl; [reflexivity|].
  destruct (k' =? k); [discriminate|]. intros H. now rewrite IH.
Qed.

Lemma modify_fresh m k (f : V -> V) :
  StringMap.has m k = false -> StringMap.modify m k f = m.
Proof.
  induction m as [|[k' v'] m IH]; simpl; [reflexivity|].
  destruct (k' =? k); [discriminate|]. intros H. now rewrite IH.
Qed.

Lemma modify_tabulate (F : string -> V) ks k (f : V -> V) :
  NoDup ks ->
  StringMap.modify (map (fun k' => (k', F k')) ks) k f =
  map (fun k' => (k', if k' =? k then f (F k') else F k')) ks.
Proof.
  induction 1 as [|a ks Hnotin Hnodup IH]; simpl; [reflexivity|].
  destruct (String.eqb_spec a k) as [->|Hne].
  - f_equal. apply map_ext_in. intros k' Hin.
    destruct (String.eqb_spec k' k); [congruence|reflexivity].
  - now rewrite IH.
Qed.

End StringMapFacts.

(** ** The grouper in closed form *)

Section Grouping.
Import WaterBodySearchResult WaterBodyGrouping GroupingSpec.
Implicit Types (c : WaterBodySearchResult.t) (l : list WaterBodySearchResult.t).
Implicit Types (k : string) (showOSM : bool).

Lemma communityIds_app l l' :
  communityIds (l ++ l') = (communityIds l ++ communityIds l')%list.
Proof. apply flat_map_app. Qed.

Lemma belongsTo_key c k :
  groupingKey c = Some k -> forall k', belongsTo k' c = (k =? k').
Proof. intros H k'. unfold belongsTo. now rewrite H. Qed.

Lemma belongsTo_no_key c :
  groupingKey c = None -> forall k', belongsTo k' c = false.
Proof. intros H k'. unfold belongsTo. now rewrite H. Qed.

Lemma members_In l k :
  In k (communityIds l) <-> filter (belongsTo k) l <> [].
Proof.
  induction l as [|c l IH]; simpl; [tauto|].
  rewrite in_app_iff, IH. unfold belongsTo at 2.
  destruct (groupingKey c) as [k'|]; simpl.
  - destruct (String.eqb_spec k' k) as [->|Hne].
    + split; [discriminate|auto].
    + tauto.
  - tauto.
Qed.

Lemma members_not_In l k :
  ~ In k (communityIds l) -> filter (belongsTo k) l = [].
Proof.
  intros H. destruct (filter (belongsTo k) l) eqn:E; [reflexivity|].
  exfalso. apply H, members_In. now rewrite E.
Qed.

Lemma sectionOf_entry c s :
  sectionName c = Some s -> JS.truthy_string s = true ->
  sectionOf c s = sectionEntry c.
Proof.
  intros Hs Ht. unfold sectionOf, sectionEntry. rewrite Hs. simpl.
  now rewrite Ht.
Qed.

Lemma groupOf_snoc_other l c k :
  belongsTo k c = false -> groupOf (l ++ [c]) k = groupOf l k.
Proof.
  intros H. unfold groupOf. rewrite filter_app. simpl. rewrite H.
  now rewrite app_nil_r.
Qed.

Lemma groupOf_snoc_first l c k :
  belongsTo k c = true -> filter (belongsTo k) l = [] ->
  groupOf (l ++ [c]) k =
  if hasSectionName c then pushSection (sectionEntry c) (newGroup k c)
  else newGroup k c.
Proof.
  intros H E. unfold groupOf. rewrite filter_app. simpl. rewrite H, E. simpl.
  now destruct (hasSectionName c).
Qed.

Lemma groupOf_snoc_next l c k :
  belongsTo k c = true -> filter (belongsTo k) l <> [] ->
  groupOf (l ++ [c]) k =
  if hasSectionName c then pushSection (sectionEntry c) (groupOf l k)
  else groupOf l k.
Proof.
  intros H E. unfold groupOf. rewrite filter_app.
  rewrite (filter_app hasSectionName), map_app.
  destruct (filter (belongsTo k) l) as [|c0 ms]; [congruence|].
  simpl. rewrite H. simpl.
  destruct (hasSectionName c); simpl; [reflexivity|].
  now rewrite !app_nil_r.
Qed.

Lemma groupsOf_snoc_no_key l c :
  groupingKey c = None -> groupsOf (l ++ [c]) = groupsOf l.
Proof.
  intros H. unfold groupsOf. rewrite communityIds_app. simpl. rewrite H.
  simpl. rewrite app_nil_r. apply map_ext. intros k. f_equal.
  apply groupOf_snoc_other. now apply belongsTo_no_key.
Qed.

Lemma groupsOf_snoc_first l c k :
  groupingKey c = Some k -> ~ In k (communityIds l) ->
  groupsOf (l ++ [c]) =
  (groupsOf l ++
   [(k, if hasSectionName c then pushSection (sectionEntry c) (newGroup k c)
        else newGroup k c)])%list.
Proof.
  intros H Hnotin. unfold groupsOf. rewrite communityIds_app. simpl.
  rewrite H. simpl. rewrite firstSeen_snoc.
  destruct (existsb (String.eqb k) (communityIds l)) eqn:E.
  { apply existsb_eqb_In in E. contradiction. }
  rewrite map_app. simpl. f_equal.
  - apply map_ext_in. intros k' Hin. f_equal. apply groupOf_snoc_other.
    rewrite (belongsTo_key _ _ H). apply String.eqb_neq. intros ->.
    apply Hnotin. now apply firstSeen_In.
  - f_equal. f_equal. apply groupOf_snoc_first.
    + rewrite (belongsTo_key _ _ H). apply String.eqb_refl.
    + now apply members_not_In.
Qed.

Lemma groupsOf_snoc_next l c k :
  groupingKey c = Some k -> In k (communityIds l) ->
  groupsOf (l ++ [c]) =
  map (fun k' => (k', if k' =? k
                      then (if hasSectionName c
                            then pushSection (sectionEntry c) (groupOf l k')
                            else groupOf l k')
                      else groupOf l k'))
      (firstSeen (communityIds l)).
Proof.
  intros H Hin. unfold groupsOf. rewrite communityIds_app. simpl.
  rewrite H. simpl. rewrite firstSeen_snoc.
  apply existsb_eqb_In in Hin as E. rewrite E.
  apply map_ext. intros k'. f_equal.
  destruct (String.eqb_spec k' k) as [->|Hne].
  - apply groupOf_snoc_next.
    + rewrite (belongsTo_key _ _ H). apply String.eqb_refl.
    + now apply members_In.
  - apply groupOf_snoc_other. rewrite (belongsTo_key _ _ H).
    apply String.eqb_neq. congruence.
Qed.

Lemma osmOf_snoc showOSM l c :
  osmOf showOSM (l ++ [c]) =
  if isOSM c && negb showOSM then osmOf showOSM l
  else if isOSM c then (osmOf showOSM l ++ [c])%list
  else osmOf showOSM l.
Proof.
  unfold osmOf. destruct showOSM; simpl.
  - rewrite andb_false_r, filter_app. simpl.
    destruct (isOSM c); [reflexivity|apply app_nil_r].
  - rewrite andb_true_r. now destruct (isOSM c).
Qed.

(** One iteration takes the closed form of a prefix to the closed form of
    the prefix extended by the candidate. *)
Lemma step_closed_form showOSM l c :
  step showOSM (groupsOf l, osmOf showOSM l) c =
  (groupsOf (l ++ [c]), osmOf showOSM (l ++ [c])).
Proof.
  rewrite osmOf_snoc. unfold step.
  destruct (isOSM c) eqn:Hosm.
  { assert (Hk : groupingKey c = None) by (unfold groupingKey; now rewrite Hosm).
    rewrite (groupsOf_snoc_no_key _ _ Hk).
    now destruct (negb showOSM). }
  simpl.
  destruct (sharedWaterBodyId c) as [k|] eqn:Hid.
  2:{ assert (Hk : groupingKey c = None)
        by (unfold groupingKey; now rewrite Hosm, Hid).
      now rewrite (groupsOf_snoc_no_key _ _ Hk). }
  destruct (JS.truthy_string k) eqn:Hk; simpl.
  2:{ assert (Hk' : groupingKey c = None)
        by (unfold groupingKey; now rewrite Hosm, Hid, Hk).
      now rewrite (groupsOf_snoc_no_key _ _ Hk'). }
  assert (Hkey : groupingKey c = Some k)
    by (unfold groupingKey; now rewrite Hosm, Hid, Hk).
  assert (Hhas : StringMap.has (groupsOf l) k =
                 existsb (String.eqb k) (communityIds l)).
  { unfold groupsOf. rewrite has_tabulate.
    destruct (existsb (String.eqb k) (communityIds l)) eqn:E.
    - apply existsb_eqb_In. apply firstSeen_In. now apply existsb_eqb_In.
    - destruct (existsb (String.eqb k) (firstSeen (communityIds l))) eqn:E';
        [|reflexivity].
      apply (proj1 (existsb_eqb_In _ _)), (proj1 (firstSeen_In _ _)) in E'.
      apply (proj2 (existsb_eqb_In _ _)) in E'. congruence. }
  destruct (StringMap.has (groupsOf l) k) eqn:Hh; simpl.
  - (* a later candidate of a known water body *)
    symmetry in Hhas. apply existsb_eqb_In in Hhas.
    rewrite (groupsOf_snoc_next _ _ _ Hkey Hhas).
    unfold hasSectionName, JS.truthy_opt_string.
    destruct (sectionName c) as [s|] eqn:Hs.
    + destruct (JS.truthy_string s) eqn:Ht.
      * f_equal. unfold groupsOf at 1.
        rewrite modify_tabulate by apply firstSeen_NoDup.
        now rewrite (sectionOf_entry _ _ Hs Ht).
      * f_equal. unfold groupsOf. apply map_ext. intros k'.
        now destruct (k' =? k).
    + f_equal. unfold groupsOf. apply map_ext. intros k'.
      now destruct (k' =? k).
  - (* the first candidate of a water body *)
    assert (Hnotin : ~ In k (communityIds l)).
    { intros Hin. apply existsb_eqb_In in Hin. congruence. }
    rewrite (groupsOf_snoc_first _ _ _ Hkey Hnotin).
    rewrite (set_fresh _ _ _ Hh).
    unfold hasSectionName, JS.truthy_opt_string.
    destruct (sectionName c) as [s|] eqn:Hs.
    + destruct (JS.truthy_string s) eqn:Ht; [|reflexivity].
      f_equal. rewrite (modify_fresh_app _ _ _ _ Hh). simpl.
      rewrite String.eqb_refl. now rewrite (sectionOf_entry _ _ Hs Ht).
    + reflexivity.
Qed.

Lemma loop_closed_form showOSM l :
  fold_left (step showOSM) l (StringMap.empty, []) =
  (groupsOf l, osmOf showOSM l).
Proof.
  induction l as [|c l IH] using rev_ind.
  - simpl. unfold osmOf. now destruct showOSM.
  - rewrite fold_left_app. simpl. rewrite IH. apply step_closed_form.
Qed.

Lemma getGroupedCandidates_closed_form l showOSM :
  getGroupedCandidates l showOSM =
  {| GroupedCandidatesResult.groups :=
       map (groupOf l) (firstSeen (communityIds l));
     GroupedCandidatesResult.osmCandidates := osmOf showOSM l |}.
Proof.
  unfold getGroupedCandidates. rewrite loop_closed_form.
  unfold StringMap.values, groupsOf. now rewrite map_map.
Qed.

End Grouping.

(** ** The grouper: theorems *)

Section GroupingClaims.
Import WaterBodySearchResult WaterBodyGrouping GroupingSpec.
Import GroupedCandidatesResult.
Implicit Types (c : WaterBodySearchResult.t) (l : list WaterBodySearchResult.t).
Implicit Types (k : string) (showOSM : bool) (g : GroupedWaterBody.t).

Lemma filter_filter_andb {A : Type} (f h : A -> bool) (xs : list A) :
  filter h (filter f xs) = filter (fun x => f x && h x) xs.
Proof.
  induction xs as [|x xs IH]; simpl; [reflexivity|].
  destruct (f x); simpl; [|assumption].
  destruct (h x); now rewrite IH.
Qed.

Lemma find_filter {A : Type} (f : A -> bool) (xs : list A) :
  find f xs = hd_error (filter f xs).
Proof.
  induction xs as [|x xs IH]; simpl; [reflexivity|].
  now destruct (f x).
Qed.

Lemma firstSeen_app (ks ks' : list string) :
  exists rest, firstSeen (ks ++ ks') = (firstSeen ks ++ rest)%list.
Proof.
  induction ks' as [|k ks' IH] using rev_ind.
  - exists []. now rewrite !app_nil_r.
  - destruct IH as [rest IH]. rewrite app_assoc, firstSeen_snoc, IH.
    destruct (existsb (String.eqb k) (ks ++ ks')).
    + now exists rest.
    + exists (rest ++ [k])%list. now rewrite app_assoc.
Qed.

Lemma In_groups l showOSM g :
  In g (groups (getGroupedCandidates l showOSM)) <->
  exists k, In k (communityIds l) /\ g = groupOf l k.
Proof.
  rewrite getGroupedCandidates_closed_form. simpl. rewrite in_map_iff.
  split; intros [k [H1 H2]]; exists k.
  - split; [now apply firstSeen_In|now symmetry].
  - split; [now symmetry|now apply firstSeen_In].
Qed.

(** C4.  With [showOSM = false] the list of OSM candidates is empty
    whatever the input holds; with [showOSM = true] it is the subsequence
    of the OSM candidates of the input, in input order and without any
    de-duplication. *)
Theorem osmCandidates_toggle l :
  osmCandidates (getGroupedCandidates l false) = [] /\
  osmCandidates (getGroupedCandidates l true) = filter isOSM l.
Proof. now rewrite !getGroupedCandidates_closed_form. Qed.

(** C10.  The groups do not depend on the [showOSM] flag. *)
Theorem groups_independent_of_showOSM l :
  groups (getGroupedCandidates l true) = groups (getGroupedCandidates l false).
Proof. now rewrite !getGroupedCandidates_closed_form. Qed.

(** C2.  The ids of the groups are the distinct water-body ids of the
    community candidates, each once, in the order in which they are first
    seen in the input; so there are as many groups as distinct ids. *)
Theorem groups_one_per_distinct_id l showOSM :
  map GroupedWaterBody.waterBodyId (groups (getGroupedCandidates l showOSM)) =
  firstSeen (communityIds l) /\
  NoDup (map GroupedWaterBody.waterBodyId
             (groups (getGroupedCandidates l showOSM))) /\
  List.length (groups (getGroupedCandidates l showOSM)) =
  List.length (nodup string_dec (communityIds l)).
Proof.
  rewrite getGroupedCandidates_closed_form. simpl.
  assert (E : map GroupedWaterBody.waterBodyId
                (map (groupOf l) (firstSeen (communityIds l))) =
              firstSeen (communityIds l)).
  { rewrite map_map. simpl. apply map_id. }
  rewrite E. split; [reflexivity|]. split; [apply firstSeen_NoDup|].
  rewrite length_map. apply firstSeen_length.
Qed.

(** C5.  The sections of a group are the section entries of the community
    candidates of its water body that have a section name, one entry per
    candidate and in input order; equal names are kept apart and a
    candidate without section name adds nothing. *)
Theorem sections_follow_input_order l showOSM g :
  In g (groups (getGroupedCandidates l showOSM)) ->
  GroupedWaterBody.sections g =
  map sectionEntry
      (filter (fun c => belongsTo (GroupedWaterBody.waterBodyId g) c
                        && hasSectionName c) l).
Proof.
  intros H. apply In_groups in H as [k [_ ->]]. simpl.
  now rewrite filter_filter_andb.
Qed.

Lemma sections_follow_input_order_witness :
  exists g,
    In g (groups (getGroupedCandidates Samples.mixed true)) /\
    GroupedWaterBody.sections g =
    map sectionEntry
        (filter (fun c => belongsTo (GroupedWaterBody.waterBodyId g) c
                          && hasSectionName c) Samples.mixed) /\
    map SectionEntry.sectionName (GroupedWaterBody.sections g) =
    ["Upper"; "Lower"].
Proof.
  eexists. split; [left; reflexivity|]. split.
  - apply (sections_follow_input_order Samples.mixed true). left. reflexivity.
  - reflexivity.
Defined.

(** C6.  A community candidate of water body [k] with a section name and
    no section id still gets a section entry, whose id is the empty string
    and whose index is that of the candidate, [0] when it has none; and a
    community candidate without water-body id is skipped: the result is
    the one computed without it. *)
Theorem legacy_section_kept_and_missing_id_skipped :
  (forall l showOSM c k s,
      In c l -> groupingKey c = Some k ->
      sectionName c = Some s -> JS.truthy_string s = true ->
      hasSectionId c = false ->
      exists g,
        In g (groups (getGroupedCandidates l showOSM)) /\
        GroupedWaterBody.waterBodyId g = k /\
        In {| SectionEntry.sectionIndex :=
                JS.number_or (sectionIndex c) JS.pos_zero;
              SectionEntry.sectionId := "";
              SectionEntry.sectionName := s;
              SectionEntry.candidate := c |}
           (GroupedWaterBody.sections g) /\
        (sectionIndex c = None ->
         JS.number_or (sectionIndex c) JS.pos_zero = JS.pos_zero)) /\
  (forall l l' showOSM c,
      isOSM c = false ->
      JS.truthy_opt_string (sharedWaterBodyId c) = false ->
      getGroupedCandidates (l ++ c :: l') showOSM =
      getGroupedCandidates (l ++ l') showOSM).
Proof.
  split.
  - intros l showOSM c k s Hin Hkey Hs Ht Hid.
    exists (groupOf l k). split; [|split; [reflexivity|split]].
    + apply In_groups. exists k. split; [|reflexivity].
      unfold communityIds. apply in_flat_map. exists c.
      rewrite Hkey. split; [assumption|now left].
    + simpl. rewrite filter_filter_andb.
      replace {| SectionEntry.sectionIndex :=
                   JS.number_or (sectionIndex c) JS.pos_zero;
                 SectionEntry.sectionId := "";
                 SectionEntry.sectionName := s;
                 SectionEntry.candidate := c |}
        with (sectionEntry c).
      * apply in_map, filter_In. split; [assumption|].
        rewrite (belongsTo_key _ _ Hkey), String.eqb_refl.
        unfold hasSectionName. now rewrite Hs.
      * unfold sectionEntry, hasSectionId, JS.truthy_opt_string in *.
        rewrite Hs. unfold JS.string_or. rewrite Ht.
        destruct (sectionId c) as [i|]; [now rewrite Hid|reflexivity].
    + intros ->. reflexivity.
  - intros l l' showOSM c Hosm Hid.
    unfold getGroupedCandidates. rewrite !fold_left_app. simpl.
    replace (step showOSM (fold_left (step showOSM) l (StringMap.empty, [])) c)
      with (fold_left (step showOSM) l (StringMap.empty, [])); [reflexivity|].
    destruct (fold_left (step showOSM) l (StringMap.empty, [])) as [gs os].
    unfold step. rewrite Hosm. simpl. unfold JS.truthy_opt_string in Hid.
    destruct (sharedWaterBodyId c); [now rewrite Hid|reflexivity].
Qed.

Lemma legacy_section_kept_and_missing_id_skipped_witness :
  (exists g,
      In g (groups (getGroupedCandidates [Samples.upper; Samples.legacy] true)) /\
      GroupedWaterBody.waterBodyId g = "W2" /\
      In {| SectionEntry.sectionIndex := JS.pos_zero;
            SectionEntry.sectionId := "";
            SectionEntry.sectionName := "Legacy Section";
            SectionEntry.candidate := Samples.legacy |}
         (GroupedWaterBody.sections g) /\
      (sectionIndex Samples.legacy = None ->
       JS.number_or (sectionIndex Samples.legacy) JS.pos_zero = JS.pos_zero)) /\
  getGroupedCandidates ([Samples.upper] ++ Samples.invalid :: [Samples.lower]) true =
  getGroupedCandidates ([Samples.upper] ++ [Samples.lower]) true.
Proof.
  split.
  - apply (proj1 legacy_section_kept_and_missing_id_skipped
             [Samples.upper; Samples.legacy] true Samples.legacy
             "W2" "Legacy Section");
      solve [reflexivity | right; left; reflexivity].
  - apply (proj2 legacy_section_kept_and_missing_id_skipped
             [Samples.upper] [Samples.lower] true Samples.invalid);
      reflexivity.
Defined.

(** C7.  The name, type and distance of a group are those of the first
    candidate of its water body in the input.  The candidates that come
    later leave them as they are: the headers of the groups of a prefix of
    the input are a prefix of the headers of the groups of the input, and
    a group of the prefix is found again with the same header and with
    sections added at the end, if any. *)
Theorem header_from_first_candidate :
  (forall l showOSM g,
      In g (groups (getGroupedCandidates l showOSM)) ->
      exists c,
        find (belongsTo (GroupedWaterBody.waterBodyId g)) l = Some c /\
        GroupedWaterBody.name g = name c /\
        GroupedWaterBody.type g = type c /\
        GroupedWaterBody.distance g = distance c) /\
  (forall l l' showOSM,
      exists rest,
        map header (groups (getGroupedCandidates (l ++ l') showOSM)) =
        (map header (groups (getGroupedCandidates l showOSM)) ++ rest)%list) /\
  (forall l l' showOSM g,
      In g (groups (getGroupedCandidates l showOSM)) ->
      exists g' more,
        In g' (groups (getGroupedCandidates (l ++ l') showOSM)) /\
        header g' = header g /\
        GroupedWaterBody.sections g' =
        (GroupedWaterBody.sections g ++ more)%list).
Proof.
  split; [|split].
  - intros l showOSM g H. apply In_groups in H as [k [Hin ->]].
    apply members_In in Hin. rewrite find_filter. unfold groupOf. simpl.
    destruct (filter (belongsTo k) l) as [|c ms]; [congruence|].
    exists c. simpl. auto.
  - intros l l' showOSM. rewrite !getGroupedCandidates_closed_form. simpl.
    rewrite communityIds_app.
    destruct (firstSeen_app (communityIds l) (communityIds l')) as [rest ->].
    rewrite !map_app, !map_map.
    exists (map (fun k => header (groupOf (l ++ l') k)) rest).
    f_equal. apply map_ext_in. intros k Hin.
    apply firstSeen_In, members_In in Hin.
    unfold header, groupOf. simpl. rewrite filter_app.
    destruct (filter (belongsTo k) l) as [|c ms]; [congruence|reflexivity].
  - intros l l' showOSM g H. apply In_groups in H as [k [Hin ->]].
    exists (groupOf (l ++ l') k),
           (map sectionEntry (filter hasSectionName (filter (belongsTo k) l'))).
    split; [|split].
    + apply In_groups. exists k. split; [|reflexivity].
      rewrite communityIds_app. apply in_or_app. now left.
    + apply members_In in Hin. unfold header, groupOf. simpl.
      rewrite filter_app.
      destruct (filter (belongsTo k) l) as [|c ms]; [congruence|reflexivity].
    + unfold groupOf. simpl. now rewrite !filter_app, map_app.
Qed.

Lemma header_from_first_candidate_witness :
  exists g c,
    In g (groups (getGroupedCandidates Samples.mixed true)) /\
    find (belongsTo (GroupedWaterBody.waterBodyId g)) Samples.mixed = Some c /\
    GroupedWaterBody.name g = name c /\
    GroupedWaterBody.type g = type c /\
    GroupedWaterBody.distance g = distance c.
Proof.
  exists (groupOf Samples.mixed "W1").
  assert (H : In (groupOf Samples.mixed "W1")
                 (groups (getGroupedCandidates Samples.mixed true)))
    by (left; reflexivity).
  destruct (proj1 header_from_first_candidate Samples.mixed true _ H)
    as [c Hc].
  exists c. split; [exact H|exact Hc].
Defined.

End GroupingClaims.

(** ** The selection list: theorems *)

Section DisplayClaims.
Import WaterBodySelectionList DisplaySpec.

Lemma nth_error_map_CommunityCard gs i card :
  nth_error (map CommunityCard gs) i = Some card -> isCommunityCard card = true.
Proof.
  rewrite nth_error_map. destruct (nth_error gs i); simpl; [|discriminate].
  now intros [= <-].
Qed.

Lemma nth_error_mapi_OSMCard os start i card :
  nth_error (mapi OSMCard start os) i = Some card -> isCommunityCard card = false.
Proof.
  revert start i. induction os as [|c os IH]; intros start [|i]; simpl;
    try discriminate.
  - now intros [= <-].
  - apply IH.
Qed.

(** C1.  Whatever the candidates and their distances, and whatever the
    toggle, every community group is laid out before every OSM
    candidate. *)
Theorem community_groups_before_osm_candidates candidates showOSM cards :
  render candidates showOSM = Cards cards ->
  before isCommunityCard isOSMCard cards.
Proof.
  unfold render, renderResults.
  destruct (_ =? 0)%nat; [discriminate|]. intros [= <-].
  intros i j x y Hi Hj Hx Hy.
  assert (Hy' : isCommunityCard y = false) by now destruct y.
  clear Hy. rename Hy' into Hy.
  set (gs := GroupedCandidatesResult.groups _) in *.
  set (os := GroupedCandidatesResult.osmCandidates _) in *.
  destruct (Nat.lt_ge_cases i (List.length (map CommunityCard gs))) as [Hlt|Hge].
  - destruct (Nat.lt_ge_cases j (List.length (map CommunityCard gs))) as [Hlt'|Hge'].
    + rewrite nth_error_app1 in Hj by assumption.
      apply nth_error_map_CommunityCard in Hj. congruence.
    + lia.
  - rewrite nth_error_app2 in Hi by assumption.
    apply nth_error_mapi_OSMCard in Hi. congruence.
Qed.

Lemma community_groups_before_osm_candidates_witness :
  exists g,
    render Samples.closerFirst true =
    Cards [CommunityCard g; OSMCard 0 Samples.osmLake] /\
    JS.lt (JS.of_Z 100) (JS.of_Z 500) = true /\
    before isCommunityCard isOSMCard
           [CommunityCard g; OSMCard 0 Samples.osmLake].
Proof.
  eexists. split; [reflexivity|]. split; [reflexivity|].
  apply (community_groups_before_osm_candidates Samples.closerFirst true).
  reflexivity.
Defined.

End DisplayClaims.

(** ** The distance sort: theorems *)

Section ArraySortFacts.
Context {A : Type}.
Variable comparefn : A -> A -> JS.number.

Lemma insert_Permutation (x : A) (l : list A) :
  Permutation (x :: l) (JS.insert comparefn x l).
Proof.
  induction l as [|y l IH]; simpl; [reflexivity|].
  destruct (JS.sorts_after comparefn x y); [|reflexivity].
  rewrite perm_swap. now apply perm_skip.
Qed.

Lemma sort_Permutation (l : list A) : Permutation l (JS.sort comparefn l).
Proof.
  induction l as [|x l IH]; simpl; [reflexivity|].
  rewrite <- insert_Permutation. now apply perm_skip.
Qed.

Lemma Forall_insert (S : A -> Prop) (a : A) (l : list A) :
  S a -> Forall S l -> Forall S (JS.insert comparefn a l).
Proof.
  intros Ha Hl. apply (Permutation_Forall (insert_Permutation a l)).
  now constructor.
Qed.

Lemma In_insert (x y : A) (l : list A) :
  In y (JS.insert comparefn x l) <-> y = x \/ In y l.
Proof.
  split.
  - intros H.
    apply (Permutation_in _ (Permutation_sym (insert_Permutation x l))) in H.
    destruct H as [<-|H]; auto.
  - intros H. apply (Permutation_in _ (insert_Permutation x l)).
    destruct H as [->|H]; [now left|now right].
Qed.

Lemma filter_all (P : A -> bool) (l : list A) :
  Forall (fun x => P x = true) l -> filter P l = l.
Proof.
  induction 1 as [|x l Hx Hl IH]; simpl; [reflexivity|].
  now rewrite Hx, IH.
Qed.

End ArraySortFacts.

(** *** Consistent comparison functions *)

Section ConsistentFacts.
Import JS.
Context {A : Type}.
Variable comparefn : A -> A -> number.
Variable l : list A.
Hypothesis C : consistent comparefn l.

Lemma trichotomy (a b : A) :
  In a l -> In b l ->
  (lessCF comparefn a b = true /\ equalCF comparefn a b = false /\
   greaterCF comparefn a b = false) \/
  (lessCF comparefn a b = false /\ equalCF comparefn a b = true /\
   greaterCF comparefn a b = false) \/
  (lessCF comparefn a b = false /\ equalCF comparefn a b = false /\
   greaterCF comparefn a b = true).
Proof.
  intros Ha Hb. pose proof (neverNaN _ _ C a b Ha Hb) as N.
  unfold lessCF, equalCF, greaterCF.
  destruct (comparefn a b) as [[|]|[|]| |[|] m e]; try contradiction; auto.
Qed.

Lemma greater_less (a b : A) :
  In a l -> In b l ->
  greaterCF comparefn a b = true -> lessCF comparefn b a = true.
Proof.
  intros Ha Hb G.
  destruct (trichotomy b a Hb Ha) as [[L _]|[[_ [E _]]|[_ [_ G']]]];
    [exact L| |].
  - apply (equalSymmetric _ _ C) in E; [|assumption..].
    destruct (trichotomy a b Ha Hb) as [[_ [_ F]]|[[_ [_ F]]|[_ [F _]]]];
      congruence.
  - pose proof (greaterTransitive _ _ C a b a Ha Hb Ha G G') as F.
    pose proof (equalReflexive _ _ C a Ha) as R.
    destruct (trichotomy a a Ha Ha) as [[_ [F' _]]|[[_ [_ F']]|[_ [F' _]]]];
      congruence.
Qed.

Lemma less_greater (a b : A) :
  In a l -> In b l ->
  lessCF comparefn a b = true -> greaterCF comparefn b a = true.
Proof.
  intros Ha Hb L.
  destruct (trichotomy b a Hb Ha) as [[L' _]|[[_ [E _]]|[_ [_ G]]]];
    [| |exact G].
  - pose proof (lessTransitive _ _ C a b a Ha Hb Ha L L') as F.
    pose proof (equalReflexive _ _ C a Ha) as R.
    destruct (trichotomy a a Ha Ha) as [[_ [F' _]]|[[F' _]|[_ [F' _]]]];
      congruence.
  - apply (equalSymmetric _ _ C) in E; [|assumption..].
    destruct (trichotomy a b Ha Hb) as [[_ [F _]]|[[F _]|[F _]]];
      congruence.
Qed.

(** [a] is not behind [b]: [a <CF b] or [a =CF b]. *)
Lemma not_greater (a b : A) :
  In a l -> In b l ->
  greaterCF comparefn a b = false <-> lessCF comparefn b a = false.
Proof.
  intros Ha Hb. split; intros H.
  - destruct (lessCF comparefn b a) eqn:L; [|reflexivity].
    apply (less_greater b a Hb Ha) in L. congruence.
  - destruct (greaterCF comparefn a b) eqn:G; [|reflexivity].
    apply (greater_less a b Ha Hb) in G. congruence.
Qed.

Lemma less_equal_less (a b c : A) :
  In a l -> In b l -> In c l ->
  lessCF comparefn a b = true -> equalCF comparefn b c = true ->
  lessCF comparefn a c = true.
Proof.
  intros Ha Hb Hc L E.
  destruct (trichotomy a c Ha Hc) as [[L' _]|[[_ [E' _]]|[_ [_ G]]]];
    [exact L'| |].
  - apply (equalSymmetric _ _ C) in E; [|assumption..].
    pose proof (equalTransitive _ _ C a c b Ha Hc Hb E' E) as F.
    destruct (trichotomy a b Ha Hb) as [[_ [F' _]]|[[F' _]|[F' _]]]; congruence.
  - apply (greater_less a c Ha Hc) in G.
    pose proof (lessTransitive _ _ C c a b Hc Ha Hb G L) as F.
    apply (equalSymmetric _ _ C) in E; [|assumption..].
    destruct (trichotomy c b Hc Hb) as [[_ [F' _]]|[[F' _]|[F' _]]]; congruence.
Qed.

(** Not behind is transitive. *)
Lemma not_behind_transitive (a b c : A) :
  In a l -> In b l -> In c l ->
  lessCF comparefn b a = false -> lessCF comparefn c b = false ->
  lessCF comparefn c a = false.
Proof.
  intros Ha Hb Hc H1 H2.
  destruct (lessCF comparefn c a) eqn:L; [|reflexivity].
  destruct (trichotomy a b Ha Hb) as [[L' _]|[[_ [E _]]|[_ [_ G]]]].
  - pose proof (lessTransitive _ _ C c a b Hc Ha Hb L L'). congruence.
  - pose proof (less_equal_less c a b Hc Ha Hb L E). congruence.
  - apply (greater_less a b Ha Hb) in G. congruence.
Qed.

End ConsistentFacts.

(** *** The insertion sort is a sort of the language *)

Section InsertionSortConforms.
Import JS.
Context {A : Type}.
Variable comparefn : A -> A -> number.

Section Consistently.
Variable S : list A.
Hypothesis C : consistent comparefn S.

Lemma insert_sortOrder (x : A) (l : list A) :
  In x S -> incl l S ->
  sortOrder comparefn l -> sortOrder comparefn (JS.insert comparefn x l).
Proof.
  intros Hx Hl H. induction H as [|y l Hy Hs IH]; simpl.
  - repeat constructor.
  - assert (Iy : In y S) by (apply Hl; now left).
    assert (Il : incl l S) by (intros z Hz; apply Hl; now right).
    unfold JS.sorts_after. fold (greaterCF comparefn x y).
    destruct (greaterCF comparefn x y) eqn:G.
    + constructor; [|now apply IH].
      rewrite Forall_forall. intros z Hz. apply In_insert in Hz as [->|Hz].
      * destruct (trichotomy comparefn S C x y Hx Iy)
          as [[_ [_ F]]|[[_ [_ F]]|[F _]]]; congruence.
      * rewrite Forall_forall in Hy. now apply Hy.
    + apply (not_greater comparefn S C x y Hx Iy) in G.
      constructor; [|now constructor].
      constructor; [exact G|].
      rewrite Forall_forall in *. intros z Hz.
      apply (not_behind_transitive comparefn S C x y z Hx Iy (Il z Hz) G).
      now apply Hy.
Qed.

Lemma sort_sortOrder (l : list A) :
  incl l S -> sortOrder comparefn (JS.sort comparefn l).
Proof.
  induction l as [|x l IH]; intros Hl; simpl; [constructor|].
  apply insert_sortOrder.
  - apply Hl. now left.
  - intros z Hz. apply Hl. right.
    now apply (Permutation_in _ (Permutation_sym (sort_Permutation comparefn l))).
  - apply IH. intros z Hz. apply Hl. now right.
Qed.

Lemma insert_class (a x : A) (l : list A) :
  In a S -> In x S -> incl l S ->
  filter (equalCF comparefn a) (JS.insert comparefn x l) =
  filter (equalCF comparefn a) (x :: l).
Proof.
  intros Ha Hx Hl. induction l as [|y l IH]; [reflexivity|].
  assert (Iy : In y S) by (apply Hl; now left).
  assert (Il : incl l S) by (intros z Hz; apply Hl; now right).
  cbn [JS.insert]. unfold JS.sorts_after. fold (greaterCF comparefn x y).
  destruct (greaterCF comparefn x y) eqn:G; [|reflexivity].
  cbn [filter]. rewrite (IH Il). cbn [filter].
  destruct (equalCF comparefn a x) eqn:Ex; [|reflexivity].
  destruct (equalCF comparefn a y) eqn:Ey; [|reflexivity].
  apply (equalSymmetric _ _ C) in Ex; [|assumption..].
  pose proof (equalTransitive _ _ C x a y Hx Ha Iy Ex Ey) as E.
  destruct (trichotomy comparefn S C x y Hx Iy)
    as [[_ [_ F]]|[[_ [_ F]]|[_ [F _]]]]; congruence.
Qed.

Lemma sort_class (a : A) (l : list A) :
  In a S -> incl l S ->
  filter (equalCF comparefn a) (JS.sort comparefn l) =
  filter (equalCF comparefn a) l.
Proof.
  intros Ha. induction l as [|x l IH]; intros Hl; [reflexivity|].
  cbn [JS.sort fold_right]. fold (JS.sort comparefn l).
  rewrite insert_class.
  - cbn [filter]. rewrite IH; [reflexivity|].
    intros z Hz. apply Hl. now right.
  - exact Ha.
  - apply Hl. now left.
  - intros z Hz. apply Hl. right.
    now apply (Permutation_in _ (Permutation_sym (sort_Permutation comparefn l))).
Qed.
End Consistently.

End InsertionSortConforms.


(** The insertion sort is one of the sorts the language allows. *)
Lemma insertionSort_conforming : JS.conformingSort JS.insertionSort.
Proof.
  intros A comparefn l. split; [apply sort_Permutation|].
  intros C. split.
  - apply (sort_sortOrder comparefn l C). apply incl_refl.
  - intros a Ha. apply (sort_class comparefn l C a l Ha). apply incl_refl.
Qed.


(** *** Elements that all compare equal *)

Section EqualElements.
Import JS.
Context {A : Type}.
Variable comparefn : A -> A -> number.

(** A comparison function under which every pair of elements compares
    equal is consistent. *)
Lemma allEqual_consistent (l : list A) :
  (forall x y, In x l -> In y l -> equalCF comparefn x y = true) ->
  consistent comparefn l.
Proof.
  intros H.
  assert (Z : forall x y, In x l -> In y l ->
                exists s, comparefn x y = S754_zero s).
  { intros x y Hx Hy. specialize (H x y Hx Hy). unfold equalCF in H.
    destruct (comparefn x y) as [s| | |]; try discriminate. now exists s. }
  constructor; intros; auto;
    match goal with
    | Hl : lessCF _ ?a ?b = true |- _ =>
        unfold lessCF in Hl; destruct (Z a b) as [[|] E]; auto;
        rewrite E in Hl; discriminate
    | Hg : greaterCF _ ?a ?b = true |- _ =>
        unfold greaterCF in Hg; destruct (Z a b) as [[|] E]; auto;
        rewrite E in Hg; discriminate
    | |- comparefn ?a ?b <> _ =>
        destruct (Z a b) as [s E]; auto; rewrite E; discriminate
    end.
Qed.

(** When every pair compares equal, a stable sort returns the array as it
    was. *)
Lemma allEqual_unchanged (sort : ArraySort) (l : list A) :
  conformingSort sort ->
  (forall x y, In x l -> In y l -> equalCF comparefn x y = true) ->
  sort A comparefn l = l.
Proof.
  intros HS H. destruct (HS A comparefn l) as [P K].
  destruct l as [|a l].
  - now apply Permutation_nil.
  - destruct (K (allEqual_consistent _ H)) as [_ St].
    specialize (St a (or_introl eq_refl)).
    rewrite !filter_all in St; [exact St| |].
    + rewrite Forall_forall. intros x Hx. now apply H; [left|].
    + rewrite Forall_forall. intros x Hx. apply H; [now left|].
      now apply (Permutation_in _ (Permutation_sym P)).
Qed.

End EqualElements.

(** *** The comparison function of the rewritten sort *)

Section SubtractionFacts.

Lemma sub_diag (x : JS.number) :
  JS.is_finite x = true -> JS.sub x x = JS.pos_zero.
Proof.
  destruct x as [[|]|s| |s m e]; try discriminate; intros _; try reflexivity.
  unfold JS.sub, SFsub. now rewrite Z.sub_diag.
Qed.

End SubtractionFacts.

Section DefinedDistanceFacts.
Import WaterBodyService SortSpec JS.
Context {A : Type}.
Variable distance : A -> option JS.number.

Lemma lacksDistance_None (x : A) :
  lacksDistance distance x = true -> distance x = None.
Proof.
  unfold lacksDistance, hasDistance. now destruct (distance x).
Qed.

(** The comparison function of the rewritten sort returns [+0] for a pair
    of which an entry lacks a distance. *)
Lemma lacking_equal (x y : A) :
  lacksDistance distance x = true ->
  compareDefinedDistance distance x y = JS.pos_zero /\
  compareDefinedDistance distance y x = JS.pos_zero.
Proof.
  intros H. apply lacksDistance_None in H. unfold compareDefinedDistance.
  rewrite H. now destruct (distance y).
Qed.

Lemma sameDistance_equal (d : JS.number) (x y : A) :
  JS.is_finite d = true ->
  sameDistance distance d x -> sameDistance distance d y ->
  compareDefinedDistance distance x y = JS.pos_zero.
Proof.
  intros Hd [Hx|Hx] [Hy|Hy]; unfold compareDefinedDistance;
    rewrite Hx, ?Hy; try reflexivity.
  now apply sub_diag.
Qed.

Lemma sameDistance_unchanged (sort : ArraySort) (l : list A) (d : JS.number) :
  conformingSort sort -> JS.is_finite d = true ->
  Forall (sameDistance distance d) l ->
  sort A (compareDefinedDistance distance) l = l.
Proof.
  intros HS Hd H. apply allEqual_unchanged; [exact HS|].
  rewrite Forall_forall in H. intros x y Hx Hy. unfold equalCF.
  now rewrite (sameDistance_equal d x y Hd (H x Hx) (H y Hy)).
Qed.

(** With an entry that lacks a distance among them, the comparison
    function is consistent exactly when every pair of entries compares
    equal: the entry without distance compares equal to all of them. *)
Lemma lacking_consistent (l : list A) (n : A) :
  In n l -> lacksDistance distance n = true ->
  consistent (compareDefinedDistance distance) l <->
  (forall x y, In x l -> In y l ->
     equalCF (compareDefinedDistance distance) x y = true).
Proof.
  intros Hn L. split; [|apply allEqual_consistent].
  intros C x y Hx Hy.
  destruct (lacking_equal n x L) as [_ Exn].
  destruct (lacking_equal n y L) as [Eny _].
  apply (equalTransitive _ _ C x n y Hx Hn Hy); unfold equalCF.
  - now rewrite Exn.
  - now rewrite Eny.
Qed.

Lemma lacking_unchanged (sort : ArraySort) (l : list A) (n : A) :
  conformingSort sort ->
  In n l -> lacksDistance distance n = true ->
  consistent (compareDefinedDistance distance) l ->
  sort A (compareDefinedDistance distance) l = l.
Proof.
  intros HS Hn L C. apply allEqual_unchanged; [exact HS|].
  now apply (lacking_consistent l n Hn L).
Qed.

End DefinedDistanceFacts.

Section NearbyDistances.
Import SortSpec NearbySearch.

(** Every result that the first [searchCombined] pushes has a
    distance. *)
Lemma resultsOf_hasDistance (M : JS.MathLibrary) (latitude longitude : JS.number)
    (waterBodies : list SharedWaterBody.t) :
  Forall (fun r => hasDistance Result.distance r = true)
         (flat_map (resultsOf M latitude longitude) waterBodies).
Proof.
  rewrite Forall_forall. intros r Hr.
  apply in_flat_map in Hr as [wb [_ Hr]].
  destruct Hr as [<-|Hr]; [reflexivity|].
  apply in_map_iff in Hr as [s [<- _]]. reflexivity.
Qed.

End NearbyDistances.

Section SortClaims.
Import WaterBodyService SortSpec.

(** C3, as the code has it.  An entry that lacks a distance is not placed
    after the entries that have one.  The comparison function of the
    rewritten [searchCombined] returns [+0] for every pair of which an
    entry lacks a distance.  With such an entry among the results, the
    comparison function is consistent exactly when every pair of results
    compares equal, and then the sort, which is stable, returns the
    results in their input order, on every engine: the entry without
    distance stays where it was.  That is so when the entries that have a
    distance all have the same finite one.  Otherwise the comparison
    function is not consistent, and the language leaves the order to the
    engine.  The sort of the first [searchCombined] never receives an
    entry without distance: every result that is pushed has one. *)
Theorem missing_distance_order (sort : JS.ArraySort) :
  JS.conformingSort sort ->
  (forall (A : Type) (distance : A -> option JS.number) (x y : A),
      lacksDistance distance x = true ->
      compareDefinedDistance distance x y = JS.pos_zero /\
      compareDefinedDistance distance y x = JS.pos_zero) /\
  (forall (A : Type) (distance : A -> option JS.number) (l : list A) (n : A),
      In n l -> lacksDistance distance n = true ->
      (JS.consistent (compareDefinedDistance distance) l <->
       forall x y, In x l -> In y l ->
         JS.equalCF (compareDefinedDistance distance) x y = true) /\
      (JS.consistent (compareDefinedDistance distance) l ->
       sort A (compareDefinedDistance distance) l = l)) /\
  (forall (A : Type) (distance : A -> option JS.number) (l : list A)
          (d : JS.number),
      JS.is_finite d = true ->
      Forall (sameDistance distance d) l ->
      sort A (compareDefinedDistance distance) l = l) /\
  (forall (M : JS.MathLibrary) (latitude longitude : JS.number)
          (waterBodies : list NearbySearch.SharedWaterBody.t),
      Forall (fun r => hasDistance NearbySearch.Result.distance r = true)
             (flat_map (NearbySearch.resultsOf M latitude longitude)
                       waterBodies)).
Proof.
  intros HS. split; [|split; [|split]].
  - intros A distance x y. apply lacking_equal.
  - intros A distance l n Hn L. split.
    + now apply (lacking_consistent distance l n).
    + now apply (lacking_unchanged distance sort l n).
  - intros A distance l d. now apply sameDistance_unchanged.
  - apply resultsOf_hasDistance.
Qed.

End SortClaims.

Section SortExamples.
Import WaterBodyService SortSpec CandidateSearch.

(** C3, as the specification states it, fails.  The backend answers with
    a water body without distance and then one five meters away; every
    pair of the two results compares equal, so that every engine returns
    them in this order, the result without distance ahead of the other
    one. *)
Lemma missing_distance_not_last :
  map Result.distance (resultsOf [Examples.unmeasured; Examples.fiveMetersAway])
  = [None; Some (JS.of_Z 5)] /\
  (forall sort : JS.ArraySort,
      JS.conformingSort sort ->
      sort _ (compareDefinedDistance Result.distance)
           (resultsOf [Examples.unmeasured; Examples.fiveMetersAway]) =
      resultsOf [Examples.unmeasured; Examples.fiveMetersAway]) /\
  Response.results
    (responseOf
       {| ResponseData.waterBodies :=
            Some [Examples.unmeasured; Examples.fiveMetersAway];
          ResponseData.osmStatus := None |}) =
  resultsOf [Examples.unmeasured; Examples.fiveMetersAway] /\
  ~ missingLast Result.distance
      (resultsOf [Examples.unmeasured; Examples.fiveMetersAway]).
Proof.
  split; [reflexivity|]. split; [|split; [reflexivity|]].
  - intros sort HS.
    apply (sameDistance_unchanged Result.distance sort _ (JS.of_Z 5) HS eq_refl).
    apply Forall_cons; [now left|].
    apply Forall_cons; [now right|]. apply Forall_nil.
  - intros H.
    specialize (H 1%nat 0%nat _ _ eq_refl eq_refl eq_refl eq_refl).
    inversion H.
Qed.

Lemma missing_distance_order_witness :
  JS.conformingSort JS.insertionSort /\
  JS.insertionSort _ (compareDefinedDistance snd) [noDistance; fiveMeters] =
  [noDistance; fiveMeters] /\
  JS.insertionSort _ (compareDefinedDistance snd)
                   [fiveMeters; noDistance; fiveMeters] =
  [fiveMeters; noDistance; fiveMeters] /\
  ~ JS.consistent (compareDefinedDistance snd)
                  [fiveMeters; oneMeter; noDistance].
Proof.
  pose proof (missing_distance_order JS.insertionSort insertionSort_conforming)
    as [_ [Lacking [Same _]]].
  split; [exact insertionSort_conforming|]. split; [|split].
  - apply (Same _ snd _ (JS.of_Z 5) eq_refl).
    apply Forall_cons; [now left|].
    apply Forall_cons; [now right|]. apply Forall_nil.
  - apply (Same _ snd _ (JS.of_Z 5) eq_refl).
    apply Forall_cons; [now right|].
    apply Forall_cons; [now left|].
    apply Forall_cons; [now right|]. apply Forall_nil.
  - intros C.
    destruct (Lacking _ snd [fiveMeters; oneMeter; noDistance] noDistance)
      as [Iff _]; [simpl; auto|reflexivity|].
    pose proof (proj1 Iff C fiveMeters oneMeter) as E.
    specialize (E (or_introl eq_refl) (or_intror (or_introl eq_refl))).
    discriminate E.
Defined.

End SortExamples.

(** ** The formatter: theorems *)

(** *** Strings of digits *)

Section Digits.
Import FormatSpec.

Lemma allDigits_app (a b : string) :
  allDigits (a ++ b) = allDigits a && allDigits b.
Proof.
  induction a as [|c a IH]; simpl; [reflexivity|].
  now rewrite IH, andb_assoc.
Qed.

Lemma allDigits_zeros (n : nat) : allDigits (JS.zeros n) = true.
Proof. induction n; simpl; auto. Qed.

Lemma allDigits_uint (d : Decimal.uint) :
  allDigits (NilEmpty.string_of_uint d) = true.
Proof. induction d; simpl; auto. Qed.

Lemma allDigits_digits_of (n : Z) : allDigits (JS.digits_of n) = true.
Proof.
  unfold JS.digits_of, NilZero.string_of_uint.
  destruct (N.to_uint (Z.to_N n)) eqn:E; try reflexivity;
    rewrite <- E; apply allDigits_uint || (simpl; apply allDigits_uint).
Qed.

Lemma length_zeros (n : nat) : String.length (JS.zeros n) = n.
Proof. induction n; simpl; auto. Qed.

Lemma length_append (a b : string) :
  String.length (a ++ b) = (String.length a + String.length b)%nat.
Proof. induction a; simpl; auto. Qed.

(** A string of [j + 1] characters splits into its first [j] characters
    and the last one. *)
Lemma split_last (m : string) (j : nat) :
  String.length m = S j ->
  exists d,
    substring j 1 m = String d "" /\
    m = substring 0 j m ++ String d "" /\
    String.length (substring 0 j m) = j.
Proof.
  revert j. induction m as [|c m IH]; intros j H; [discriminate|].
  simpl in H. injection H as H. destruct j as [|j].
  - destruct m; [|discriminate]. exists c. simpl. auto.
  - destruct (IH j H) as [d [H1 [H2 H3]]]. exists d. simpl.
    rewrite H1, H3. split; [reflexivity|]. split; [|reflexivity].
    now rewrite <- H2.
Qed.

Lemma containsPoint_app (a b : string) :
  containsPoint (a ++ "." ++ b) = true.
Proof.
  induction a as [|c a IH]; simpl in *; [reflexivity|].
  rewrite IH. apply orb_true_r.
Qed.

End Digits.

(** *** Doubles and their values *)

Section Doubles.

Lemma digits2_pos_size (m : positive) : digits2_pos m = Pos.size m.
Proof. induction m; simpl; congruence. Qed.

Lemma digits2_pos_gt (m : positive) : (Zpos m < 2 ^ Zpos (digits2_pos m))%Z.
Proof.
  rewrite digits2_pos_size. pose proof (Pos.size_gt m) as H.
  apply Pos2Z.pos_lt_pos in H. now rewrite Pos2Z.inj_pow in H.
Qed.

(** The mantissa of a double has at most [53] bits. *)
Lemma double_mantissa (s : bool) (m : positive) (e : Z) :
  JS.is_double (S754_finite s m e) = true -> (Zpos m < 2 ^ 53)%Z.
Proof.
  unfold JS.is_double, valid_binary, bounded, canonical_mantissa, fexp.
  intros H. apply andb_prop in H as [H _]. apply Z.eqb_eq in H.
  pose proof (digits2_pos_gt m) as Hm.
  assert (Hd : (Zpos (digits2_pos m) <= 53)%Z) by (unfold JS.prec in H; lia).
  eapply Z.lt_le_trans; [exact Hm|].
  apply Z.pow_le_mono_r; lia.
Qed.

(** The result of a rounding has the sign that was asked for. *)
Lemma binary_round_aux_sign (s : bool) (mz ez : Z) (l : location) :
  match binary_round_aux JS.prec JS.emax s mz ez l with
  | S754_zero s' | S754_infinity s' | S754_finite s' _ _ => s' = s
  | S754_nan => True
  end.
Proof.
  unfold binary_round_aux.
  destruct (shr_fexp _ _ mz ez l) as [mrs' e'].
  destruct (shr_fexp _ _ _ e' loc_Exact) as [mrs'' e''].
  destruct (shr_m mrs''); [reflexivity| |exact I].
  now destruct (e'' <=? _)%Z.
Qed.

Lemma div_sign (m m' : positive) (e e' : Z) :
  match JS.div (S754_finite false m e) (S754_finite false m' e') with
  | S754_zero s' | S754_infinity s' | S754_finite s' _ _ => s' = false
  | S754_nan => True
  end.
Proof.
  unfold JS.div, SFdiv.
  destruct (SFdiv_core_binary _ _ _ _ _ _) as [[mz ez] lz].
  apply binary_round_aux_sign.
Qed.

Lemma value_nonneg (x : JS.number) :
  FormatSpec.nonNegativeFinite x = true -> 0 <= JS.value x.
Proof.
  destruct x as [s|s| |[|] m e]; simpl; try discriminate; intros _;
    try apply Qle_refl.
  apply Qmult_le_0_compat; [easy|].
  apply Qpower_0_le. easy.
Qed.

End Doubles.

Section Meters.
Import FormatSpec.

Lemma toString_upto_1000_check :
  forallb (fun n => JS.Number_toString (JS.of_Z (Z.of_nat n))
                    =? JS.digits_of (Z.of_nat n))
          (seq 1 1000) = true.
Proof. vm_compute. reflexivity. Qed.

Lemma toString_upto_1000 (z : Z) :
  (1 <= z <= 1000)%Z -> JS.Number_toString (JS.of_Z z) = JS.digits_of z.
Proof.
  intros H. pose proof toString_upto_1000_check as C.
  rewrite forallb_forall in C.
  specialize (C (Z.to_nat z)). rewrite Z2Nat.id in C by lia.
  apply String.eqb_eq, C, in_seq. lia.
Qed.

Lemma scaled_lt (m : positive) (e b : Z) :
  (e <= 0)%Z -> (Zpos m < b * 2 ^ (- e))%Z ->
  inject_Z (Zpos m) * 2 ^ e < inject_Z b.
Proof.
  intros He H.
  assert (Hp : 0 < inject_Z (2 ^ (- e))).
  { change 0 with (inject_Z 0). rewrite <- Zlt_Qlt.
    apply Z.pow_pos_nonneg; lia. }
  assert (E : (2:Q) ^ e == / inject_Z (2 ^ (- e))).
  { rewrite Zpower_Qpower by lia.
    rewrite <- Qpower_opp. now rewrite Z.opp_involutive. }
  rewrite E. apply Qlt_shift_div_r; [exact Hp|].
  rewrite <- inject_Z_mult. now rewrite <- Zlt_Qlt.
Qed.

(** A non-negative double below [1000] has a negative exponent and a
    value below [1000]. *)
Lemma below_1000 (m : positive) (e : Z) :
  JS.is_double (S754_finite false m e) = true ->
  JS.lt (S754_finite false m e) (JS.of_Z 1000) = true ->
  (e < 0)%Z /\ JS.value (S754_finite false m e) < 1000.
Proof.
  intros Hd Hlt. apply double_mantissa in Hd.
  change (JS.of_Z 1000) with (S754_finite false 8796093022208000 (-43)) in Hlt.
  unfold JS.lt, SFltb, SFcompare in Hlt.
  destruct (Z.compare_spec e (-43)) as [->|He|He]; try discriminate.
  - split; [lia|].
    assert (Hm : (Zpos m < 8796093022208000)%Z).
    { rewrite Pos.compare_cont_spec in Hlt.
      destruct (Pos.compare_spec m 8796093022208000) as [K|K|K];
        try discriminate Hlt.
      now apply Pos2Z.pos_lt_pos in K. }
    apply (scaled_lt m (-43) 1000); [lia|]. simpl. lia.
  - split; [lia|]. apply (scaled_lt m e 1000); [lia|].
    assert (H44 : (2 ^ 44 <= 2 ^ (- e))%Z) by (apply Z.pow_le_mono_r; lia).
    change (2 ^ 53)%Z with 9007199254740992%Z in Hd.
    change (2 ^ 44)%Z with 17592186044416%Z in H44. lia.
Qed.

End Meters.

Section Formatter.
Import FormatSpec.

Lemma nearest_spec (x : Q) :
  inject_Z (nearest x) - (1 # 2) <= x /\ x < inject_Z (nearest x) + (1 # 2).
Proof.
  unfold nearest. pose proof (Qfloor_le (x + (1 # 2))) as H1.
  pose proof (Qlt_floor (x + (1 # 2))) as H2.
  rewrite inject_Z_plus in H2. change (inject_Z 1) with 1 in H2.
  split; lra.
Qed.

(** [x.toFixed(1)] for a finite [x >= 0] below [10^21]: the digits of the
    nearest number of tenths, at least two of them, with a point before
    the last. *)
Lemma toFixed_1 (x : JS.number) :
  nonNegativeFinite x = true -> JS.value x < JS.pow10 21 ->
  let m := JS.zeros (2 - String.length (JS.digits_of (nearest (JS.value x * 10))))
           ++ JS.digits_of (nearest (JS.value x * 10)) in
  JS.toFixed x 1 =
  substring 0 (String.length m - 1) m ++ "."
  ++ substring (String.length m - 1) 1 m.
Proof.
  intros Hx Hlt m.
  pose proof (value_nonneg x Hx) as Hv.
  assert (E : JS.toFixed x 1 =
              let v := JS.value x in
              let s := if Qle_bool 0 v then "" else "-" in
              let a := Qabs v in
              if Qle_bool (JS.pow10 21) a then s ++ JS.Number_toString (SFabs x)
              else
                let m := JS.digits_of (Qfloor (a * JS.pow10 1 + (1 # 2))) in
                let m := JS.zeros (2 - String.length m) ++ m in
                s ++ substring 0 (String.length m - 1) m ++ "."
                  ++ substring (String.length m - 1) 1 m).
  { destruct x as [s|s| |[|] mx ex]; try discriminate Hx; reflexivity. }
  rewrite E. clear E. cbv zeta.
  apply Qle_bool_iff in Hv as Hv'. rewrite Hv'.
  destruct (Qle_bool (JS.pow10 21) (Qabs (JS.value x))) eqn:G.
  { apply Qle_bool_iff in G. rewrite (Qabs_pos _ Hv) in G.
    exfalso. apply (Qlt_not_le _ _ Hlt G). }
  assert (F : Qfloor (Qabs (JS.value x) * JS.pow10 1 + (1 # 2)) =
              nearest (JS.value x * 10)).
  { unfold nearest. apply Qfloor_comp. rewrite (Qabs_pos _ Hv). reflexivity. }
  rewrite F. reflexivity.
Qed.

Lemma toFixed_1_shape (x : JS.number) :
  nonNegativeFinite x = true -> JS.value x < JS.pow10 21 ->
  exists a d,
    JS.toFixed x 1 = a ++ "." ++ String d "" /\
    a <> "" /\ allDigits a = true /\ isDigit d = true /\
    a ++ String d "" =
    JS.zeros (2 - String.length (JS.digits_of (nearest (JS.value x * 10))))
    ++ JS.digits_of (nearest (JS.value x * 10)).
Proof.
  intros Hx Hlt. rewrite (toFixed_1 x Hx Hlt). cbv zeta.
  set (m := JS.zeros _ ++ JS.digits_of _).
  assert (Hlen : (2 <= String.length m)%nat).
  { unfold m. rewrite length_append, length_zeros. lia. }
  assert (Hall : allDigits m = true).
  { unfold m. now rewrite allDigits_app, allDigits_zeros, allDigits_digits_of. }
  destruct (split_last m (String.length m - 1)) as [d [H1 [H2 H3]]]; [lia|].
  exists (substring 0 (String.length m - 1) m), d.
  rewrite H2, allDigits_app in Hall. apply andb_prop in Hall as [Ha Hd].
  simpl in Hd. rewrite andb_true_r in Hd.
  rewrite H1. repeat split; auto.
  intros E. rewrite E in H3. simpl in H3. lia.
Qed.

End Formatter.

Section FormatClaims.
Import FormatSpec.

Lemma append_assoc (a b c : string) : (a ++ b) ++ c = a ++ (b ++ c).
Proof. induction a as [|x a IH]; simpl; [reflexivity|]. now rewrite IH. Qed.

Lemma formatDistance_same (meters : JS.number) :
  WaterBodySelectionList.formatDistance meters =
  WaterBodyService.formatDistance meters.
Proof. reflexivity. Qed.

Lemma formatDistance_below_1000 (meters : JS.number) :
  JS.is_double meters = true -> nonNegativeFinite meters = true ->
  JS.lt meters (JS.of_Z 1000) = true ->
  WaterBodyService.formatDistance meters =
  JS.digits_of (nearest (JS.value meters)) ++ "m".
Proof.
  intros Hd Hx Hlt. unfold WaterBodyService.formatDistance. rewrite Hlt.
  f_equal. destruct meters as [s|s| |[|] m e]; try discriminate Hx.
  - reflexivity.
  - destruct (below_1000 m e Hd Hlt) as [He Hv].
    pose proof (value_nonneg _ Hx) as H0.
    assert (Hz : (0 <= nearest (JS.value (S754_finite false m e)) <= 1000)%Z).
    { unfold nearest. split.
      - change 0%Z with (Qfloor 0). apply Qfloor_resp_le.
        apply (Qle_trans _ (0 + (1 # 2))); [easy|].
        now apply Qplus_le_l.
      - change 1000%Z with (Qfloor (1000 + (1 # 2))). apply Qfloor_resp_le.
        apply Qplus_le_l. now apply Qlt_le_weak. }
    unfold JS.Math_round. fold (nearest (JS.value (S754_finite false m e))).
    destruct (Z.leb_spec 0 e) as [He'|_]; [lia|].
    destruct (Z.eqb_spec (nearest (JS.value (S754_finite false m e))) 0)
      as [->|Hne]; [reflexivity|].
    apply toString_upto_1000. lia.
Qed.

Lemma formatDistance_from_1000 (meters : JS.number) :
  nonNegativeFinite meters = true ->
  JS.lt meters (JS.of_Z 1000) = false ->
  JS.is_finite (JS.div meters (JS.of_Z 1000)) = true ->
  JS.value (JS.div meters (JS.of_Z 1000)) < JS.pow10 21 ->
  exists a d,
    WaterBodyService.formatDistance meters = a ++ "." ++ String d "km" /\
    a <> "" /\ allDigits a = true /\ isDigit d = true /\
    a ++ String d "" =
    JS.zeros (2 - String.length
                    (JS.digits_of
                       (nearest (JS.value (JS.div meters (JS.of_Z 1000)) * 10))))
    ++ JS.digits_of (nearest (JS.value (JS.div meters (JS.of_Z 1000)) * 10)).
Proof.
  intros Hx Hge Hfin Hlt.
  assert (Hq : nonNegativeFinite (JS.div meters (JS.of_Z 1000)) = true).
  { destruct meters as [s|s| |[|] m e]; try discriminate Hx.
    - now destruct s.
    - pose proof (div_sign m 8796093022208000 e (-43)) as Hs.
      change (JS.of_Z 1000) with (S754_finite false 8796093022208000 (-43))
        in *.
      destruct (JS.div _ _) as [s|s| |s m' e']; try discriminate Hfin;
        now subst s. }
  destruct (toFixed_1_shape _ Hq Hlt) as [a [d [H1 [H2 [H3 [H4 H5]]]]]].
  exists a, d. unfold WaterBodyService.formatDistance. rewrite Hge, H1.
  repeat split; auto. now rewrite !append_assoc.
Qed.

(** C8, as the code has it.  For a non-negative finite number of meters
    below [1000] the result is the nearest integer (the larger one on a
    tie) followed by ["m"]; from [1000] on, and as long as the quotient by
    [1000] is below [10^21], it is the nearest number of tenths of the
    quotient, written with exactly one decimal place and followed by
    ["km"].  The two copies of the function agree, [999] gives ["999m"]
    and [1000] gives ["1.0km"]. *)
Theorem formatDistance_rendering :
  (forall meters,
      JS.is_double meters = true -> nonNegativeFinite meters = true ->
      WaterBodySelectionList.formatDistance meters =
      WaterBodyService.formatDistance meters /\
      (JS.lt meters (JS.of_Z 1000) = true ->
       WaterBodyService.formatDistance meters =
       JS.digits_of (nearest (JS.value meters)) ++ "m") /\
      (JS.lt meters (JS.of_Z 1000) = false ->
       JS.is_finite (JS.div meters (JS.of_Z 1000)) = true ->
       JS.value (JS.div meters (JS.of_Z 1000)) < JS.pow10 21 ->
       oneDecimalKm (WaterBodyService.formatDistance meters) /\
       exists a d,
         WaterBodyService.formatDistance meters = a ++ "." ++ String d "km" /\
         a ++ String d "" =
         JS.zeros (2 - String.length
                         (JS.digits_of
                            (nearest (JS.value (JS.div meters (JS.of_Z 1000)) * 10))))
         ++ JS.digits_of
              (nearest (JS.value (JS.div meters (JS.of_Z 1000)) * 10)))) /\
  WaterBodyService.formatDistance (JS.of_Z 999) = "999m" /\
  WaterBodyService.formatDistance (JS.of_Z 1000) = "1.0km".
Proof.
  split; [|split; vm_compute; reflexivity].
  intros meters Hd Hx. split; [reflexivity|]. split.
  - now apply formatDistance_below_1000.
  - intros Hge Hfin Hlt.
    destruct (formatDistance_from_1000 meters Hx Hge Hfin Hlt)
      as [a [d [H1 [H2 [H3 [H4 H5]]]]]].
    split; [exists a, d; auto|exists a, d; auto].
Qed.

Lemma formatDistance_rendering_witness :
  WaterBodyService.formatDistance (JS.of_Z 750) = "750m" /\
  oneDecimalKm (WaterBodyService.formatDistance (JS.of_Z 10250)) /\
  WaterBodyService.formatDistance (JS.of_Z 10250) = "10.3km".
Proof.
  pose proof (proj1 formatDistance_rendering (JS.of_Z 750) eq_refl eq_refl)
    as [_ [H _]].
  pose proof (proj1 formatDistance_rendering (JS.of_Z 10250) eq_refl eq_refl)
    as [_ [_ K]].
  split; [|split].
  - rewrite (H eq_refl). vm_compute. reflexivity.
  - apply (K eq_refl eq_refl). vm_compute. reflexivity.
  - vm_compute. reflexivity.
Defined.

(** C8, as the specification states it, fails: [10^24] meters is a
    non-negative finite number of meters, its quotient by [1000] is
    [10^21], and the result is in exponent notation, with no decimal place
    at all. *)
Lemma formatDistance_huge :
  JS.is_double septillion = true /\
  nonNegativeFinite septillion = true /\
  JS.lt septillion (JS.of_Z 1000) = false /\
  WaterBodyService.formatDistance septillion = "1e+21km" /\
  WaterBodySelectionList.formatDistance septillion = "1e+21km" /\
  ~ oneDecimalKm (WaterBodyService.formatDistance septillion).
Proof.
  assert (E : WaterBodyService.formatDistance septillion = "1e+21km")
    by (vm_compute; reflexivity).
  repeat split; try (vm_compute; reflexivity).
  rewrite E. intros [a [d [H _]]].
  assert (C : containsPoint "1e+21km" = true)
    by (rewrite H; apply containsPoint_app).
  discriminate C.
Qed.

End FormatClaims.

(** ** The distance calculator: theorems *)

(** *** Rounding does not overflow on small operands *)

Section Rounding.
Local Open Scope Z_scope.

Lemma digits2_pos_le (m : positive) (k : Z) :
  Zpos m < 2 ^ k -> Zpos (digits2_pos m) <= k.
Proof.
  intros H. rewrite digits2_pos_size.
  destruct (Z.le_gt_cases (Zpos (Pos.size m)) k) as [|Hgt]; [assumption|].
  exfalso. pose proof (Pos.size_le m) as Hs.
  apply Pos2Z.pos_le_pos in Hs. rewrite Pos2Z.inj_pow in Hs.
  change (Zpos m~0) with (2 * Zpos m) in Hs.
  assert (Hk : 0 <= k).
  { destruct (Z.le_gt_cases 0 k); [assumption|].
    rewrite Z.pow_neg_r in H by lia. lia. }
  assert (Hp : 2 ^ (k + 1) <= 2 ^ Zpos (Pos.size m))
    by (apply Z.pow_le_mono_r; lia).
  rewrite Z.pow_add_r in Hp by lia. lia.
Qed.

Lemma Zdigits2_le (m k : Z) : 0 <= m < 2 ^ k -> 0 <= k -> Zdigits2 m <= k.
Proof.
  intros [H0 H] Hk. destruct m as [|p|p]; simpl; [assumption| |lia].
  now apply digits2_pos_le.
Qed.

Lemma Zdigits2_gt (m : Z) : 0 <= m -> m < 2 ^ Zdigits2 m /\ 0 <= Zdigits2 m.
Proof.
  intros H. destruct m as [|p|p]; simpl; [lia| |lia].
  split; [apply digits2_pos_gt|lia].
Qed.

Lemma shr_1_bounds (mrs : shr_record) :
  0 <= shr_m mrs -> 0 <= shr_m (shr_1 mrs) <= shr_m mrs.
Proof.
  destruct mrs as [m r s]. simpl.
  destruct m as [|[p|p|]|[p|p|]]; simpl; lia.
Qed.

Lemma iter_shr_1_bounds (p : positive) (mrs : shr_record) :
  0 <= shr_m mrs -> 0 <= shr_m (iter_pos shr_1 p mrs) <= shr_m mrs.
Proof.
  revert mrs. induction p as [p IH|p IH|]; intros mrs H; simpl.
  - pose proof (shr_1_bounds mrs H) as H1.
    pose proof (IH _ (proj1 H1)) as H2.
    pose proof (IH _ (proj1 H2)) as H3. lia.
  - pose proof (IH _ H) as H2.
    pose proof (IH _ (proj1 H2)) as H3. lia.
  - now apply shr_1_bounds.
Qed.

Lemma shr_m_of_loc (m : Z) (l : location) : shr_m (shr_record_of_loc m l) = m.
Proof. now destruct l as [|[| |]]. Qed.

(** The mantissa does not grow, and the exponent is the given one or the
    one of the format. *)
Lemma shr_fexp_bounds (m e : Z) (l : location) :
  0 <= m ->
  let '(mrs, e') := shr_fexp JS.prec JS.emax m e l in
  0 <= shr_m mrs <= m /\
  e' <= Z.max e (fexp JS.prec JS.emax (Zdigits2 m + e)).
Proof.
  intros H. unfold shr_fexp, shr.
  destruct (fexp JS.prec JS.emax (Zdigits2 m + e) - e) as [|p|p] eqn:E.
  - rewrite shr_m_of_loc. lia.
  - pose proof (iter_shr_1_bounds p (shr_record_of_loc m l)) as B.
    rewrite shr_m_of_loc in B. split; [now apply B|lia].
  - rewrite shr_m_of_loc. lia.
Qed.

Lemma round_nearest_even_bounds (m : Z) (l : location) :
  m <= round_nearest_even m l <= m + 1.
Proof.
  destruct l as [|[| |]]; simpl; try lia. destruct (Z.even m); lia.
Qed.

(** A non-negative mantissa of at most [D] bits with an exponent of at
    most [E] rounds to a zero or to a finite number, whose mantissa and
    exponent are bounded in turn. *)
Lemma binary_round_aux_finite (D E : Z) (s : bool) (m e : Z) (l : location) :
  53 <= D -> -1074 <= E -> E + 2 * D <= 971 ->
  0 <= m < 2 ^ D -> e <= E ->
  match binary_round_aux JS.prec JS.emax s m e l with
  | S754_zero _ => True
  | S754_finite _ m' e' => Zpos m' <= m + 1 /\ e' <= E + 2 * D
  | _ => False
  end.
Proof.
  intros HD HE HED [Hm0 Hm] He. unfold binary_round_aux.
  pose proof (shr_fexp_bounds m e l Hm0) as B1.
  destruct (shr_fexp JS.prec JS.emax m e l) as [mrs' e'].
  destruct B1 as [Bm1 Be1].
  pose proof (round_nearest_even_bounds (shr_m mrs') (loc_of_shr_record mrs'))
    as R.
  set (m1 := round_nearest_even (shr_m mrs') (loc_of_shr_record mrs')) in *.
  assert (Hm1 : 0 <= m1) by lia.
  pose proof (shr_fexp_bounds m1 e' loc_Exact Hm1) as B2.
  destruct (shr_fexp JS.prec JS.emax m1 e' loc_Exact) as [mrs'' e''].
  destruct B2 as [Bm2 Be2].
  assert (Hd : Zdigits2 m <= D) by (apply Zdigits2_le; lia).
  assert (Hd1 : Zdigits2 m1 <= D + 1).
  { apply Zdigits2_le; [|lia]. split; [lia|].
    rewrite Z.pow_add_r by lia. simpl. lia. }
  pose proof (Zdigits2_gt m Hm0) as [_ Hd0].
  pose proof (Zdigits2_gt m1 Hm1) as [_ Hd10].
  unfold fexp, emin, JS.prec, JS.emax in *.
  destruct (shr_m mrs'') as [|p|p] eqn:Em; [exact I| |lia].
  destruct (Z.leb_spec e'' (1024 - 53)); lia.
Qed.

End Rounding.

Section SmallNumbers.
Import DistanceSpec.
Local Open Scope Z_scope.

Lemma small_is_finite (D E : Z) (x : JS.number) :
  small D E x -> JS.is_finite x = true.
Proof. now destruct x. Qed.

Lemma rounded_small (D E : Z) (s : bool) (m e : Z) (l : location) :
  53 <= D -> -1074 <= E -> E + 2 * D <= 971 ->
  0 <= m < 2 ^ D -> e <= E ->
  small (D + 1) (E + 2 * D) (binary_round_aux JS.prec JS.emax s m e l).
Proof.
  intros HD HE HED Hm He.
  pose proof (binary_round_aux_finite D E s m e l HD HE HED Hm He) as H.
  destruct (binary_round_aux JS.prec JS.emax s m e l) as [| | |s' m' e'];
    try exact H. simpl. split; [|apply H].
  rewrite Z.pow_add_r by lia. simpl. lia.
Qed.

Lemma mul_small (E1 E2 : Z) (x y : JS.number) :
  -1074 <= E1 + E2 -> E1 + E2 + 212 <= 971 ->
  small 53 E1 x -> small 53 E2 y ->
  small 107 (E1 + E2 + 212) (JS.mul x y).
Proof.
  intros HE HED Hx Hy.
  destruct x as [sx|sx| |sx mx ex]; try contradiction;
    destruct y as [sy|sy| |sy my ey]; try contradiction; try exact I.
  destruct Hx as [Hmx Hex], Hy as [Hmy Hey].
  unfold JS.mul, SFmul.
  apply (rounded_small 106 (E1 + E2)); try lia.
  rewrite Pos2Z.inj_mul. split; [lia|].
  change (2 ^ 106) with (2 ^ 53 * 2 ^ 53).
  apply Z.mul_lt_mono_nonneg; lia.
Qed.

Lemma div_eucl_quotient (a b q r : Z) :
  0 <= a -> 0 < b -> Z.div_eucl a b = (q, r) -> 0 <= q <= a.
Proof.
  intros Ha Hb E.
  assert (Hq : q = a / b) by (unfold Z.div; now rewrite E).
  subst q. split; [apply Z.div_pos; lia|].
  apply Z.div_le_upper_bound; [lia|]. nia.
Qed.

(** Division by a normal number [my * 2^ey]. *)
Lemma div_small (E1 : Z) (x : JS.number) (sy : bool) (my : positive) (ey : Z) :
  Zdigits2 (Zpos my) = 53 ->
  -1074 <= E1 - ey -> E1 - ey + 214 <= 971 ->
  small 107 E1 x ->
  small 108 (E1 - ey + 214) (JS.div x (S754_finite sy my ey)).
Proof.
  intros Hd2 HE HED Hx.
  destruct x as [sx|sx| |sx mx ex]; try contradiction; [exact I|].
  destruct Hx as [Hmx Hex].
  unfold JS.div, SFdiv, SFdiv_core_binary. rewrite Hd2.
  set (d1 := Zdigits2 (Zpos mx)).
  set (e' := Z.min (fexp JS.prec JS.emax (d1 + ex - (53 + ey))) (ex - ey)).
  set (s := ex - ey - e').
  set (m' := match s with
             | Z0 => Zpos mx
             | Zpos _ => Z.shiftl (Zpos mx) s
             | Zneg _ => 0
             end).
  destruct (Z.div_eucl m' (Zpos my)) as [q r] eqn:Eq.
  pose proof (Zdigits2_gt (Zpos mx) ltac:(lia)) as [Hd1 Hd10].
  fold d1 in Hd1, Hd10.
  assert (Hs : 0 <= s) by (unfold s, e'; lia).
  assert (Hm' : 0 <= m' < 2 ^ 107).
  { unfold m'. destruct s as [|p|p] eqn:Es; [lia| |lia].
    rewrite Z.shiftl_mul_pow2 by lia. split; [lia|].
    assert (Hsb : Zpos p <= 106 - d1).
    { unfold s, e', fexp, emin, JS.prec, JS.emax in Es. lia. }
    apply (Z.lt_le_trans _ (2 ^ d1 * 2 ^ Zpos p)).
    - apply Z.mul_lt_mono_pos_r; [apply Z.pow_pos_nonneg; lia|exact Hd1].
    - rewrite <- Z.pow_add_r by lia. apply Z.pow_le_mono_r; lia. }
  pose proof (div_eucl_quotient m' (Zpos my) q r ltac:(lia) ltac:(lia) Eq) as Hq.
  apply (rounded_small 107 (E1 - ey)); unfold e'; lia.
Qed.

End SmallNumbers.

(** *** The formula in the real numbers *)

Section RealFacts.
Import Reals Lra Haversine.
Local Open Scope R_scope.

Lemma atan_nonneg (z : R) : 0 <= z -> 0 <= atan z.
Proof.
  intros [H| <-].
  - left. rewrite <- atan_0. now apply atan_increasing.
  - rewrite atan_0. lra.
Qed.

Lemma sin_atan_ratio (s t : R) :
  0 <= s -> 0 < t -> s * s + t * t = 1 -> Rtrigo_def.sin (atan (s / t)) = s.
Proof.
  intros Hs Ht H. rewrite sin_atan.
  assert (E : 1 + (s / t)² = (/ t)²).
  { unfold Rsqr. field_simplify_eq; [|lra]. lra. }
  rewrite E, sqrt_Rsqr; [field; lra|].
  left. now apply Rinv_0_lt_compat.
Qed.

(** The angle whose half has the sine [sqrt a]. *)
Lemma central_angle (a : R) :
  0 <= a <= 1 ->
  2 * Real.atan2 (R_sqrt.sqrt a) (R_sqrt.sqrt (1 - a)) = acos (1 - 2 * a).
Proof.
  intros [H0 H1].
  assert (Ss : R_sqrt.sqrt a * R_sqrt.sqrt a = a) by (apply sqrt_sqrt; lra).
  assert (St : R_sqrt.sqrt (1 - a) * R_sqrt.sqrt (1 - a) = 1 - a)
    by (apply sqrt_sqrt; lra).
  pose proof (sqrt_pos a) as Ps. pose proof (sqrt_pos (1 - a)) as Pt.
  set (s := R_sqrt.sqrt a) in *. set (t := R_sqrt.sqrt (1 - a)) in *.
  assert (B : 0 <= 2 * Real.atan2 s t <= PI /\
              Rtrigo_def.sin (Real.atan2 s t) = s).
  { unfold Real.atan2. destruct (Rlt_dec 0 t) as [Ht|Ht].
    - pose proof (atan_bound (s / t)) as [_ U].
      assert (L : 0 <= atan (s / t)).
      { apply atan_nonneg. apply Rmult_le_pos; [lra|].
        left. now apply Rinv_0_lt_compat. }
      split; [lra|]. apply sin_atan_ratio; lra.
    - assert (Et : t = 0) by lra. rewrite Et in *.
      destruct (Rlt_dec 0 0) as [F|_]; [lra|].
      assert (Es : s * s = 1) by lra.
      assert (s = 1) by nra.
      destruct (Rlt_dec 0 s) as [_|F]; [|lra].
      pose proof PI_RGT_0. split; [lra|]. rewrite sin_PI2. lra. }
  destruct B as [B E]. rewrite <- (acos_cos _ B). f_equal.
  rewrite cos_2a_sin, E. lra.
Qed.

Lemma sin_half_square (x : R) :
  Rtrigo_def.sin (x / 2) * Rtrigo_def.sin (x / 2) = (1 - Rtrigo_def.cos x) / 2.
Proof.
  replace x with (2 * (x / 2)) at 3 by field. rewrite cos_2a_sin. field.
Qed.

Lemma latitude_cos (lat : R) :
  -90 <= lat <= 90 -> 0 <= Rtrigo_def.cos (lat * PI / 180).
Proof.
  intros [L U]. pose proof PI_RGT_0. apply cos_ge_0; nra.
Qed.

(** The quantity under the square roots, and the product of the two
    points of the sphere. *)
Lemma haversine_dot (lat1 lon1 lat2 lon2 : R) :
  let phi1 := lat1 * PI / 180 in
  let phi2 := lat2 * PI / 180 in
  let dphi := (lat2 - lat1) * PI / 180 in
  let dlambda := (lon2 - lon1) * PI / 180 in
  let a := Rtrigo_def.sin (dphi / 2) * Rtrigo_def.sin (dphi / 2) +
           Rtrigo_def.cos phi1 * Rtrigo_def.cos phi2 *
           Rtrigo_def.sin (dlambda / 2) * Rtrigo_def.sin (dlambda / 2) in
  1 - 2 * a = Real.dot (Real.onSphere lat1 lon1) (Real.onSphere lat2 lon2).
Proof.
  intros phi1 phi2 dphi dlambda a. unfold a.
  rewrite Rmult_assoc, !sin_half_square.
  replace dphi with (phi2 - phi1) by (unfold phi1, phi2, dphi; field).
  replace dlambda with (lon2 * PI / 180 - lon1 * PI / 180)
    by (unfold dlambda; field).
  rewrite !cos_minus. unfold Real.dot, Real.onSphere. subst phi1 phi2.
  cbv zeta. field.
Qed.

Lemma haversine_range (lat1 lon1 lat2 lon2 : R) :
  -90 <= lat1 <= 90 -> -90 <= lat2 <= 90 ->
  let phi1 := lat1 * PI / 180 in
  let phi2 := lat2 * PI / 180 in
  let dphi := (lat2 - lat1) * PI / 180 in
  let dlambda := (lon2 - lon1) * PI / 180 in
  let a := Rtrigo_def.sin (dphi / 2) * Rtrigo_def.sin (dphi / 2) +
           Rtrigo_def.cos phi1 * Rtrigo_def.cos phi2 *
           Rtrigo_def.sin (dlambda / 2) * Rtrigo_def.sin (dlambda / 2) in
  0 <= a <= 1.
Proof.
  intros H1 H2 phi1 phi2 dphi dlambda a.
  pose proof (latitude_cos lat1 H1) as C1. pose proof (latitude_cos lat2 H2) as C2.
  fold phi1 in C1. fold phi2 in C2.
  assert (C : 0 <= Rtrigo_def.cos phi1 * Rtrigo_def.cos phi2)
    by now apply Rmult_le_pos.
  unfold a. rewrite Rmult_assoc, !sin_half_square.
  pose proof (COS_bound dphi) as [D1 D2].
  pose proof (COS_bound dlambda) as [L1 L2].
  split; [nra|].
  replace dphi with (phi2 - phi1) by (unfold phi1, phi2, dphi; field).
  rewrite cos_minus.
  pose proof (COS_bound (phi2 + phi1)) as [S1 S2]. rewrite cos_plus in S1, S2.
  nra.
Qed.

(** On the real numbers the formula is the great-circle distance. *)
Lemma formula_great_circle (lat1 lon1 lat2 lon2 : R) :
  -90 <= lat1 <= 90 -> -90 <= lat2 <= 90 ->
  distance Real.numbers lat1 lon1 lat2 lon2 =
  Real.greatCircleDistance 6371000 lat1 lon1 lat2 lon2.
Proof.
  intros H1 H2. unfold distance, radians, half, Real.greatCircleDistance,
    Real.centralAngle. cbn [add sub mul div sqrt sin cos atan2 pi of_Z Real.numbers].
  change (IZR DistanceSpec.earthRadius) with 6371000.
  rewrite <- haversine_dot. cbv zeta.
  rewrite central_angle; [reflexivity|].
  apply (haversine_range lat1 lon1 lat2 lon2 H1 H2).
Qed.

End RealFacts.

Section DistanceClaims.
Import DistanceSpec WaterBodyService.

(** A double of magnitude at most [M * 2^E] is small. *)
Lemma bounded_small (x : JS.number) (M : positive) (E : Z) :
  JS.is_double x = true ->
  SFleb (SFabs x) (S754_finite false M E) = true ->
  small 53 E x.
Proof.
  intros Hd Hle. destruct x as [s|s| |s m e]; try discriminate Hle.
  - exact I.
  - split; [now apply (double_mantissa s m e)|].
    unfold SFleb, SFabs, SFcompare in Hle.
    destruct (Z.compare_spec e E); try discriminate Hle; lia.
Qed.

Lemma small_PI : small 53 (-51) JS.Math_PI.
Proof. split; [reflexivity|apply Z.le_refl]. Qed.

Lemma toRadians_small (lat : JS.number) :
  validLatitude lat = true -> small 108 374 (toRadians lat).
Proof.
  unfold validLatitude. intros H. apply andb_prop in H as [Hd Hle].
  change (JS.of_Z 90) with (S754_finite false 6333186975989760 (-46)) in Hle.
  pose proof (bounded_small lat _ _ Hd Hle) as Hs.
  pose proof (mul_small (-46) (-51) lat JS.Math_PI
                ltac:(easy) ltac:(easy) Hs small_PI) as Hm.
  unfold toRadians.
  change (JS.of_Z 180) with (S754_finite false 6333186975989760 (-45)).
  apply (div_small 115 _ false 6333186975989760 (-45)); easy.
Qed.

Lemma cos_small (M : JS.MathLibrary) (x : JS.number) :
  JS.conforming M -> JS.is_finite x = true -> small 53 (-52) (JS.Math_cos M x).
Proof.
  intros HM Hx. destruct (JS.cos_range M HM x Hx) as [Hd Hle].
  change (JS.of_Z 1) with (S754_finite false 4503599627370496 (-52)) in Hle.
  now apply bounded_small in Hle.
Qed.

(** A small number times [+0] times [+0], added to [+0], is [+0]. *)
Lemma zero_term (D E : Z) (t : JS.number) :
  small D E t ->
  JS.add JS.pos_zero (JS.mul (JS.mul t JS.pos_zero) JS.pos_zero) = JS.pos_zero.
Proof. destruct t as [[|]|s| |[|] m e]; try contradiction; reflexivity. Qed.

Lemma haversine_zero (M : JS.MathLibrary) (phi : JS.number) :
  JS.conforming M -> JS.is_finite phi = true ->
  haversine M phi phi JS.pos_zero JS.pos_zero = JS.pos_zero.
Proof.
  intros HM Hphi. unfold haversine.
  change (JS.div JS.pos_zero (JS.of_Z 2)) with JS.pos_zero.
  rewrite (JS.sin_pos_zero M HM).
  change (JS.mul JS.pos_zero JS.pos_zero) with JS.pos_zero.
  pose proof (cos_small M phi HM Hphi) as Hc.
  pose proof (mul_small (-52) (-52) _ _ ltac:(easy) ltac:(easy) Hc Hc) as Ht.
  exact (zero_term _ _ _ Ht).
Qed.

Lemma smallAngles_conforming : JS.conforming smallAngles.
Proof.
  constructor; simpl.
  - reflexivity.
  - intros x _. split; reflexivity.
  - reflexivity.
Qed.

End DistanceClaims.

Section HaversineClaim.
Import DistanceSpec WaterBodyService.
Import Reals.


Lemma quarter_of_the_equator :
  Haversine.Real.greatCircleDistance 6371000 0 0 0 90 = (6371000 * (PI / 2))%R.
Proof.
  unfold Haversine.Real.greatCircleDistance, Haversine.Real.centralAngle,
    Haversine.Real.onSphere, Haversine.Real.dot.
  f_equal.
  replace (0 * PI / 180)%R with 0%R by Lra.lra.
  replace (90 * PI / 180)%R with (PI / 2)%R by Lra.lra.
  rewrite cos_PI2, sin_0, cos_0.
  rewrite <- acos_0. f_equal. Lra.lra.
Qed.


End HaversineClaim.

(** ** The selection list: what it shows and what it offers *)

Section ListFacts.
Import WaterBodySearchResult WaterBodyGrouping GroupingSpec.
Import WaterBodySelectionList SelectionHandlers.
Implicit Types (c : WaterBodySearchResult.t) (l : list WaterBodySearchResult.t).

Lemma communityIds_nil l :
  communityIds l = [] <-> Forall (fun c => groupingKey c = None) l.
Proof.
  unfold communityIds. induction l as [|c l IH]; simpl.
  - split; [constructor|reflexivity].
  - destruct (groupingKey c) as [k|] eqn:E; simpl.
    + split; [discriminate|]. intros H. inversion H. congruence.
    + rewrite IH. split; [now constructor|]. intros H. now inversion H.
Qed.

Lemma firstSeen_nil (ks : list string) : firstSeen ks = [] <-> ks = [].
Proof. destruct ks; simpl; split; intros H; try reflexivity; discriminate. Qed.

Lemma filter_nil {A : Type} (f : A -> bool) (xs : list A) :
  filter f xs = [] <-> Forall (fun x => f x = false) xs.
Proof.
  induction xs as [|x xs IH]; simpl.
  - split; [constructor|reflexivity].
  - destruct (f x) eqn:E.
    + split; [discriminate|]. intros H. inversion H. congruence.
    + rewrite IH. split; [now constructor|]. intros H. now inversion H.
Qed.

(** The results pane is in its empty state exactly when every candidate
    is hidden. *)
Lemma render_NoResults l showOSM :
  render l showOSM = NoResults <-> Forall (ViewSpec.hidden showOSM) l.
Proof.
  unfold render, renderResults, ViewSpec.hidden.
  rewrite getGroupedCandidates_closed_form.
  cbn [GroupedCandidatesResult.groups GroupedCandidatesResult.osmCandidates].
  rewrite length_map.
  assert (K : forall c, groupingKey c = None <->
                        (isOSM c = true \/
                         JS.truthy_opt_string (sharedWaterBodyId c) = false)).
  { intros c. unfold groupingKey, JS.truthy_opt_string.
    destruct (isOSM c); [split; [now left|reflexivity]|].
    destruct (sharedWaterBodyId c) as [k|]; [|split; [now right|reflexivity]].
    destruct (JS.truthy_string k); split; try discriminate.
    - intros [H|H]; discriminate.
    - now right.
    - reflexivity. }
  destruct (Nat.eqb_spec
              (List.length (firstSeen (communityIds l))
               + List.length (osmOf showOSM l)) 0) as [E|E].
  - split; [intros _|reflexivity].
    assert (E1 : firstSeen (communityIds l) = [])
      by (apply length_zero_iff_nil; lia).
    assert (E2 : osmOf showOSM l = []) by (apply length_zero_iff_nil; lia).
    apply firstSeen_nil, communityIds_nil in E1.
    rewrite Forall_forall in *. intros c Hc. specialize (E1 c Hc).
    apply K in E1. destruct (isOSM c) eqn:Ec.
    + unfold osmOf in E2. destruct showOSM; [|reflexivity].
      apply filter_nil in E2. rewrite Forall_forall in E2.
      specialize (E2 c Hc). congruence.
    + destruct E1 as [E1|E1]; [discriminate|exact E1].
  - split; [discriminate|]. intros H. exfalso. apply E.
    assert (E1 : communityIds l = []).
    { apply communityIds_nil. rewrite Forall_forall in *. intros c Hc.
      apply K. specialize (H c Hc). destruct (isOSM c); [now left|now right]. }
    assert (E2 : osmOf showOSM l = []).
    { unfold osmOf. destruct showOSM; [|reflexivity].
      apply filter_nil. rewrite Forall_forall in *. intros c Hc.
      specialize (H c Hc). destruct (isOSM c); [discriminate|reflexivity]. }
    now rewrite E1, E2.
Qed.

Lemma errorMessage_truthy (err : Backend.Failure.t) :
  JS.truthy_string (SelectionListState.errorMessage err) = true.
Proof.
  unfold SelectionListState.errorMessage, JS.string_or.
  destruct (JSString.or_else _ _) as [s|]; [|reflexivity].
  now destruct (JS.truthy_string s) eqn:E.
Qed.

Lemma truthy_string_empty (s : string) :
  JS.truthy_string s = false <-> s = "".
Proof.
  unfold JS.truthy_string. destruct (String.eqb_spec s ""); split; intros H;
    try reflexivity; try assumption; try discriminate. contradiction.
Qed.


Lemma In_buttons_mapi_OSMCard (os : list WaterBodySearchResult.t) (i : nat)
    (sel : WaterBodySelection.t) :
  In sel (flat_map buttons (mapi OSMCard i os)) <->
  exists c, In c os /\ sel = selectOSMWaterBody c.
Proof.
  revert i. induction os as [|o os IH]; intros i; simpl.
  - split; [easy|]. now intros [c [H _]].
  - rewrite IH. split.
    + intros [<-|[c [H1 H2]]]; [exists o|exists c]; auto.
    + intros [c [[->|H1] H2]]; [now left|right; now exists c].
Qed.

Lemma In_offered l showOSM (sel : WaterBodySelection.t) :
  In sel (offered l showOSM) <->
  (exists g, In g (GroupedCandidatesResult.groups (getGroupedCandidates l showOSM))
             /\ In sel (buttons (CommunityCard g))) \/
  (exists c, In c (GroupedCandidatesResult.osmCandidates
                     (getGroupedCandidates l showOSM))
             /\ sel = selectOSMWaterBody c).
Proof.
  unfold offered, render, renderResults.
  destruct (getGroupedCandidates l showOSM) as [gs os].
  cbn [GroupedCandidatesResult.groups GroupedCandidatesResult.osmCandidates].
  destruct (Nat.eqb_spec (List.length gs + List.length os) 0) as [E|E].
  - assert (E1 : gs = []) by (apply length_zero_iff_nil; lia).
    assert (E2 : os = []) by (apply length_zero_iff_nil; lia).
    subst. split; [easy|]. now intros [[g [H _]]|[c [H _]]].
  - rewrite flat_map_app, in_app_iff, In_buttons_mapi_OSMCard.
    rewrite flat_map_concat_map, map_map, <- flat_map_concat_map, in_flat_map.
    reflexivity.
Qed.

Lemma groupOf_header l (k : string) first :
  find (belongsTo k) l = Some first ->
  GroupedWaterBody.name (groupOf l k) = name first /\
  GroupedWaterBody.type (groupOf l k) = type first /\
  GroupedWaterBody.distance (groupOf l k) = distance first.
Proof.
  rewrite find_filter. unfold groupOf. simpl.
  destruct (filter (belongsTo k) l) as [|c cs]; [discriminate|].
  simpl. now intros [= ->].
Qed.

Lemma first_of_key l (k : string) :
  In k (communityIds l) -> exists first, find (belongsTo k) l = Some first.
Proof.
  intros H. destruct (find (belongsTo k) l) as [c|] eqn:E; [now exists c|].
  exfalso. unfold communityIds in H. apply in_flat_map in H as [c [Hc Hk]].
  pose proof (find_none _ _ E c Hc) as N. unfold belongsTo in N.
  destruct (groupingKey c) as [k'|]; [|easy].
  destruct Hk as [->|[]]. now rewrite String.eqb_refl in N.
Qed.

Lemma belongsTo_communityIds l (k : string) c :
  In c l -> belongsTo k c = true -> In k (communityIds l).
Proof.
  intros Hc Hk. unfold communityIds. apply in_flat_map. exists c.
  split; [assumption|]. unfold belongsTo in Hk.
  destruct (groupingKey c) as [k'|]; [|discriminate].
  apply String.eqb_eq in Hk. subst. now left.
Qed.

Lemma In_offered_iff l showOSM (sel : WaterBodySelection.t) :
  In sel (offered l showOSM) <->
  (exists k first,
      In k (communityIds l) /\ find (belongsTo k) l = Some first /\
      (sel = SelectionSpec.communitySelection k first None \/
       exists c, In c l /\ belongsTo k c = true /\ hasSectionName c = true /\
                 sel = SelectionSpec.communitySelection k first (Some c))) \/
  (showOSM = true /\
   exists c, In c l /\ isOSM c = true /\ sel = selectOSMWaterBody c).
Proof.
  rewrite In_offered.
  assert (S : forall c, hasSectionName c = true ->
                        Some (SectionEntry.sectionName (sectionEntry c)) =
                        sectionName c).
  { intros c. unfold hasSectionName, sectionEntry, JS.truthy_opt_string. simpl.
    destruct (sectionName c) as [s|]; [|discriminate]. simpl. now intros ->. }
  assert (B : forall k first, find (belongsTo k) l = Some first ->
              forall s,
                In s (buttons (CommunityCard (groupOf l k))) <->
                (s = SelectionSpec.communitySelection k first None \/
                 exists c, In c l /\ belongsTo k c = true /\
                           hasSectionName c = true /\
                           s = SelectionSpec.communitySelection k first (Some c))).
  { intros k first Hf s.
    destruct (groupOf_header l k first Hf) as [Hn [Ht _]].
    assert (E1 : selectWaterBodyWithoutSection (groupOf l k) =
                 SelectionSpec.communitySelection k first None).
    { unfold selectWaterBodyWithoutSection, SelectionSpec.communitySelection.
      now rewrite Hn, Ht. }
    assert (E2 : forall c, hasSectionName c = true ->
                 selectSection (groupOf l k) (sectionEntry c) =
                 SelectionSpec.communitySelection k first (Some c)).
    { intros c Hc. unfold selectSection, SelectionSpec.communitySelection.
      rewrite Hn, Ht, (S c Hc). reflexivity. }
    cbn [buttons]. rewrite in_app_iff, in_map_iff.
    cbn [GroupedWaterBody.sections groupOf]. split.
    - intros [[e [He1 He2]]|[<-|[]]]; [right|now left].
      apply in_map_iff in He2 as [c [<- Hc]].
      apply filter_In in Hc as [Hc Hs]. apply filter_In in Hc as [Hc Hk].
      exists c. rewrite <- He1. now rewrite E2.
    - intros [->|[c [Hc [Hk [Hs ->]]]]]; [right; left; now symmetry|left].
      exists (sectionEntry c). split; [now apply E2|].
      apply in_map, filter_In. split; [|assumption].
      apply filter_In. now split. }
  rewrite getGroupedCandidates_closed_form.
  cbn [GroupedCandidatesResult.groups GroupedCandidatesResult.osmCandidates].
  split.
  - intros [[g [Hg Hs]]|[c [Hc ->]]].
    + left. apply in_map_iff in Hg as [k [<- Hk]].
      apply (proj1 (firstSeen_In _ _)) in Hk.
      destruct (first_of_key l k Hk) as [first Hf].
      exists k, first. split; [assumption|]. split; [assumption|].
      now apply (B k first Hf).
    + right. unfold osmOf in Hc. destruct showOSM; [|easy].
      split; [reflexivity|]. apply filter_In in Hc as [Hc Ho]. now exists c.
  - intros [[k [first [Hk [Hf Hs]]]]|[-> [c [Hc [Ho ->]]]]].
    + left. exists (groupOf l k). split.
      * apply in_map, (proj2 (firstSeen_In _ _)), Hk.
      * now apply (B k first Hf).
    + right. exists c. split; [|reflexivity]. now apply filter_In.
Qed.

(** X2.  The selections the list offers are these and no others: for each
    water body of the community candidates, the selection without section
    and one selection per candidate of it that has a section name; and,
    when the toggle is on, one selection per OSM candidate.  A community
    selection carries the id of the water body, the name and the type of
    the first candidate of that water body, and the section name, id
    (the empty string when missing) and index ([0] when missing) of the
    candidate of the section. *)
Theorem offered_selections l showOSM (sel : WaterBodySelection.t) :
  In sel (offered l showOSM) <->
  (exists k first,
      In k (communityIds l) /\ find (belongsTo k) l = Some first /\
      (sel = SelectionSpec.communitySelection k first None \/
       exists c, In c l /\ belongsTo k c = true /\ hasSectionName c = true /\
                 sel = SelectionSpec.communitySelection k first (Some c))) \/
  (showOSM = true /\
   exists c, In c l /\ isOSM c = true /\ sel = selectOSMWaterBody c).
Proof. apply In_offered_iff. Qed.

End ListFacts.

(** ** Saving a selection of the list *)

Section SaveSelection.
Import WaterBodySearchResult WaterBodyGrouping GroupingSpec.
Import WaterBodySelectionList SelectionHandlers Backend ConfirmSelection.
Implicit Types (c : WaterBodySearchResult.t) (l : list WaterBodySearchResult.t).
Variable strings : JSString.StringLibrary.
Variable osmTypeOf : string -> option string.
Variable api : Api.
Variable now : string.
Variable location : Coordinates.t.
Variable form : Form.t.

Lemma communityIds_truthy l (k : string) :
  In k (communityIds l) -> JS.truthy_string k = true.
Proof.
  unfold communityIds. intros H. apply in_flat_map in H as [c [_ H]].
  unfold groupingKey in H. destruct (isOSM c); [easy|].
  destruct (sharedWaterBodyId c) as [k'|]; [|easy].
  destruct (JS.truthy_string k') eqn:E; [|easy].
  destruct H as [->|[]]. exact E.
Qed.

Lemma truthy_Some (o : option string) :
  JS.truthy_opt_string o = true -> JSString.truthy o = o.
Proof.
  destruct o as [s|]; [|discriminate]. simpl. unfold JSString.or_undefined.
  now intros ->.
Qed.

Lemma save_community (sel : WaterBodySelection.t) :
  WaterBodySelection.source sel = "shared_database" ->
  JS.truthy_opt_string (WaterBodySelection.sharedWaterBodyId sel) = true ->
  save strings osmTypeOf api now sel location form =
  let sent := JS.truthy_opt_string (WaterBodySelection.sectionId sel) in
  let activityData :=
    activityDataOf strings now location form
      (WaterBodySelection.sharedWaterBodyId sel)
      (if sent then WaterBodySelection.sectionId sel else None)
      (if sent then WaterBodySelection.sectionName sel else None) in
  ([CreateManualActivity activityData], createManualActivity api activityData).
Proof.
  intros Hs Hk. unfold save, resolveWaterBody, isOSMWaterBody, isSection.
  rewrite Hs, Hk. simpl.
  destruct (JS.truthy_opt_string (WaterBodySelection.sectionId sel));
    simpl; now destruct (createManualActivity api _).
Qed.

(** X3.  Saving a community selection that the list offers sends one request
    and no other, the creation of the activity: for the water body of the
    selection and at the location given to the screen.  The section id
    and the section name of the selection are sent when the section id is
    not empty, and neither of them otherwise.  The alert reports success
    exactly when the backend accepts the request. *)
Theorem saving_an_offered_community_selection l showOSM
    (sel : WaterBodySelection.t) :
  In sel (offered l showOSM) ->
  WaterBodySelection.source sel = "shared_database" ->
  exists activityData,
    Saved.calls (handleSave strings osmTypeOf api now sel location form) =
    [CreateManualActivity activityData] /\
    ActivityData.sharedWaterBodyId activityData =
    WaterBodySelection.sharedWaterBodyId sel /\
    JS.truthy_opt_string (ActivityData.sharedWaterBodyId activityData) = true /\
    ActivityData.latitude activityData = Coordinates.latitude location /\
    ActivityData.longitude activityData = Coordinates.longitude location /\
    (if JS.truthy_opt_string (WaterBodySelection.sectionId sel)
     then ActivityData.sectionId activityData = WaterBodySelection.sectionId sel /\
          ActivityData.sectionName activityData =
          WaterBodySelection.sectionName sel
     else ActivityData.sectionId activityData = None /\
          ActivityData.sectionName activityData = None) /\
    (Alert.title (Saved.alert
                    (handleSave strings osmTypeOf api now sel location form))
     = "Success" <->
     createManualActivity api activityData = inr tt).
Proof.
  intros Hin Hsrc. apply In_offered_iff in Hin.
  destruct Hin as [[k [first [Hk [Hf Hsel]]]]|[_ [c [_ [_ ->]]]]];
    [|discriminate Hsrc].
  pose proof (communityIds_truthy l k Hk) as Tk.
  assert (Hid : WaterBodySelection.sharedWaterBodyId sel = Some k)
    by (destruct Hsel as [->|[c [_ [_ [_ ->]]]]]; reflexivity).
  assert (Hname : JS.truthy_opt_string (WaterBodySelection.sectionId sel) = true ->
                  JS.truthy_opt_string (WaterBodySelection.sectionName sel) = true).
  { destruct Hsel as [->|[c [_ [_ [Hs ->]]]]]; [discriminate|].
    intros _. exact Hs. }
  assert (Tid : JS.truthy_opt_string
                  (WaterBodySelection.sharedWaterBodyId sel) = true)
    by (rewrite Hid; exact Tk).
  unfold handleSave. rewrite (save_community sel Hsrc Tid). cbv zeta.
  eexists. split; [reflexivity|]. split; [reflexivity|].
  split; [exact Tid|]. split; [reflexivity|]. split; [reflexivity|]. split.
  - cbn [ActivityData.sectionId ActivityData.sectionName activityDataOf].
    destruct (JS.truthy_opt_string (WaterBodySelection.sectionId sel)) eqn:E.
    + split; apply truthy_Some; [exact E|now apply Hname].
    + split; reflexivity.
  - cbn [Saved.alert Alert.title].
    destruct (createManualActivity api _) as [e|[]]; split; try reflexivity;
      discriminate.
Qed.

(** X4.  The section of a candidate that has a section name and no section id
    is offered by the list, and saving that selection sends an activity
    without section: neither the id nor the name of the section. *)
Theorem legacy_section_is_saved_without_section l showOSM c (k : string) first :
  In c l -> groupingKey c = Some k -> find (belongsTo k) l = Some first ->
  hasSectionName c = true -> hasSectionId c = false ->
  let sel := SelectionSpec.communitySelection k first (Some c) in
  In sel (offered l showOSM) /\
  WaterBodySelection.sectionName sel = sectionName c /\
  exists activityData,
    Saved.calls (handleSave strings osmTypeOf api now sel location form) =
    [CreateManualActivity activityData] /\
    ActivityData.sharedWaterBodyId activityData = Some k /\
    ActivityData.sectionId activityData = None /\
    ActivityData.sectionName activityData = None.
Proof.
  intros Hc Hk Hf Hs Hi sel.
  assert (Bk : belongsTo k c = true)
    by (unfold belongsTo; rewrite Hk; apply String.eqb_refl).
  assert (Ik : In k (communityIds l)) by (eapply belongsTo_communityIds; eauto).
  split; [|split; [reflexivity|]].
  - apply In_offered_iff. left. exists k, first.
    split; [assumption|]. split; [assumption|]. right. now exists c.
  - unfold handleSave. rewrite (save_community sel eq_refl).
    + cbv zeta. eexists. split; [reflexivity|]. split; [reflexivity|].
      assert (E : JS.truthy_opt_string (WaterBodySelection.sectionId sel) = false).
      { unfold sel. simpl. unfold hasSectionId, JS.truthy_opt_string in Hi.
        unfold JS.string_or. destruct (sectionId c) as [i|]; [|reflexivity].
        now rewrite Hi. }
      cbn [ActivityData.sectionId ActivityData.sectionName activityDataOf].
      rewrite E. split; reflexivity.
    + simpl. now apply (communityIds_truthy l).
Qed.

End SaveSelection.

(** ** The search over the candidates, its list and its confirmation *)

Section StringFacts.

Lemma split_hyphenFree (s : string) :
  CandidateSpec.hyphenFree s = true -> JSString.split "-" s = [s].
Proof.
  induction s as [|c s IH]; simpl; [reflexivity|].
  intros H. apply andb_prop in H as [Hc Hs]. apply negb_true_iff in Hc.
  rewrite Hc, (IH Hs). reflexivity.
Qed.

Lemma split_piece (s rest : string) :
  CandidateSpec.hyphenFree s = true ->
  JSString.split "-" (s ++ String "-" rest) = s :: JSString.split "-" rest.
Proof.
  induction s as [|c s IH]; simpl; [reflexivity|].
  intros H. apply andb_prop in H as [Hc Hs]. apply negb_true_iff in Hc.
  rewrite Hc, (IH Hs). reflexivity.
Qed.

Lemma truthy_spec (o : option string) :
  match JSString.truthy o with
  | Some s => o = Some s /\ JS.truthy_string s = true
  | None => JS.truthy_opt_string o = false
  end.
Proof.
  destruct o as [s|]; simpl; [|reflexivity]. unfold JSString.or_undefined.
  destruct (JS.truthy_string s) eqn:E; auto.
Qed.

Lemma truthy_is_Some (o : option string) :
  JS.truthy_opt_string o = true -> exists s, JSString.truthy o = Some s /\ o = Some s.
Proof.
  destruct o as [s|]; [|discriminate]. simpl. unfold JSString.or_undefined.
  intros ->. now exists s.
Qed.

Lemma truthy_is_None (o : option string) :
  JS.truthy_opt_string o = false -> JSString.truthy o = None.
Proof.
  destruct o as [s|]; [|reflexivity]. simpl. unfold JSString.or_undefined.
  now intros ->.
Qed.

Lemma startsWith_app (p x : string) : JSString.startsWith (p ++ x) p = true.
Proof.
  unfold JSString.startsWith. induction p as [|a p IH]; simpl.
  - now destruct x.
  - destruct (ascii_dec a a) as [_|N]; [exact IH|now destruct N].
Qed.

End StringFacts.

Section CandidateFacts.
Import CandidateSearch CandidateSpec.
Implicit Types (c : Candidate.t) (r : Result.t).

(** The three branches of [resultOf]. *)
Lemma resultOf_ofSection c :
  ofSection c = true ->
  exists sectionName sectionId,
    sectionNameOf c = Some sectionName /\ Candidate.sectionId c = Some sectionId /\
    resultOf c =
    Some {| Result.type := section;
            Result.id := sectionId;
            Result.name := Candidate.name c ++ " - " ++ sectionName;
            Result.sharedWaterBody :=
              Some {| SharedWaterBody._id := waterBodyIdOf c;
                      SharedWaterBody.name := Candidate.name c;
                      SharedWaterBody.location := point (coordinatesOf c) |};
            Result.section :=
              Some {| SharedWaterBodySection._id := sectionId;
                      SharedWaterBodySection.sharedWaterBody := waterBodyIdOf c;
                      SharedWaterBodySection.sectionName := sectionName;
                      SharedWaterBodySection.location := point (coordinatesOf c) |};
            Result.distance := Candidate.distance c |} /\
    JS.truthy_string sectionName = true /\ JS.truthy_string sectionId = true.
Proof.
  intros H. unfold coordinatesOf. rewrite H. unfold ofSection in H.
  apply andb_prop in H as [H1 H2].
  destruct (truthy_is_Some _ H1) as [n [T1 E1]].
  destruct (truthy_is_Some _ H2) as [i [T2 E2]].
  exists n, i. unfold resultOf. fold (sectionNameOf c). fold (waterBodyIdOf c).
  rewrite T1, T2. repeat split; try assumption.
  - rewrite E1 in H1. exact H1.
  - rewrite E2 in H2. exact H2.
Qed.

Lemma resultOf_not_ofSection c :
  ofSection c = false ->
  resultOf c =
  match JSString.truthy (Candidate.osmId c) with
  | Some osmId =>
      Some {| Result.type := shared;
              Result.id := "osm-" ++ JSString.interpolate (Candidate.osmType c)
                                  ++ "-" ++ osmId;
              Result.name := Candidate.name c;
              Result.sharedWaterBody :=
                Some {| SharedWaterBody._id := Some osmId;
                        SharedWaterBody.name := Candidate.name c;
                        SharedWaterBody.location := point (coordinatesOf c) |};
              Result.section := None;
              Result.distance := Candidate.distance c |}
  | None =>
      match JSString.truthy (waterBodyIdOf c) with
      | Some waterBodyId =>
          Some {| Result.type := shared;
                  Result.id := waterBodyId;
                  Result.name := Candidate.name c;
                  Result.sharedWaterBody :=
                    Some {| SharedWaterBody._id := Some waterBodyId;
                            SharedWaterBody.name := Candidate.name c;
                            SharedWaterBody.location := point (coordinatesOf c) |};
                  Result.section := None;
                  Result.distance := Candidate.distance c |}
      | None => None
      end
  end.
Proof.
  intros H. unfold coordinatesOf. rewrite H. unfold ofSection in H.
  unfold resultOf. fold (sectionNameOf c). fold (waterBodyIdOf c).
  pose proof (truthy_spec (sectionNameOf c)) as S1.
  pose proof (truthy_spec (Candidate.sectionId c)) as S2.
  destruct (JSString.truthy (sectionNameOf c)) as [n|];
    [|reflexivity].
  destruct (JSString.truthy (Candidate.sectionId c)) as [i|];
    [|reflexivity].
  destruct S1 as [E1 T1], S2 as [E2 T2]. rewrite E1, E2 in H. simpl in H.
  rewrite T1, T2 in H. discriminate.
Qed.

Lemma resultOf_usable c : usable c = true <-> resultOf c <> None.
Proof.
  unfold usable, ofOSM, ofWaterBody.
  destruct (ofSection c) eqn:S.
  - destruct (resultOf_ofSection c S) as [n [i [_ [_ [-> _]]]]]. simpl.
    split; [discriminate|reflexivity].
  - rewrite (resultOf_not_ofSection c S). simpl.
    pose proof (truthy_spec (Candidate.osmId c)) as S1.
    pose proof (truthy_spec (waterBodyIdOf c)) as S2.
    destruct (JSString.truthy (Candidate.osmId c)) as [o|].
    + destruct S1 as [-> T]. simpl. rewrite T. split; [discriminate|reflexivity].
    + rewrite S1. simpl.
      destruct (JSString.truthy (waterBodyIdOf c)) as [w|].
      * destruct S2 as [-> T]. simpl. rewrite T.
        split; [discriminate|reflexivity].
      * rewrite S2. split; [discriminate|]. now intros H.
Qed.

(** The id of the result of a candidate. *)
Lemma resultOf_id c r :
  resultOf c = Some r ->
  if ofOSM c
  then exists osmId, Candidate.osmId c = Some osmId /\
                     JS.truthy_string osmId = true /\
                     Result.id r = "osm-" ++ JSString.interpolate (Candidate.osmType c)
                                          ++ "-" ++ osmId
  else communityId c = Some (Result.id r).
Proof.
  unfold ofOSM, communityId. destruct (ofSection c) eqn:S; simpl.
  - destruct (resultOf_ofSection c S) as [n [i [_ [Ei [-> _]]]]].
    intros [= <-]. exact Ei.
  - rewrite (resultOf_not_ofSection c S).
    pose proof (truthy_spec (Candidate.osmId c)) as S1.
    pose proof (truthy_spec (waterBodyIdOf c)) as S2.
    destruct (JSString.truthy (Candidate.osmId c)) as [o|].
    + destruct S1 as [E T]. rewrite E. simpl. rewrite T.
      intros [= <-]. now exists o.
    + rewrite S1. destruct (JSString.truthy (waterBodyIdOf c)) as [w|];
        [|discriminate].
      destruct S2 as [E T]. intros [= <-]. exact E.
Qed.

Lemma In_resultsOf (candidates : list Candidate.t) r :
  In r (resultsOf candidates) <->
  exists c, In c candidates /\ resultOf c = Some r.
Proof.
  unfold resultsOf. rewrite in_flat_map. split; intros [c [Hc H]]; exists c;
    (split; [assumption|]).
  - destruct (resultOf c) as [r'|]; [|easy]. destruct H as [->|[]]. reflexivity.
  - rewrite H. now left.
Qed.

Lemma length_resultsOf (candidates : list Candidate.t) :
  List.length (resultsOf candidates) = List.length (filter usable candidates).
Proof.
  unfold resultsOf. induction candidates as [|c l IH]; simpl; [reflexivity|].
  rewrite length_app, IH. pose proof (resultOf_usable c) as U.
  destruct (resultOf c) as [r|].
  - rewrite (proj2 U) by discriminate. reflexivity.
  - destruct (usable c); [|reflexivity]. now destruct (proj1 U eq_refl).
Qed.

Lemma osm_id_of c r :
  resultOf c = Some r -> ofOSM c = true -> CreateActivityScreen.isOSM r = true.
Proof.
  intros H O. apply resultOf_id in H. rewrite O in H.
  destruct H as [o [_ [_ E]]]. unfold CreateActivityScreen.isOSM.
  rewrite E. apply startsWith_app.
Qed.

Lemma community_id_of c r :
  resultOf c = Some r -> ofOSM c = false -> plainId (communityId c) = true ->
  CreateActivityScreen.isOSM r = false.
Proof.
  intros H O P. apply resultOf_id in H. rewrite O in H. rewrite H in P.
  simpl in P. now apply negb_true_iff in P.
Qed.

(** X5.  A row of the list gets the OSM icon and label when its candidate is
    one of OpenStreetMap; and a row of a community candidate gets the
    community icon and label, provided that its id does not begin with
    [osm-]. *)
Theorem osm_rows_are_recognised c r :
  resultOf c = Some r ->
  (ofOSM c = true -> CreateActivityScreen.isOSM r = true) /\
  (ofOSM c = false -> plainId (communityId c) = true ->
   CreateActivityScreen.isOSM r = false).
Proof.
  intros H. split; [now apply osm_id_of|now apply community_id_of].
Qed.

Lemma searchCombined_answer
    (api_get : Request -> Backend.Failure.t + ResponseData.t)
    (latitude longitude : JS.number) (query : option string)
    (isMapSelected : bool) (data : ResponseData.t) (response : Response.t) :
  api_get (requestOf latitude longitude query isMapSelected) = inr data ->
  searchCombined api_get latitude longitude query isMapSelected = inr response ->
  response = responseOf data.
Proof. unfold searchCombined. intros ->. now intros [= <-]. Qed.

Lemma listed_responseOf (data : ResponseData.t) (showOSM : bool) r :
  Forall (fun c => ofOSM c = false -> plainId (communityId c) = true)
         (array_or (ResponseData.waterBodies data) []) ->
  (In r (CreateActivityScreen.listData (Response.results (responseOf data))
                                       showOSM) <->
   exists c, In c (array_or (ResponseData.waterBodies data) []) /\
             resultOf c = Some r /\
             (showOSM = true \/ ofOSM c = false)) /\
  List.length (Response.results (responseOf data)) =
  List.length (filter usable (array_or (ResponseData.waterBodies data) [])).
Proof.
  set (candidates := array_or (ResponseData.waterBodies data) []).
  set (results := Response.results (responseOf data)).
  intros Hplain. split.
  - unfold CreateActivityScreen.listData. rewrite filter_In.
    assert (M : In r results <-> In r (resultsOf candidates)).
    { unfold results, responseOf, WaterBodyService.sortByDefinedDistance.
      cbn [Response.results]. fold candidates.
      split; apply Permutation_in;
        [symmetry|]; apply sort_Permutation. }
    rewrite M, In_resultsOf. rewrite Forall_forall in Hplain.
    split.
    + intros [[c [Hc Hr]] Hs]. exists c. split; [assumption|].
      split; [assumption|].
      destruct showOSM; [now left|right]. simpl in Hs.
      destruct (ofOSM c) eqn:O; [|reflexivity].
      pose proof (osm_id_of c r Hr O) as E.
      fold (CreateActivityScreen.isOSM r) in Hs.
      rewrite E in Hs. discriminate.
    + intros [c [Hc [Hr Hs]]]. split; [now exists c|].
      destruct showOSM; [reflexivity|]. simpl.
      destruct Hs as [Hs|Hs]; [discriminate|].
      fold (CreateActivityScreen.isOSM r).
      now rewrite (community_id_of c r Hr Hs (Hplain c Hc Hs)).
  - unfold results, responseOf, WaterBodyService.sortByDefinedDistance.
    cbn [Response.results]. fold candidates.
    rewrite <- (Permutation_length (sort_Permutation _ (resultsOf candidates))).
    apply length_resultsOf.
Qed.

(** X6.  The list shows the results of [searchCombined]: one row for each
    usable candidate of the answer of the backend, and, while the toggle
    is off, for each one that is not of OpenStreetMap; the ids of the
    community candidates are taken not to begin with [osm-].  There are
    as many results as usable candidates. *)
Theorem listed_results
    (api_get : Request -> Backend.Failure.t + ResponseData.t)
    (latitude longitude : JS.number) (query : option string)
    (isMapSelected : bool) (data : ResponseData.t) (response : Response.t)
    (showOSM : bool) r :
  api_get (requestOf latitude longitude query isMapSelected) = inr data ->
  searchCombined api_get latitude longitude query isMapSelected = inr response ->
  Forall (fun c => ofOSM c = false -> plainId (communityId c) = true)
         (array_or (ResponseData.waterBodies data) []) ->
  (In r (CreateActivityScreen.listData (Response.results response) showOSM) <->
   exists c, In c (array_or (ResponseData.waterBodies data) []) /\
             resultOf c = Some r /\
             (showOSM = true \/ ofOSM c = false)) /\
  List.length (Response.results response) =
  List.length (filter usable (array_or (ResponseData.waterBodies data) [])).
Proof.
  intros Hapi Hsearch Hplain.
  rewrite (searchCombined_answer _ _ _ _ _ _ _ Hapi Hsearch).
  now apply listed_responseOf.
Qed.

End CandidateFacts.

Section SaveSearchResult.
Import CandidateSearch CandidateSpec Backend ConfirmSearchResult.
Implicit Types (c : Candidate.t) (r : Result.t).
Variable strings : JSString.StringLibrary.
Variable api : Api.
Variable location : Coordinates.t.
Variable form : Form.t.

Lemma osmParts_of c r :
  resultOf c = Some r -> ofOSM c = true -> hyphenFreeOSM c = true ->
  osmParts r = (Some (JSString.interpolate (Candidate.osmType c)),
                Candidate.osmId c).
Proof.
  intros H O F. apply resultOf_id in H. rewrite O in H.
  destruct H as [o [Eo [_ E]]]. unfold hyphenFreeOSM in F.
  rewrite Eo in F. apply andb_prop in F as [Ft Fo].
  unfold osmParts. rewrite E.
  change ("osm-" ++ JSString.interpolate (Candidate.osmType c) ++ "-" ++ o)
    with ("osm" ++ String "-"
            (JSString.interpolate (Candidate.osmType c) ++ String "-" o)).
  rewrite (split_piece "osm") by reflexivity.
  rewrite (split_piece _ o Ft), (split_hyphenFree o Fo), Eo. reflexivity.
Qed.

(** X7.  The id that [searchCombined] makes up for a candidate of
    OpenStreetMap is taken apart again by the confirmation screen: when
    neither the type nor the id of the candidate holds a hyphen, the
    screen recovers both, and the first request it sends asks the backend
    for a match of that id and type, under the name of the candidate and
    at the location given to the screen. *)
Theorem osm_id_round_trip c r :
  resultOf c = Some r -> ofOSM c = true -> hyphenFreeOSM c = true ->
  osmParts r = (Some (JSString.interpolate (Candidate.osmType c)),
                Candidate.osmId c) /\
  exists rest,
    Saved.calls (handleSave strings api r location form) =
    CheckOsmMatch
      {| CheckRequest.osmId := Candidate.osmId c;
         CheckRequest.name := Some (Candidate.name c);
         CheckRequest.type := Some (JSString.interpolate (Candidate.osmType c));
         CheckRequest.coordinates :=
           [Coordinates.longitude location; Coordinates.latitude location] |}
    :: rest.
Proof.
  intros H O F. pose proof (osmParts_of c r H O F) as P.
  split; [exact P|].
  assert (N : Result.name r = Candidate.name c).
  { unfold ofOSM in O. apply andb_prop in O as [S T].
    apply negb_true_iff in S. rewrite (resultOf_not_ofSection c S) in H.
    destruct (truthy_is_Some _ T) as [o [Et _]]. rewrite Et in H.
    now injection H as <-. }
  unfold handleSave, save, resolveWaterBody.
  fold (CreateActivityScreen.isOSM r). unfold isOSMWaterBody.
  fold (CreateActivityScreen.isOSM r).
  rewrite (osm_id_of c r H O), P, N. unfold bind at 2, call.
  destruct (checkOsmMatch api _) as [e|checkData]; [now eexists|].
  destruct (match CheckData.matched checkData with
            | true => _ | false => _ end) as [calls' res] eqn:E.
  unfold bind. destruct res as [e|[[w n] loc]].
  - eexists. reflexivity.
  - destruct (createManualActivity api _); eexists; reflexivity.
Qed.

Lemma save_of_ret r (w n : option string) (loc : Coordinates.t) :
  resolveWaterBody strings api r location form = ret (w, n, loc) ->
  save strings api r location form =
  ([CreateManualActivity (activityDataOf strings form w n loc)],
   createManualActivity api (activityDataOf strings form w n loc)).
Proof.
  intros E. unfold save. rewrite E. unfold bind, ret, call. reflexivity.
Qed.

Lemma save_of_throw r (e : Failure.t) :
  resolveWaterBody strings api r location form = throw e ->
  save strings api r location form = ([], inl e).
Proof. intros E. unfold save. now rewrite E. Qed.

(** What the screen reads of the result of a community candidate. *)
Lemma community_result_fields c r :
  resultOf c = Some r -> ofOSM c = false ->
  (Result.type r = if ofSection c then section else shared) /\
  (exists waterBody,
      Result.sharedWaterBody r = Some waterBody /\
      SharedWaterBody._id waterBody = waterBodyIdOf c /\
      Location.coordinates (SharedWaterBody.location waterBody) =
      coordinatesOf c) /\
  (if ofSection c
   then exists sectionOfResult sectionName,
          Result.section r = Some sectionOfResult /\
          SharedWaterBodySection.sectionName sectionOfResult = sectionName /\
          sectionNameOf c = Some sectionName /\
          JS.truthy_string sectionName = true
   else True).
Proof.
  intros H O. unfold ofOSM in O. destruct (ofSection c) eqn:S.
  - destruct (resultOf_ofSection c S) as [n [i [En [_ [E [Tn _]]]]]].
    rewrite E in H. injection H as <-. simpl.
    split; [reflexivity|]. split; [now eexists|]. now eexists _, n.
  - rewrite (resultOf_not_ofSection c S) in H. simpl in O.
    rewrite (truthy_is_None _ O) in H.
    pose proof (truthy_spec (waterBodyIdOf c)) as W.
    destruct (JSString.truthy (waterBodyIdOf c)) as [w|]; [|discriminate].
    destruct W as [Ew _]. injection H as <-. simpl.
    split; [reflexivity|]. split; [|exact I]. now eexists.
Qed.

(** X8.  Saving the result of a community candidate whose id does not begin
    with [osm-].  With a water-body id and two coordinates, one request is
    sent and no other, the creation of the activity: for that water body,
    at the coordinates of the candidate (longitude first), and under the
    section name of a candidate of a section.  Without water-body id, or
    with coordinates that are not two numbers, nothing is sent and the
    alert says which of the two is wrong.  A candidate without coordinates
    has those of the origin, [0] and [0]. *)
Theorem saving_a_community_result c r :
  resultOf c = Some r -> ofOSM c = false -> plainId (communityId c) = true ->
  (forall w longitude latitude,
      JSString.truthy (waterBodyIdOf c) = Some w ->
      coordinatesOf c = [longitude; latitude] ->
      exists activityData,
        Saved.calls (handleSave strings api r location form) =
        [CreateManualActivity activityData] /\
        ActivityData.sharedWaterBodyId activityData = Some w /\
        ActivityData.longitude activityData = longitude /\
        ActivityData.latitude activityData = latitude /\
        ActivityData.sectionId activityData = None /\
        ActivityData.sectionName activityData =
        (if ofSection c then sectionNameOf c else None)) /\
  (JSString.truthy (waterBodyIdOf c) = None ->
   Saved.calls (handleSave strings api r location form) = [] /\
   Saved.alert (handleSave strings api r location form) =
   {| Alert.title := "Error";
      Alert.message := "Invalid water body selection" |}) /\
  (JSString.truthy (waterBodyIdOf c) <> None ->
   List.length (coordinatesOf c) <> 2%nat ->
   Saved.calls (handleSave strings api r location form) = [] /\
   Saved.alert (handleSave strings api r location form) =
   {| Alert.title := "Error";
      Alert.message := "Water body missing location coordinates" |}) /\
  (Candidate.coordinates c = None -> Candidate.sectionCoordinates c = None ->
   coordinatesOf c = [JS.pos_zero; JS.pos_zero]).
Proof.
  intros H O P.
  destruct (community_result_fields c r H O) as [Ht [[wb [Ewb [Eid Eco]]] Hsec]].
  pose proof (community_id_of c r H O P) as NotOSM.
  unfold CreateActivityScreen.isOSM in NotOSM.
  assert (R : resolveWaterBody strings api r location form =
              if negb (JS.truthy_opt_string (waterBodyIdOf c))
              then throw (Failure.Error "Invalid water body selection")
              else match coordinatesOf c with
                   | [longitude; latitude] =>
                       ret (waterBodyIdOf c,
                            (if ofSection c then sectionNameOf c else None),
                            {| Coordinates.longitude := longitude;
                               Coordinates.latitude := latitude |})
                   | _ => throw (Failure.Error
                                   "Water body missing location coordinates")
                   end).
  { unfold resolveWaterBody, isOSMWaterBody, isSection.
    rewrite NotOSM, Ewb, Eid, Eco, Ht.
    destruct (negb (JS.truthy_opt_string (waterBodyIdOf c))); [reflexivity|].
    destruct (coordinatesOf c) as [|x [|y [|z t]]]; try reflexivity.
    destruct (ofSection c); [|reflexivity].
    destruct Hsec as [s [n [-> [<- [-> T]]]]].
    unfold JSString.or_undefined. now rewrite T. }
  split; [|split; [|split]].
  - intros w longitude latitude Hw Hc.
    pose proof (truthy_spec (waterBodyIdOf c)) as W. rewrite Hw in W.
    destruct W as [Ew Tw].
    assert (T : JS.truthy_opt_string (waterBodyIdOf c) = true)
      by (rewrite Ew; exact Tw).
    rewrite T, Hc in R. simpl in R.
    unfold handleSave. rewrite (save_of_ret r _ _ _ R).
    eexists. split; [reflexivity|].
    cbn [ActivityData.sharedWaterBodyId ActivityData.longitude
         ActivityData.latitude ActivityData.sectionId ActivityData.sectionName
         activityDataOf Coordinates.longitude Coordinates.latitude].
    repeat split; try assumption; try reflexivity.
    destruct (ofSection c); [|reflexivity].
    destruct Hsec as [s [n [_ [_ [-> Tn]]]]]. simpl.
    unfold JSString.or_undefined. now rewrite Tn.
  - intros Hw. pose proof (truthy_spec (waterBodyIdOf c)) as W.
    rewrite Hw in W. rewrite W in R. simpl in R.
    unfold handleSave. rewrite (save_of_throw r _ R). split; reflexivity.
  - intros Hw Hlen. pose proof (truthy_spec (waterBodyIdOf c)) as W.
    destruct (JSString.truthy (waterBodyIdOf c)) as [w|]; [|now destruct Hw].
    destruct W as [Ew Tw].
    assert (T : JS.truthy_opt_string (waterBodyIdOf c) = true)
      by (rewrite Ew; exact Tw).
    rewrite T in R. simpl in R.
    assert (R' : resolveWaterBody strings api r location form =
                 throw (Failure.Error "Water body missing location coordinates")).
    { rewrite R. destruct (coordinatesOf c) as [|x [|y [|z t]]];
        try reflexivity. now destruct Hlen. }
    unfold handleSave. rewrite (save_of_throw r _ R'). split; reflexivity.
  - intros C1 C2. unfold coordinatesOf. rewrite C1, C2.
    now destruct (ofSection c).
Qed.

End SaveSearchResult.

(** ** The distance sort: closest first *)

(** *** The sign of a difference *)

Section Subtraction.
Local Open Scope Z_scope.

Lemma shift_value (m d : positive) :
  Zpos (Pos.iter xO m d) = Zpos m * 2 ^ Zpos d.
Proof.
  induction d as [|d IH] using Pos.peano_ind.
  - simpl. lia.
  - rewrite Pos.iter_succ, Pos2Z.inj_xO, IH, Pos2Z.inj_succ, Z.pow_succ_r by lia.
    lia.
Qed.

Lemma shl_align_value (m : positive) (e e' : Z) :
  e' <= e -> Zpos (fst (shl_align m e e')) = Zpos m * 2 ^ (e - e').
Proof.
  intros H. unfold shl_align. destruct (e' - e) as [|p|p] eqn:E; cbn [fst].
  - replace (e - e') with 0 by lia. rewrite Z.pow_0_r. lia.
  - lia.
  - rewrite shift_value. f_equal. f_equal. lia.
Qed.

Lemma shl_align_exponent (m : positive) (e e' : Z) :
  snd (shl_align m e e') = Z.min e e'.
Proof. unfold shl_align. destruct (e' - e) as [|p|p] eqn:E; simpl; lia. Qed.

Lemma digits2_pos_lower (m : positive) : 2 ^ (Zpos (digits2_pos m) - 1) <= Zpos m.
Proof.
  rewrite digits2_pos_size. pose proof (Pos.size_le m) as Hs.
  apply Pos2Z.pos_le_pos in Hs. rewrite Pos2Z.inj_pow in Hs.
  change (Zpos m~0) with (2 * Zpos m) in Hs.
  replace (Zpos (Pos.size m)) with (Zpos (Pos.size m) - 1 + 1) in Hs by lia.
  rewrite Z.pow_add_r in Hs by lia. lia.
Qed.

(** A canonical mantissa: the exponent is not below the smallest one, and
    above it only for a mantissa of [53] bits. *)
Lemma canonical_bounds (s : bool) (m : positive) (e : Z) :
  JS.is_double (S754_finite s m e) = true ->
  -1074 <= e /\ Zpos m < 2 ^ 53 /\ (-1074 < e -> 2 ^ 52 <= Zpos m).
Proof.
  intros H. pose proof (double_mantissa s m e H) as Hm.
  unfold JS.is_double, valid_binary, bounded, canonical_mantissa, fexp, emin in H.
  apply andb_prop in H as [H _]. apply Z.eqb_eq in H.
  unfold JS.prec, JS.emax in H.
  pose proof (digits2_pos_lower m) as Hl.
  split; [lia|]. split; [exact Hm|]. intros He.
  assert (Hd : Zpos (digits2_pos m) = 53) by lia.
  rewrite Hd in Hl. exact Hl.
Qed.

Lemma shr_1_half (mrs : shr_record) :
  0 <= shr_m mrs -> shr_m (shr_1 mrs) = shr_m mrs / 2.
Proof.
  destruct mrs as [m r s]. cbn [shr_m].
  destruct m as [|[p|p|]|p]; cbn [shr_1 shr_m]; intros H;
    try reflexivity; try lia.
  - change (Zpos p~1) with (2 * Zpos p + 1).
    apply Z.div_unique with 1; lia.
  - change (Zpos p~0) with (2 * Zpos p).
    apply Z.div_unique with 0; lia.
Qed.

Lemma iter_shr_1_quotient (p : positive) (mrs : shr_record) :
  0 <= shr_m mrs ->
  shr_m (iter_pos shr_1 p mrs) = shr_m mrs / 2 ^ Zpos p.
Proof.
  revert mrs. induction p as [p IH|p IH|]; intros mrs H; cbn [iter_pos].
  - pose proof (shr_1_bounds mrs H) as B1.
    pose proof (iter_shr_1_bounds p (shr_1 mrs) (proj1 B1)) as B2.
    rewrite (IH _ (proj1 B2)), (IH _ (proj1 B1)), (shr_1_half _ H).
    rewrite !Z.div_div by (try apply Z.pow_pos_nonneg; lia).
    f_equal. change (Z.pos p~1) with (2 * Z.pos p + 1).
    replace (2 * Z.pos p + 1) with (Z.succ (Z.pos p + Z.pos p)) by lia.
    rewrite Z.pow_succ_r, Z.pow_add_r by lia. reflexivity.
  - pose proof (iter_shr_1_bounds p mrs H) as B2.
    rewrite (IH _ (proj1 B2)), (IH _ H).
    rewrite !Z.div_div by (try apply Z.pow_pos_nonneg; lia).
    f_equal. change (Z.pos p~0) with (2 * Z.pos p).
    replace (2 * Z.pos p) with (Z.pos p + Z.pos p) by lia.
    rewrite Z.pow_add_r by lia. reflexivity.
  - rewrite shr_1_half by assumption. reflexivity.
Qed.

(** Shifting to the exponent of the format keeps a positive mantissa
    positive, as long as the exponent is not below the smallest one. *)
Lemma shr_fexp_positive (m e : Z) (l : location) :
  0 < m -> -1074 <= e ->
  let '(mrs, e') := shr_fexp JS.prec JS.emax m e l in
  0 < shr_m mrs /\ -1074 <= e'.
Proof.
  intros Hm He. unfold shr_fexp, shr.
  destruct (fexp JS.prec JS.emax (Zdigits2 m + e) - e) as [|p|p] eqn:E.
  - rewrite shr_m_of_loc. lia.
  - rewrite iter_shr_1_quotient by (rewrite shr_m_of_loc; lia).
    rewrite shr_m_of_loc. split; [|lia].
    destruct m as [|q|q]; try lia. simpl Zdigits2 in E.
    pose proof (digits2_pos_lower q) as Hl.
    unfold fexp, emin, JS.prec, JS.emax in E.
    assert (Hp : Zpos p = Zpos (digits2_pos q) - 53) by lia.
    apply Z.div_str_pos. split; [apply Z.pow_pos_nonneg; lia|].
    apply Z.le_trans with (2 ^ (Zpos (digits2_pos q) - 1)); [|exact Hl].
    apply Z.pow_le_mono_r; lia.
  - rewrite shr_m_of_loc. lia.
Qed.

Lemma binary_round_aux_nonzero (s : bool) (m e : Z) (l : location) :
  0 < m -> -1074 <= e ->
  exists m' e',
    binary_round_aux JS.prec JS.emax s m e l = S754_finite s m' e' \/
    binary_round_aux JS.prec JS.emax s m e l = S754_infinity s.
Proof.
  intros Hm He. unfold binary_round_aux.
  pose proof (shr_fexp_positive m e l Hm He) as B1.
  destruct (shr_fexp JS.prec JS.emax m e l) as [mrs' e'].
  destruct B1 as [Bm1 Be1].
  pose proof (round_nearest_even_bounds (shr_m mrs') (loc_of_shr_record mrs'))
    as R.
  set (m1 := round_nearest_even (shr_m mrs') (loc_of_shr_record mrs')) in *.
  pose proof (shr_fexp_positive m1 e' loc_Exact ltac:(lia) Be1) as B2.
  destruct (shr_fexp JS.prec JS.emax m1 e' loc_Exact) as [mrs'' e''].
  destruct B2 as [Bm2 Be2].
  destruct (shr_m mrs'') as [|p|p]; try lia.
  destruct (e'' <=? JS.emax - JS.prec); [exists p, e''; now left|].
  exists 1%positive, 0. now right.
Qed.

Lemma binary_normalize_sign (m e : Z) :
  -1074 <= e ->
  JS.lt JS.pos_zero (binary_normalize JS.prec JS.emax m e false) = (0 <? m).
Proof.
  intros He. destruct m as [|p|p]; simpl; [reflexivity| |].
  - unfold binary_round.
    destruct (shl_align p e _) as [mz ez] eqn:E.
    assert (Hez : -1074 <= ez).
    { pose proof (shl_align_exponent p e
                    (fexp JS.prec JS.emax (Zpos (digits2_pos p) + e))) as X.
      rewrite E in X. simpl in X. unfold fexp, emin, JS.prec, JS.emax in X. lia. }
    destruct (binary_round_aux_nonzero false (Zpos mz) ez loc_Exact
                ltac:(lia) Hez) as [m' [e' [->| ->]]]; reflexivity.
  - unfold binary_round.
    destruct (shl_align p e _) as [mz ez] eqn:E.
    assert (Hez : -1074 <= ez).
    { pose proof (shl_align_exponent p e
                    (fexp JS.prec JS.emax (Zpos (digits2_pos p) + e))) as X.
      rewrite E in X. simpl in X. unfold fexp, emin, JS.prec, JS.emax in X. lia. }
    destruct (binary_round_aux_nonzero true (Zpos mz) ez loc_Exact
                ltac:(lia) Hez) as [m' [e' [->| ->]]]; reflexivity.
Qed.

Ltac ltb_goal :=
  match goal with
  | |- (_ <? _) = true => apply Z.ltb_lt
  | |- (_ <? _) = false => apply Z.ltb_ge
  end.

Lemma compare_cont_Eq_spec (m n : positive) :
  match Pos.compare_cont Eq m n with
  | Eq => Zpos m = Zpos n
  | Lt => Zpos m < Zpos n
  | Gt => Zpos n < Zpos m
  end.
Proof.
  change (Pos.compare_cont Eq m n) with (Pos.compare m n).
  destruct (Pos.compare_spec m n) as [->|H|H]; [reflexivity| |];
    now apply Pos2Z.pos_lt_pos.
Qed.

(** Two canonical mantissas at their common exponent compare as the
    numbers do. *)
Lemma aligned_lt (s s' : bool) (m m' : positive) (e e' : Z) :
  JS.is_double (S754_finite s m e) = true ->
  JS.is_double (S754_finite s' m' e') = true ->
  (cond_Zopp s' (Zpos (fst (shl_align m' e' (Z.min e e')))) <?
   cond_Zopp s (Zpos (fst (shl_align m e (Z.min e e'))))) =
  JS.lt (S754_finite s' m' e') (S754_finite s m e).
Proof.
  intros Hx Hy.
  destruct (canonical_bounds s m e Hx) as [He [Hm Hn]].
  destruct (canonical_bounds s' m' e' Hy) as [He' [Hm' Hn']].
  rewrite !shl_align_value by lia.
  unfold JS.lt, SFltb, SFcompare.
  pose proof (compare_cont_Eq_spec m' m) as C.
  assert (P : forall a b : Z, 0 <= a -> 0 < 2 ^ a /\ (0 < a -> 2 <= 2 ^ a)).
  { intros a b Ha. split; [apply Z.pow_pos_nonneg; lia|]. intros Ha'.
    change 2 with (2 ^ 1) at 1. apply Z.pow_le_mono_r; lia. }
  destruct (Z.compare_spec e' e) as [->|L|L].
  - rewrite Z.min_id, Z.sub_diag, Z.pow_0_r, !Z.mul_1_r.
    destruct s, s'; unfold cond_Zopp; cbv beta iota;
      destruct (Pos.compare_cont Eq m' m); cbv beta iota delta [CompOpp];
      ltb_goal; lia.
  - rewrite Z.min_r by lia. rewrite Z.sub_diag, Z.pow_0_r, Z.mul_1_r.
    destruct (P (e - e') 0 ltac:(lia)) as [P1 P2]. specialize (P2 ltac:(lia)).
    specialize (Hn ltac:(lia)). set (K := 2 ^ (e - e')) in *.
    assert (B : Zpos m' < Zpos m * K).
    { apply Z.lt_le_trans with (2 ^ 53); [exact Hm'|].
      change (2 ^ 53) with (2 ^ 52 * 2). apply Z.mul_le_mono_nonneg; lia. }
    destruct s, s'; unfold cond_Zopp; cbv beta iota; ltb_goal; lia.
  - rewrite Z.min_l by lia. rewrite Z.sub_diag, Z.pow_0_r, Z.mul_1_r.
    destruct (P (e' - e) 0 ltac:(lia)) as [P1 P2]. specialize (P2 ltac:(lia)).
    specialize (Hn' ltac:(lia)). set (K := 2 ^ (e' - e)) in *.
    assert (B : Zpos m < Zpos m' * K).
    { apply Z.lt_le_trans with (2 ^ 53); [exact Hm|].
      change (2 ^ 53) with (2 ^ 52 * 2). apply Z.mul_le_mono_nonneg; lia. }
    destruct s, s'; unfold cond_Zopp; cbv beta iota; ltb_goal; lia.
Qed.

(** The difference of two doubles is above zero exactly when the first
    is above the second. *)
Lemma sub_positive (x y : JS.number) :
  JS.is_double x = true -> JS.is_double y = true ->
  JS.lt JS.pos_zero (JS.sub x y) = JS.lt y x.
Proof.
  intros Hx Hy.
  destruct x as [sx|sx| |sx mx ex]; destruct y as [sy|sy| |sy my ey];
    try (repeat match goal with s : bool |- _ => destruct s end; reflexivity).
  unfold JS.sub, SFsub.
  destruct (canonical_bounds sx mx ex Hx) as [He _].
  destruct (canonical_bounds sy my ey Hy) as [He' _].
  change (IntDef.Z.min ex ey) with (Z.min ex ey).
  rewrite binary_normalize_sign by lia.
  rewrite <- (aligned_lt sx sy mx my ex ey Hx Hy).
  destruct (Z.ltb_spec (cond_Zopp sy (Z.pos (fst (shl_align my ey (Z.min ex ey)))))
                        (cond_Zopp sx (Z.pos (fst (shl_align mx ex (Z.min ex ey))))));
    destruct (Z.ltb_spec 0 (cond_Zopp sx (Z.pos (fst (shl_align mx ex (Z.min ex ey))))
                            - cond_Zopp sy (Z.pos (fst (shl_align my ey (Z.min ex ey))))));
    try reflexivity; lia.
Qed.

End Subtraction.

(** *** The order of the doubles *)

Section Order.
Local Open Scope Z_scope.

Ltac compare_cases :=
  repeat match goal with
         | H : context [Z.compare ?x ?y] |- _ =>
             destruct (Z.compare_spec x y); try subst x
         | |- context [Z.compare ?x ?y] =>
             destruct (Z.compare_spec x y); try subst x
         | H : context [Pos.compare_cont Eq ?x ?y] |- _ =>
             pose proof (compare_cont_Eq_spec x y);
             destruct (Pos.compare_cont Eq x y)
         | |- context [Pos.compare_cont Eq ?x ?y] =>
             pose proof (compare_cont_Eq_spec x y);
             destruct (Pos.compare_cont Eq x y)
         end.

Lemma lt_asymmetric (a b : JS.number) :
  JS.lt a b = true -> JS.lt b a = false.
Proof.
  unfold JS.lt, SFltb, SFcompare.
  destruct a as [[|]|[|]| |[|] ma ea]; destruct b as [[|]|[|]| |[|] mb eb];
    try discriminate; try reflexivity;
    compare_cases; cbn [CompOpp] in *; try discriminate; try reflexivity; lia.
Qed.

Lemma not_lt_transitive (a b c : JS.number) :
  OrderSpec.is_nan b = false ->
  JS.lt b a = false -> JS.lt c b = false -> JS.lt c a = false.
Proof.
  unfold JS.lt, SFltb, SFcompare.
  destruct a as [[|]|[|]| |[|] ma ea]; destruct b as [[|]|[|]| |[|] mb eb];
    try discriminate; try reflexivity;
    destruct c as [[|]|[|]| |[|] mc ec];
    try discriminate; try reflexivity; intros _;
    compare_cases; cbn [CompOpp] in *; try discriminate; try reflexivity; lia.
Qed.

End Order.

(** *** Sorting by a key *)

Section SortedByKey.
Import OrderSpec.
Context {A : Type}.
Variable key : A -> JS.number.
Variable comparefn : A -> A -> JS.number.
Variable good : A -> Prop.
Hypothesis good_key : forall x, good x -> is_nan (key x) = false.
Hypothesis good_compare : forall x y, good x -> good y ->
  JS.sorts_after comparefn x y = JS.lt (key y) (key x).

Lemma insert_ascending (x : A) (l : list A) :
  good x -> Forall good l -> ascending key l ->
  ascending key (JS.insert comparefn x l).
Proof.
  intros Gx Gl Hl. induction Hl as [|y l Hy Hl IH]; simpl.
  - repeat constructor.
  - inversion Gl as [|? ? Gy Gl']; subst.
    destruct (JS.sorts_after comparefn x y) eqn:E.
    + rewrite (good_compare x y Gx Gy) in E.
      constructor; [|now apply IH].
      apply Forall_insert; [|assumption]. now apply lt_asymmetric.
    + rewrite (good_compare x y Gx Gy) in E.
      constructor; [|now constructor].
      constructor; [exact E|].
      rewrite Forall_forall in *. intros z Hz.
      apply (not_lt_transitive (key x) (key y) (key z));
        [now apply good_key|exact E|now apply Hy].
Qed.

Lemma sort_ascending (l : list A) :
  Forall good l -> ascending key (JS.sort comparefn l).
Proof.
  induction l as [|x l IH]; intros G; simpl; [constructor|].
  inversion G; subst. apply insert_ascending; [assumption| |now apply IH].
  now apply (Permutation_Forall (sort_Permutation comparefn l)).
Qed.

End SortedByKey.

Section ClosestFirst.
Import OrderSpec WaterBodyService.
Context {A : Type}.
Variable distance : A -> option JS.number.

Lemma distanceOrZero_double (o : option JS.number) :
  isDoubleOrMissing o = true ->
  JS.is_double (distanceOrZero o) = true /\ is_nan (distanceOrZero o) = false.
Proof.
  destruct o as [d|]; simpl; [|now split]. intros H.
  unfold distanceOrZero. simpl.
  destruct d as [s|s| |s m e]; simpl; auto.
Qed.


(** The rewritten sort puts results that all have a distance, none of
    them [NaN], in ascending order of distance. *)
Lemma sortByDefinedDistance_ascending (l : list A) :
  Forall (fun x => isDistance (distance x) = true) l ->
  ascending (fun x => definedDistance (distance x))
            (sortByDefinedDistance distance l).
Proof.
  apply (sort_ascending _ _ (fun x => isDistance (distance x) = true)).
  - intros x H. unfold isDistance in H.
    destruct (distance x) as [d|]; [|discriminate].
    apply andb_prop in H as [_ H]. now apply negb_true_iff in H.
  - intros x y Hx Hy. unfold JS.sorts_after, compareDefinedDistance.
    unfold isDistance in Hx, Hy.
    destruct (distance x) as [dx|]; [|discriminate].
    destruct (distance y) as [dy|]; [|discriminate].
    apply andb_prop in Hx as [Hx _]. apply andb_prop in Hy as [Hy _].
    now apply sub_positive.
Qed.

End ClosestFirst.

Section SearchOrder.
Import OrderSpec CandidateSearch CandidateSpec.

Lemma resultOf_distance (c : Candidate.t) (r : Result.t) :
  resultOf c = Some r -> Result.distance r = Candidate.distance c.
Proof.
  destruct (ofSection c) eqn:S.
  - destruct (resultOf_ofSection c S) as [n [i [_ [_ [-> _]]]]].
    now intros [= <-].
  - rewrite (resultOf_not_ofSection c S).
    destruct (JSString.truthy (Candidate.osmId c)); [now intros [= <-]|].
    destruct (JSString.truthy (waterBodyIdOf c)); [now intros [= <-]|].
    discriminate.
Qed.


End SearchOrder.

(** ** The search around a location *)

Section NearbyFacts.
Import NearbySearch.
Variable strings : JSString.StringLibrary.
Variable M : JS.MathLibrary.
Variable api_get :
  Params.t -> Backend.Failure.t + option (list SharedWaterBody.t).
Variable latitude longitude : JS.number.

(** X11.  [searchCombined] asks for the water bodies within fifty kilometres
    and, when the backend answers, returns these results and no others:
    for each water body that the query keeps, the water body itself and
    every one of its sections.  Without a query every water body is kept;
    with one, those whose name or one of whose alternate names contains
    it, both taken in lower case.  The names of the sections play no part:
    a section is listed when its water body is.  Every result has a
    distance. *)
Theorem nearby_results (query : option string)
    (nearby : option (list SharedWaterBody.t)) (results : list Result.t) :
  api_get {| Params.latitude := latitude;
             Params.longitude := longitude;
             Params.maxDistance := JS.of_Z 50000 |} = inr nearby ->
  searchCombined strings M api_get latitude longitude query = inr results ->
  (forall r,
      In r results <->
      exists wb,
        In wb (CandidateSearch.array_or nearby []) /\
        match JSString.truthy query with
        | Some q =>
            matchesQuery strings (JSString.toLowerCase strings q) wb = true
        | None => True
        end /\
        (r = sharedResult M latitude longitude wb \/
         exists s,
           In s (CandidateSearch.array_or (SharedWaterBody.sections wb) []) /\
           r = sectionResult M latitude longitude wb s)) /\
  Forall (fun r => SortSpec.hasDistance Result.distance r = true) results.
Proof.
  intros Hapi. unfold searchCombined, searchNearby.
  change (JS.mul (JS.of_Z 50) (JS.of_Z 1000)) with (JS.of_Z 50000).
  rewrite Hapi. intros [= <-].
  set (all := flat_map (resultsOf M latitude longitude)
                       (filtered strings query
                                 (CandidateSearch.array_or nearby []))).
  assert (P : forall r, In r (WaterBodyService.sortByDistanceOrZero
                                Result.distance all) <-> In r all).
  { intros r. unfold WaterBodyService.sortByDistanceOrZero.
    split; apply Permutation_in; [symmetry|]; apply sort_Permutation. }
  assert (I : forall r, In r all <->
              exists wb, In wb (filtered strings query
                                  (CandidateSearch.array_or nearby [])) /\
                (r = sharedResult M latitude longitude wb \/
                 exists s,
                   In s (CandidateSearch.array_or (SharedWaterBody.sections wb) [])
                   /\ r = sectionResult M latitude longitude wb s)).
  { intros r. unfold all. rewrite in_flat_map.
    split; intros [wb [Hwb Hr]]; exists wb; (split; [assumption|]).
    - destruct Hr as [<-|Hr]; [now left|right].
      apply in_map_iff in Hr as [s [<- Hs]]. now exists s.
    - destruct Hr as [->|[s [Hs ->]]]; [now left|right].
      now apply in_map. }
  split.
  - intros r. rewrite P, I. unfold filtered.
    destruct (JSString.truthy query) as [q|].
    + split; intros [wb [Hwb Hr]]; exists wb.
      * apply filter_In in Hwb as [H1 H2]. auto.
      * destruct Hr as [H2 Hr]. split; [|assumption]. now apply filter_In.
    + split; intros [wb [Hwb Hr]]; exists wb; [auto|].
      destruct Hr as [_ Hr]. auto.
  - rewrite Forall_forall. intros r Hr. apply P, I in Hr.
    destruct Hr as [wb [_ [->|[s [_ ->]]]]]; reflexivity.
Qed.

End NearbyFacts.

(** ** The map picker *)

Section MapPicker.
Import DistanceSpec MapLocationPickerScreen.

Lemma calculateDistance_copy (M : JS.MathLibrary)
    (lat1 lon1 lat2 lon2 : JS.number) :
  calculateDistance M lat1 lon1 lat2 lon2 =
  WaterBodyService.calculateDistance M lat1 lon1 lat2 lon2.
Proof. reflexivity. Qed.

Lemma same_point_distance (M : JS.MathLibrary) (lat lon : JS.number) :
  JS.conforming M -> validLatitude lat = true -> validLongitude lon = true ->
  WaterBodyService.calculateDistance M lat lon lat lon = JS.pos_zero.
Proof.
  intros HM Hlat Hlon.
  pose proof (small_is_finite _ _ _ (toRadians_small lat Hlat)) as Hphi.
  assert (Flat : JS.is_finite lat = true).
  { unfold validLatitude in Hlat. apply andb_prop in Hlat as [_ H].
    now destruct lat. }
  assert (Flon : JS.is_finite lon = true).
  { unfold validLongitude in Hlon. apply andb_prop in Hlon as [_ H].
    now destruct lon. }
  unfold WaterBodyService.calculateDistance.
  rewrite (sub_diag lat Flat), (sub_diag lon Flon).
  change (WaterBodyService.toRadians JS.pos_zero) with JS.pos_zero.
  fold (haversine M (WaterBodyService.toRadians lat)
                  (WaterBodyService.toRadians lat) JS.pos_zero JS.pos_zero).
  rewrite (haversine_zero M _ HM Hphi).
  change (JS.Math_sqrt JS.pos_zero) with JS.pos_zero.
  change (JS.Math_sqrt (JS.sub (JS.of_Z 1) JS.pos_zero)) with (JS.of_Z 1).
  rewrite (JS.atan2_pos_zero M HM) by reflexivity.
  reflexivity.
Qed.

(** X12.  While the marker is at the GPS location, as it is when the screen
    opens and after a reset, no distance is shown under the coordinates:
    for valid coordinates and on every engine that conforms to the
    language, the distance is exactly [+0]. *)
Theorem no_distance_text_at_gps_location (M : JS.MathLibrary)
    (initialLocation selectedLocation : Coordinates.t) :
  JS.conforming M ->
  validLatitude (Coordinates.latitude initialLocation) = true ->
  validLongitude (Coordinates.longitude initialLocation) = true ->
  distance M initialLocation (initialState initialLocation) = JS.pos_zero /\
  distanceText M initialLocation (initialState initialLocation) = None /\
  distanceText M initialLocation
               (handleResetToGPS initialLocation selectedLocation) = None.
Proof.
  intros HM Hlat Hlon.
  assert (D : distance M initialLocation initialLocation = JS.pos_zero).
  { unfold distance. rewrite calculateDistance_copy.
    now apply same_point_distance. }
  unfold initialState, handleResetToGPS, distanceText. rewrite D.
  repeat split.
Qed.

Lemma round_below_1000 (meters : JS.number) :
  JS.is_double meters = true -> FormatSpec.nonNegativeFinite meters = true ->
  JS.lt meters (JS.of_Z 1000) = true ->
  JS.Number_toString (JS.Math_round meters) =
  JS.digits_of (FormatSpec.nearest (JS.value meters)).
Proof.
  intros Hd Hx Hlt. destruct meters as [s|s| |[|] m e]; try discriminate Hx.
  - reflexivity.
  - destruct (below_1000 m e Hd Hlt) as [He Hv].
    pose proof (value_nonneg _ Hx) as H0.
    assert (Hz : (0 <= FormatSpec.nearest (JS.value (S754_finite false m e))
                  <= 1000)%Z).
    { unfold FormatSpec.nearest. split.
      - change 0%Z with (Qfloor 0). apply Qfloor_resp_le.
        apply (Qle_trans _ (0 + (1 # 2))); [easy|].
        now apply Qplus_le_l.
      - change 1000%Z with (Qfloor (1000 + (1 # 2))). apply Qfloor_resp_le.
        apply Qplus_le_l. now apply Qlt_le_weak. }
    unfold JS.Math_round.
    fold (FormatSpec.nearest (JS.value (S754_finite false m e))).
    destruct (Z.leb_spec 0 e) as [He'|_]; [lia|].
    destruct (Z.eqb_spec (FormatSpec.nearest (JS.value (S754_finite false m e))) 0)
      as [->|Hne]; [reflexivity|].
    apply toString_upto_1000. lia.
Qed.

Lemma scaled_le (m : positive) (e b : Z) :
  (e <= 0)%Z -> (b * 2 ^ (- e) <= Zpos m)%Z ->
  inject_Z b <= inject_Z (Zpos m) * 2 ^ e.
Proof.
  intros He H.
  assert (Hp : 0 < inject_Z (2 ^ (- e))).
  { change 0 with (inject_Z 0). rewrite <- Zlt_Qlt.
    apply Z.pow_pos_nonneg; lia. }
  assert (E : (2:Q) ^ e == / inject_Z (2 ^ (- e))).
  { rewrite Zpower_Qpower by lia.
    rewrite <- Qpower_opp. now rewrite Z.opp_involutive. }
  rewrite E. apply Qle_shift_div_l; [exact Hp|].
  rewrite <- inject_Z_mult. now rewrite <- Zle_Qle.
Qed.

(** A double above [10] and below [1000] is positive, and its value is
    above [10]. *)
Lemma above_10 (d : JS.number) :
  JS.is_double d = true ->
  JS.lt (JS.of_Z 10) d = true -> JS.lt d (JS.of_Z 1000) = true ->
  FormatSpec.nonNegativeFinite d = true /\ 10 <= JS.value d.
Proof.
  intros Hd H10 H1000.
  destruct d as [s|[|]| |[|] m e]; try discriminate H10; try discriminate H1000.
  split; [reflexivity|].
  destruct (below_1000 m e Hd H1000) as [He _].
  destruct (canonical_bounds false m e Hd) as [_ [_ Hn]].
  change (JS.of_Z 10) with (S754_finite false 5629499534213120 (-49)) in H10.
  unfold JS.lt, SFltb, SFcompare in H10.
  unfold JS.value. apply (scaled_le m e 10); [lia|].
  destruct (Z.compare_spec (-49) e) as [<-|L|L]; try discriminate H10.
  - pose proof (compare_cont_Eq_spec 5629499534213120 m) as C.
    destruct (Pos.compare_cont Eq 5629499534213120 m); try discriminate H10.
    change (2 ^ (- -49))%Z with 562949953421312%Z. lia.
  - specialize (Hn ltac:(lia)).
    assert (P : (2 ^ (- e) <= 2 ^ 48)%Z) by (apply Z.pow_le_mono_r; lia).
    change (2 ^ 48)%Z with 281474976710656%Z in P.
    change (2 ^ 52)%Z with 4503599627370496%Z in Hn. lia.
Qed.

(** X13.  When the marker is more than ten and less than a thousand meters
    from the GPS location, the text is the distance in whole meters, the
    nearest integer (the larger one on a tie), followed by [m from GPS]; the
    number shown is at least [10] and at most [1000]. *)
Theorem distance_text_in_meters (M : JS.MathLibrary)
    (initialLocation selectedLocation : Coordinates.t) :
  JS.is_double (distance M initialLocation selectedLocation) = true ->
  JS.lt (JS.of_Z 10) (distance M initialLocation selectedLocation) = true ->
  JS.lt (distance M initialLocation selectedLocation) (JS.of_Z 1000) = true ->
  distanceText M initialLocation selectedLocation =
  Some (JS.digits_of
          (FormatSpec.nearest
             (JS.value (distance M initialLocation selectedLocation)))
        ++ "m from GPS") /\
  (10 <= FormatSpec.nearest
           (JS.value (distance M initialLocation selectedLocation)) <= 1000)%Z.
Proof.
  intros Hd H10 H1000. unfold distanceText. rewrite H10, H1000.
  destruct (above_10 _ Hd H10 H1000) as [Hx Hv].
  rewrite (round_below_1000 _ Hd Hx H1000). split; [reflexivity|].
  set (d := distance M initialLocation selectedLocation) in *.
  assert (Hlt : JS.value d < 1000).
  { destruct d as [s|s| |[|] m e]; try discriminate Hx; [reflexivity|].
    now apply (below_1000 m e Hd H1000). }
  unfold FormatSpec.nearest. split.
  - change 10%Z with (Qfloor 10). apply Qfloor_resp_le.
    apply (Qle_trans _ (10 + (1 # 2))); [easy|]. now apply Qplus_le_l.
  - change 1000%Z with (Qfloor (1000 + (1 # 2))). apply Qfloor_resp_le.
    apply Qplus_le_l. now apply Qlt_le_weak.
Qed.

End MapPicker.

(** ** The steps of the creation of an activity *)

Section HomeFlow.
Import HomeScreen.
Context {WaterBody : Type}.
Implicit Types (st : State WaterBody) (event : Event WaterBody).

Lemma reachable_wellFormed st : reachable st -> HomeSpec.wellFormed st.
Proof.
  induction 1 as [|st event _ [IH1 IH2] En].
  - split; [exact I|reflexivity].
  - destruct st as [show step wb loc over].
    unfold HomeSpec.wellFormed in *.
    cbn [createActivityStep selectedWaterBody selectedLocation
         showCreateActivity] in *.
    destruct event; cbn in En |- *;
      try (apply andb_prop in En as [-> En]).
    + split; [exact IH1|discriminate].
    + split; [split; discriminate|discriminate].
    + split; [discriminate|discriminate].
    + split; [exact I|discriminate].
    + split; [exact I|discriminate].
    + split; [exact I|reflexivity].
    + split; [exact I|reflexivity].
Qed.

(** X14.  The screen that the modal shows is always given what it needs: the
    map screen a location, and the confirmation screen a water body and a
    location, however the callbacks have been called before; and when the
    modal is closed the flow is back at its start, with nothing
    selected. *)
Theorem screens_get_their_arguments st :
  reachable st ->
  match screen st with
  | NoModal => st = initialState
  | SelectScreen _ => True
  | MapScreen initialLocation => initialLocation <> None
  | ConfirmScreen selectedWaterBody location =>
      selectedWaterBody <> None /\ location <> None
  end.
Proof.
  intros R. destruct (reachable_wellFormed st R) as [H1 H2].
  unfold screen. destruct (showCreateActivity st); [|now apply H2].
  destruct (createActivityStep st); assumption.
Qed.

End HomeFlow.

(** ** The conversion of units *)

Section Units.
Import UnitConversion.

Lemma substring_all (s : string) : substring 0 (String.length s) s = s.
Proof. induction s as [|c s IH]; simpl; [reflexivity|]. now rewrite IH. Qed.

Lemma substring_zero (s : string) : substring 0 0 s = "".
Proof. now destruct s. Qed.

Lemma zeros_snoc (n : nat) : JS.zeros n ++ "0" = JS.zeros (S n).
Proof. induction n as [|n IH]; simpl; [reflexivity|]. now rewrite IH. Qed.

(** [(0).toFixed(f)] *)
Lemma toFixed_zero (f : nat) :
  JS.toFixed JS.pos_zero f =
  match f with
  | O => "0"
  | S _ => "0." ++ JS.zeros f
  end.
Proof.
  unfold JS.toFixed. cbn [JS.value JS.pos_zero].
  change (Qle_bool 0 0) with true. change (Qabs 0) with 0.
  change (Qle_bool (JS.pow10 21) 0) with false. cbv iota.
  assert (E : Qfloor (0 * JS.pow10 (Z.of_nat f) + (1 # 2)) = 0%Z).
  { change 0%Z with (Qfloor (1 # 2)) at 2. apply Qfloor_comp.
    rewrite Qmult_0_l. reflexivity. }
  rewrite E. change (JS.digits_of 0) with "0".
  destruct f as [|f]; [reflexivity|].
  cbn [String.length]. replace (S (S f) - 1)%nat with (S f) by lia.
  rewrite zeros_snoc, length_zeros.
  replace (S (S f) - S f)%nat with 1%nat by lia.
  change (JS.zeros (S (S f))) with (String "0" (JS.zeros (S f))).
  change (substring 1 (S f) (String "0" (JS.zeros (S f))))
    with (substring 0 (S f) (JS.zeros (S f))).
  change (substring 0 1 (String "0" (JS.zeros (S f))))
    with (String "0" (substring 0 0 (JS.zeros (S f)))).
  rewrite substring_zero.
  rewrite <- (length_zeros (S f)) at 1. rewrite substring_all. reflexivity.
Qed.

(** X15.  A distance that is [null], [undefined] or [NaN] is converted to
    [0] in both directions and in both systems of units, and it is
    formatted as zero with the decimals asked for, never as [NaN]:
    [0.00 km] and [0.00 mi] by default. *)
Theorem missing_distance_is_zero (x : option JS.number) (units : Units) :
  missing x = true ->
  metersToUserUnit x units = JS.pos_zero /\
  userUnitToMeters x units = JS.pos_zero /\
  (forall decimals : nat,
      (decimals <= 100)%nat ->
      formatDistance x units (Some (Z.of_nat decimals)) =
      Some (match decimals with
            | O => "0"
            | S _ => "0." ++ JS.zeros decimals
            end ++ " " ++ getUnitLabel units)) /\
  formatDistance x units None = Some ("0.00 " ++ getUnitLabel units).
Proof.
  intros H.
  assert (E : metersToUserUnit x units = JS.pos_zero).
  { unfold metersToUserUnit, metersToMiles, metersToKilometers.
    destruct x as [[| | |]|]; try discriminate H; now destruct units. }
  split; [exact E|]. split.
  { unfold userUnitToMeters, milesToMeters, kilometersToMeters.
    destruct x as [[| | |]|]; try discriminate H; now destruct units. }
  split.
  - intros decimals Hd. unfold formatDistance. rewrite E.
    destruct (Z.leb_spec 0 (Z.of_nat decimals)); [|lia].
    destruct (Z.leb_spec (Z.of_nat decimals) 100); [|lia].
    cbn [andb]. rewrite Nat2Z.id, toFixed_zero. reflexivity.
  - unfold formatDistance. rewrite E. reflexivity.
Qed.

End Units.

Lemma digits_of_inj (i j : nat) :
  JS.digits_of (Z.of_nat i) = JS.digits_of (Z.of_nat j) -> i = j.
Proof.
  unfold JS.digits_of. intros H.
  assert (N : forall n, N.to_uint n <> Decimal.Nil).
  { intros [|p]; [discriminate|apply DecimalPos.Unsigned.to_uint_nonnil]. }
  apply (f_equal NilZero.uint_of_string) in H.
  rewrite !NilZero.usu in H by apply N.
  injection H as H. apply DecimalN.Unsigned.to_uint_inj in H. lia.
Qed.

(** ** The keys of the cards *)

Section Keys.
Import WaterBodySearchResult WaterBodyGrouping GroupingSpec.
Import WaterBodySelectionList SelectionHandlers FormatSpec CandidateSpec.

Lemma split_nonempty (sep : ascii) (s : string) : JSString.split sep s <> [].
Proof.
  induction s as [|c s IH]; simpl; [discriminate|].
  destruct (c =? sep)%char; [discriminate|].
  now destruct (JSString.split sep s).
Qed.

Lemma split_app (sep : ascii) (a x : string) :
  JSString.split sep (a ++ String sep x) =
  (JSString.split sep a ++ JSString.split sep x)%list.
Proof.
  induction a as [|c a IH]; simpl.
  - now rewrite Ascii.eqb_refl.
  - destruct (c =? sep)%char; [now rewrite IH|].
    rewrite IH. pose proof (split_nonempty sep a) as N.
    now destruct (JSString.split sep a).
Qed.

Lemma allDigits_hyphenFree (s : string) :
  allDigits s = true -> hyphenFree s = true.
Proof.
  induction s as [|c s IH]; simpl; [reflexivity|].
  intros H. apply andb_prop in H as [Hc Hs]. rewrite (IH Hs), andb_true_r.
  apply negb_true_iff, Ascii.eqb_neq. intros ->. discriminate Hc.
Qed.

(** The index of an OSM card can be read off its key. *)
Lemma osmKey_index (i j : nat) (c c' : WaterBodySearchResult.t) :
  osmKey i c = osmKey j c' -> i = j.
Proof.
  unfold osmKey. intros H.
  apply (f_equal (fun k => last (JSString.split "-" k) "")) in H.
  change ("osm-" ++ JSString.interpolate (osmId c) ++ "-"
                 ++ JS.digits_of (Z.of_nat i))
    with (("osm-" ++ JSString.interpolate (osmId c))
            ++ String "-" (JS.digits_of (Z.of_nat i))) in H.
  change ("osm-" ++ JSString.interpolate (osmId c') ++ "-"
                 ++ JS.digits_of (Z.of_nat j))
    with (("osm-" ++ JSString.interpolate (osmId c'))
            ++ String "-" (JS.digits_of (Z.of_nat j))) in H.
  rewrite !split_app in H.
  rewrite (split_hyphenFree (JS.digits_of (Z.of_nat i))) in H
    by apply allDigits_hyphenFree, allDigits_digits_of.
  rewrite (split_hyphenFree (JS.digits_of (Z.of_nat j))) in H
    by apply allDigits_hyphenFree, allDigits_digits_of.
  rewrite !last_last in H. now apply digits_of_inj.
Qed.

Lemma In_mapi_osmKey (os : list WaterBodySearchResult.t) (i : nat) (k : string) :
  In k (mapi osmKey i os) -> exists j c, (i <= j)%nat /\ k = osmKey j c.
Proof.
  revert i. induction os as [|o os IH]; intros i; simpl; [easy|].
  intros [<-|H]; [now exists i, o|].
  destruct (IH (S i) H) as [j [c [Hj ->]]]. exists j, c. split; [lia|reflexivity].
Qed.

Lemma NoDup_mapi_osmKey (os : list WaterBodySearchResult.t) (i : nat) :
  NoDup (mapi osmKey i os).
Proof.
  revert i. induction os as [|o os IH]; intros i; simpl; constructor.
  - intros H. apply In_mapi_osmKey in H as [j [c [Hj E]]].
    apply osmKey_index in E. lia.
  - apply IH.
Qed.

Lemma groupKeys_mapi_OSMCard (os : list WaterBodySearchResult.t) (i : nat) :
  groupKeys (mapi OSMCard i os) = [].
Proof.
  revert i. induction os as [|o os IH]; intros i; [reflexivity|].
  exact (IH (S i)).
Qed.

Lemma osmKeys_mapi_OSMCard (os : list WaterBodySearchResult.t) (i : nat) :
  osmKeys (mapi OSMCard i os) = mapi osmKey i os.
Proof.
  revert i. induction os as [|o os IH]; intros i; [reflexivity|].
  change (osmKey i o :: osmKeys (mapi OSMCard (S i) os) =
          osmKey i o :: mapi osmKey (S i) os).
  now rewrite IH.
Qed.

Lemma keys_of_cards (gs : list GroupedWaterBody.t)
    (os : list WaterBodySearchResult.t) (i : nat) :
  groupKeys (map CommunityCard gs ++ mapi OSMCard i os) =
  map GroupedWaterBody.waterBodyId gs /\
  osmKeys (map CommunityCard gs ++ mapi OSMCard i os) = mapi osmKey i os.
Proof.
  induction gs as [|g gs [IH1 IH2]].
  - split; [apply groupKeys_mapi_OSMCard|apply osmKeys_mapi_OSMCard].
  - split.
    + change (GroupedWaterBody.waterBodyId g
              :: groupKeys (map CommunityCard gs ++ mapi OSMCard i os) =
              GroupedWaterBody.waterBodyId g
              :: map GroupedWaterBody.waterBodyId gs).
      now rewrite IH1.
    + exact IH2.
Qed.

(** X16.  The keys that the cards are rendered under are pairwise distinct in
    each of the two lists, the community cards and the OSM cards; for the
    OSM cards also when two candidates have the same OSM id, or none. *)
Theorem card_keys_are_distinct (l : list WaterBodySearchResult.t)
    (showOSM : bool) (cards : list Card) :
  render l showOSM = Cards cards ->
  NoDup (groupKeys cards) /\ NoDup (osmKeys cards).
Proof.
  unfold render, renderResults. rewrite getGroupedCandidates_closed_form.
  cbn [GroupedCandidatesResult.groups GroupedCandidatesResult.osmCandidates].
  destruct (_ =? 0)%nat; [discriminate|]. intros [= <-].
  destruct (keys_of_cards (map (groupOf l) (firstSeen (communityIds l)))
                          (osmOf showOSM l) 0) as [-> ->].
  split; [|apply NoDup_mapi_osmKey].
  rewrite map_map. cbn [GroupedWaterBody.waterBodyId groupOf].
  rewrite map_id. apply firstSeen_NoDup.
Qed.

End Keys.

(** ** The order of the requests of a save *)

Section Orderly.
Import Backend SaveSpec CandidateSearch.

Lemma orderly_failed (api : Api) (isOSM : bool) (before : list Call)
    (message : string) :
  lookup isOSM before ->
  orderly api isOSM
    {| Saved.calls := before;
       Saved.alert := {| Alert.title := "Error"; Alert.message := message |};
       Saved.loading := false |}.
Proof.
  intros L. split; [reflexivity|]. exists before. split; [exact L|].
  left. now split.
Qed.

Lemma orderly_sent (api : Api) (isOSM : bool) (before : list Call)
    (activityData : ActivityData.t) (errorMessage : Failure.t -> string) :
  lookup isOSM before ->
  ((forall check, before <> [CheckOsmMatch check]) ->
   JS.truthy_opt_string (ActivityData.sharedWaterBodyId activityData) = true) ->
  orderly api isOSM
    {| Saved.calls := (before ++ [CreateManualActivity activityData])%list;
       Saved.alert :=
         match createManualActivity api activityData with
         | inr _ => success
         | inl error => {| Alert.title := "Error";
                           Alert.message := errorMessage error |}
         end;
       Saved.loading := false |}.
Proof.
  intros L T. split; [reflexivity|]. exists before. split; [exact L|].
  right. exists activityData. split; [reflexivity|]. split; [exact T|].
  cbn [Saved.alert]. now destruct (createManualActivity api activityData).
Qed.

Ltac answer f :=
  match goal with
  | |- context [f ?api ?q] =>
      let r := fresh "request" in
      set (r := q); destruct (f api r) as [?|?] eqn:?
  end.

(** X17.  Whatever the backend answers and whatever was selected,
    [handleSave] of the screen for the selections of the list runs in
    order.  For a community water body no request comes before the one for
    the activity; for one of OpenStreetMap the check comes first, and
    after it at most the creation of the water body.  The request for the
    activity is sent at most once and last; when it is not sent, or when
    the backend refuses it, an error is shown, and the success alert is
    shown only when the backend has accepted it.  Unless the water body
    is the match that a check has found, the activity is sent with the id
    of a water body.  The [loading] flag is cleared in each case. *)
Theorem selection_save_orderly strings osmTypeOf api now selectedWaterBody
    location form :
  orderly api (ConfirmSelection.isOSMWaterBody selectedWaterBody)
    (ConfirmSelection.handleSave strings osmTypeOf api now selectedWaterBody
       location form).
Proof.
  unfold ConfirmSelection.handleSave, ConfirmSelection.save,
    ConfirmSelection.resolveWaterBody.
  destruct (ConfirmSelection.isOSMWaterBody selectedWaterBody) eqn:O.
  - cbv zeta. answer checkOsmMatch.
    + apply (orderly_failed api true [CheckOsmMatch request]).
      left. now eexists.
    + assert (C : forall a b, lookup true [CheckOsmMatch a; CreateSharedWaterBody b])
        by (intros a b; right; now eexists _, _).
      assert (C1 : forall a, lookup true [CheckOsmMatch a])
        by (intros a; left; now eexists).
      destruct t as [matched [_id|]]; destruct matched;
        cbn -[ConfirmSelection.activityDataOf];
        try (apply (orderly_sent api true [CheckOsmMatch request]);
             [apply C1|intros N; now contradiction (N request)]);
        answer createSharedWaterBody;
        try (apply (orderly_failed api true [CheckOsmMatch request; _]); apply C);
        destruct t as [[_id'|]]; cbn -[ConfirmSelection.activityDataOf];
        try (apply (orderly_failed api true [CheckOsmMatch request; _]); apply C);
        destruct (JS.truthy_opt_string _id') eqn:T;
        try (apply (orderly_failed api true [CheckOsmMatch request; _]); apply C);
        (apply (orderly_sent api true [CheckOsmMatch request; _]);
         [apply C|intros _; exact T]).
  - destruct (JS.truthy_opt_string
                (WaterBodySelection.sharedWaterBodyId selectedWaterBody)) eqn:T.
    + cbn [negb].
      destruct (ConfirmSelection.isSection selectedWaterBody &&
                JS.truthy_opt_string (WaterBodySelection.sectionId selectedWaterBody));
        apply (orderly_sent api false []); try reflexivity; intros _; exact T.
    + apply (orderly_failed api false []). reflexivity.
Qed.

(** X18.  [handleSave] of the screen for the results of the search runs in
    order in the same sense, whatever the backend answers and whatever
    result was selected: no request comes before the one for the activity
    of a community result, the check and at most the creation come before
    the one of a result of OpenStreetMap, the request for the activity is
    sent at most once and last, and the success alert is shown only when
    the backend has accepted it. *)
Theorem result_save_orderly strings api selectedWaterBody location form :
  orderly api (ConfirmSearchResult.isOSMWaterBody selectedWaterBody)
    (ConfirmSearchResult.handleSave strings api selectedWaterBody
       location form).
Proof.
  unfold ConfirmSearchResult.handleSave, ConfirmSearchResult.save,
    ConfirmSearchResult.resolveWaterBody.
  destruct (ConfirmSearchResult.isOSMWaterBody selectedWaterBody) eqn:O.
  - destruct (ConfirmSearchResult.osmParts selectedWaterBody) as [osmType osmId].
    cbv zeta. answer checkOsmMatch.
    + apply (orderly_failed api true [CheckOsmMatch request]).
      left. now eexists.
    + assert (C : forall a b, lookup true [CheckOsmMatch a; CreateSharedWaterBody b])
        by (intros a b; right; now eexists _, _).
      assert (C1 : forall a, lookup true [CheckOsmMatch a])
        by (intros a; left; now eexists).
      destruct t as [matched [_id|]]; destruct matched;
        cbn -[ConfirmSearchResult.activityDataOf];
        try (apply (orderly_sent api true [CheckOsmMatch request]);
             [apply C1|intros N; now contradiction (N request)]);
        answer createSharedWaterBody;
        try (apply (orderly_failed api true [CheckOsmMatch request; _]); apply C);
        destruct t as [[_id'|]]; cbn -[ConfirmSearchResult.activityDataOf];
        try (apply (orderly_failed api true [CheckOsmMatch request; _]); apply C);
        destruct (JS.truthy_opt_string _id') eqn:T;
        try (apply (orderly_failed api true [CheckOsmMatch request; _]); apply C);
        (apply (orderly_sent api true [CheckOsmMatch request; _]);
         [apply C|intros _; exact T]).
  - cbv zeta.
    destruct (Result.sharedWaterBody selectedWaterBody) as [waterBody|].
    + destruct (JS.truthy_opt_string (SharedWaterBody._id waterBody)) eqn:T;
        cbn [negb]; [|apply (orderly_failed api false []); reflexivity].
      destruct (Location.coordinates (SharedWaterBody.location waterBody))
        as [|longitude [|latitude [|]]];
        try (apply (orderly_failed api false []); reflexivity).
      apply (orderly_sent api false []); [reflexivity|intros _; exact T].
    + apply (orderly_failed api false []). reflexivity.
Qed.

End Orderly.

(** ** The distance in the two directions *)

Section Symmetry.
Import DistanceSpec SymmetrySpec WaterBodyService.

Lemma binary_round_aux_opp (s : bool) (m e : Z) (l : location) :
  binary_round_aux JS.prec JS.emax (negb s) m e l =
  SFopp (binary_round_aux JS.prec JS.emax s m e l).
Proof.
  unfold binary_round_aux.
  destruct (shr_fexp _ _ m e l) as [mrs' e'].
  destruct (shr_fexp _ _ _ e' loc_Exact) as [mrs'' e''].
  destruct (shr_m mrs''); try reflexivity.
  now destruct (e'' <=? _)%Z.
Qed.

Lemma xorb_negb_l (a b : bool) : xorb (negb a) b = negb (xorb a b).
Proof. now destruct a, b. Qed.

Lemma xorb_negb_r (a b : bool) : xorb a (negb b) = negb (xorb a b).
Proof. now destruct a, b. Qed.

Lemma mul_opp_l (x y : JS.number) : JS.mul (SFopp x) y = SFopp (JS.mul x y).
Proof.
  destruct x as [sx|sx| |sx mx ex]; destruct y as [sy|sy| |sy my ey];
    cbn [JS.mul SFmul SFopp]; rewrite ?xorb_negb_l; try reflexivity.
  apply binary_round_aux_opp.
Qed.

Lemma mul_comm (x y : JS.number) : JS.mul x y = JS.mul y x.
Proof.
  destruct x as [sx|sx| |sx mx ex]; destruct y as [sy|sy| |sy my ey];
    cbn [JS.mul SFmul]; rewrite ?(xorb_comm sy sx); try reflexivity.
  now rewrite (Pos.mul_comm my mx), (Z.add_comm ey ex).
Qed.

Lemma mul_opp_r (x y : JS.number) : JS.mul x (SFopp y) = SFopp (JS.mul x y).
Proof. now rewrite mul_comm, mul_opp_l, mul_comm. Qed.

Lemma SFopp_involutive (x : JS.number) : SFopp (SFopp x) = x.
Proof. destruct x as [s|s| |s m e]; simpl; now rewrite ?negb_involutive. Qed.

Lemma div_opp_l (x y : JS.number) : JS.div (SFopp x) y = SFopp (JS.div x y).
Proof.
  destruct x as [sx|sx| |sx mx ex]; destruct y as [sy|sy| |sy my ey];
    cbn [JS.div SFdiv SFopp]; rewrite ?xorb_negb_l; try reflexivity.
  destruct (SFdiv_core_binary _ _ _ _ _ _) as [[mz ez] lz].
  apply binary_round_aux_opp.
Qed.

Lemma toRadians_opp (x : JS.number) :
  toRadians (SFopp x) = SFopp (toRadians x).
Proof. unfold toRadians. now rewrite mul_opp_l, div_opp_l. Qed.

Lemma sub_mirrored (x y : JS.number) : mirrored (JS.sub x y) (JS.sub y x).
Proof.
  unfold mirrored.
  destruct x as [sx|sx| |sx mx ex]; destruct y as [sy|sy| |sy my ey];
    cbn [JS.sub SFsub SFopp];
    try (left; reflexivity);
    try (destruct sx, sy; auto; fail);
    try (left; now rewrite negb_involutive).
  change (IntDef.Z.min ex ey) with (Z.min ex ey).
  change (IntDef.Z.min ey ex) with (Z.min ey ex).
  rewrite (Z.min_comm ey ex).
  set (X := cond_Zopp sx (Z.pos (fst (shl_align mx ex (Z.min ex ey))))).
  set (Y := cond_Zopp sy (Z.pos (fst (shl_align my ey (Z.min ex ey))))).
  replace (Y - X)%Z with (- (X - Y))%Z by lia.
  destruct (X - Y)%Z as [|p|p]; simpl.
  - right. now split.
  - left. unfold binary_round.
    destruct (shl_align p _ _) as [mz ez].
    apply (binary_round_aux_opp false).
  - left. unfold binary_round.
    destruct (shl_align p _ _) as [mz ez].
    rewrite (binary_round_aux_opp false). now rewrite SFopp_involutive.
Qed.

Lemma half_opp (x : JS.number) :
  JS.div (SFopp x) (JS.of_Z 2) = SFopp (JS.div x (JS.of_Z 2)).
Proof. apply div_opp_l. Qed.

(** The square of the sine of half an angle is the same for two mirrored
    angles. *)
Lemma sine_square_mirrored (M : JS.MathLibrary) (a b : JS.number) :
  oddSine M -> mirrored a b ->
  JS.Math_sin M (JS.div (toRadians b) (JS.of_Z 2)) =
  SFopp (JS.Math_sin M (JS.div (toRadians a) (JS.of_Z 2))) \/
  JS.Math_sin M (JS.div (toRadians b) (JS.of_Z 2)) =
  JS.Math_sin M (JS.div (toRadians a) (JS.of_Z 2)).
Proof.
  intros Hs [->|[-> ->]]; [left|now right].
  now rewrite toRadians_opp, half_opp, Hs.
Qed.

Lemma service_distance_symmetric (M : JS.MathLibrary)
    (lat1 lon1 lat2 lon2 : JS.number) :
  oddSine M ->
  calculateDistance M lat1 lon1 lat2 lon2 =
  calculateDistance M lat2 lon2 lat1 lon1.
Proof.
  intros Hs. unfold calculateDistance. cbv zeta.
  destruct (sine_square_mirrored M _ _ Hs (sub_mirrored lat2 lat1)) as [E1|E1];
    destruct (sine_square_mirrored M _ _ Hs (sub_mirrored lon2 lon1)) as [E2|E2];
    rewrite E1, E2;
    repeat (rewrite mul_opp_l || rewrite mul_opp_r || rewrite SFopp_involutive);
    rewrite (mul_comm (JS.Math_cos M (toRadians lat2)));
    reflexivity.
Qed.

(** X19.  The distance between two points does not depend on which of them is
    given first: on an engine whose sine is odd, [calculateDistance] of
    the service and the copy of the map screen return the same double for
    [(p, q)] and for [(q, p)], whatever the four numbers are, and the map
    screen shows the same text for a marker at [q] with the GPS location
    [p] as for a marker at [p] with the GPS location [q]. *)
Theorem calculateDistance_symmetric (M : JS.MathLibrary)
    (lat1 lon1 lat2 lon2 : JS.number) :
  oddSine M ->
  calculateDistance M lat1 lon1 lat2 lon2 =
  calculateDistance M lat2 lon2 lat1 lon1 /\
  MapLocationPickerScreen.calculateDistance M lat1 lon1 lat2 lon2 =
  MapLocationPickerScreen.calculateDistance M lat2 lon2 lat1 lon1 /\
  MapLocationPickerScreen.distanceText M
    {| Coordinates.latitude := lat1; Coordinates.longitude := lon1 |}
    {| Coordinates.latitude := lat2; Coordinates.longitude := lon2 |} =
  MapLocationPickerScreen.distanceText M
    {| Coordinates.latitude := lat2; Coordinates.longitude := lon2 |}
    {| Coordinates.latitude := lat1; Coordinates.longitude := lon1 |}.
Proof.
  intros Hs.
  pose proof (service_distance_symmetric M lat1 lon1 lat2 lon2 Hs) as E.
  split; [exact E|]. split; [exact E|].
  unfold MapLocationPickerScreen.distanceText,
    MapLocationPickerScreen.distance. cbn [Coordinates.latitude
    Coordinates.longitude].
  change (MapLocationPickerScreen.calculateDistance M lat1 lon1 lat2 lon2)
    with (calculateDistance M lat1 lon1 lat2 lon2).
  change (MapLocationPickerScreen.calculateDistance M lat2 lon2 lat1 lon1)
    with (calculateDistance M lat2 lon2 lat1 lon1).
  now rewrite E.
Qed.

End Symmetry.

(** ** The formatter just below a kilometer *)

Section Boundary.
Import FormatSpec BoundarySpec.

(** A double from [999.5] up to [1000] is positive, and the nearest
    integer to it is [1000]. *)
Lemma from_9995 (meters : JS.number) :
  JS.is_double meters = true ->
  SFleb halfBelow1000 meters = true ->
  JS.lt meters (JS.of_Z 1000) = true ->
  nonNegativeFinite meters = true /\ nearest (JS.value meters) = 1000%Z.
Proof.
  intros Hd Hge Hlt.
  change halfBelow1000 with (S754_finite false 8791694975696896 (-43)) in Hge.
  destruct meters as [s|[|]| |[|] m e]; try discriminate Hge;
    try discriminate Hlt.
  split; [reflexivity|].
  destruct (below_1000 m e Hd Hlt) as [He Hv].
  assert (Hlo : (1999 # 2) <= JS.value (S754_finite false m e)).
  { change (JS.of_Z 1000) with (S754_finite false 8796093022208000 (-43)) in Hlt.
    unfold JS.lt, SFltb, SFcompare in Hlt. unfold SFleb, SFcompare in Hge.
    rewrite (Z.compare_antisym e (-43)) in Hge.
    destruct (Z.compare_spec e (-43)) as [->|L|L]; try discriminate Hlt;
      try discriminate Hge.
    pose proof (compare_cont_Eq_spec 8791694975696896 m) as C.
    assert (Hm : (8791694975696896 <= Zpos m)%Z).
    { cbn [CompOpp] in Hge.
      destruct (Pos.compare_cont Eq 8791694975696896 m);
        try discriminate Hge; lia. }
    unfold JS.value.
    assert (S : inject_Z 8791694975696896 <= inject_Z (Zpos m))
      by (now rewrite <- Zle_Qle).
    apply Qle_trans with (inject_Z 8791694975696896 * 2 ^ (-43)).
    - vm_compute. discriminate.
    - apply Qmult_le_compat_r; [exact S|]. vm_compute. discriminate. }
  unfold nearest.
  assert (L1 : inject_Z 1000 <= JS.value (S754_finite false m e) + (1 # 2)).
  { change (inject_Z 1000) with 1000.
    apply (Qle_trans _ ((1999 # 2) + (1 # 2))); [vm_compute; discriminate|].
    apply Qplus_le_l. exact Hlo. }
  assert (L2 : JS.value (S754_finite false m e) + (1 # 2) < inject_Z (1000 + 1)).
  { change (inject_Z (1000 + 1)) with 1001.
    apply (Qlt_trans _ (1000 + (1 # 2))); [|reflexivity].
    apply Qplus_lt_l. exact Hv. }
  apply Z.le_antisymm.
  - assert (U : inject_Z (Qfloor (JS.value (S754_finite false m e) + (1 # 2)))
                < inject_Z (1000 + 1)).
    { eapply Qle_lt_trans; [apply Qfloor_le|exact L2]. }
    rewrite <- Zlt_Qlt in U. lia.
  - change 1000%Z with (Qfloor (inject_Z 1000)) at 1.
    now apply Qfloor_resp_le.
Qed.

(** X20.  From [999.5] up to, and without, [1000] meters both copies of
    [formatDistance] return ["1000m"]: the rounded number of meters
    reaches [1000] before the function changes to kilometers. *)
Theorem just_below_1000_is_1000m (meters : JS.number) :
  JS.is_double meters = true ->
  SFleb halfBelow1000 meters = true ->
  JS.lt meters (JS.of_Z 1000) = true ->
  WaterBodyService.formatDistance meters = "1000m" /\
  WaterBodySelectionList.formatDistance meters = "1000m".
Proof.
  intros Hd Hge Hlt. destruct (from_9995 _ Hd Hge Hlt) as [Hx Hn].
  change (WaterBodySelectionList.formatDistance meters)
    with (WaterBodyService.formatDistance meters).
  rewrite (formatDistance_below_1000 _ Hd Hx Hlt), Hn. split; reflexivity.
Qed.
End Boundary.

(** ** The theorems at work on the sample data *)

Section Witnesses.
Import Examples.

Lemma saving_an_offered_community_selection_witness :
  exists sel activityData,
    In sel (SelectionHandlers.offered Samples.mixed true) /\
    WaterBodySelection.sectionName sel = Some "Upper" /\
    Backend.Saved.calls
      (ConfirmSelection.handleSave plainStrings (fun _ => None) accepting
         "2025-01-01T09:00:00.000Z" sel frenchBroad selectionForm) =
    [Backend.CreateManualActivity activityData] /\
    Backend.ActivityData.sharedWaterBodyId activityData = Some "W1" /\
    Backend.ActivityData.sectionId activityData = Some "S1" /\
    Backend.ActivityData.sectionName activityData = Some "Upper".
Proof.
  assert (H : In (SelectionSpec.communitySelection "W1" Samples.upper
                    (Some Samples.upper))
                 (SelectionHandlers.offered Samples.mixed true))
    by (left; reflexivity).
  destruct (saving_an_offered_community_selection plainStrings (fun _ => None)
              accepting "2025-01-01T09:00:00.000Z" frenchBroad selectionForm
              Samples.mixed true _ H eq_refl)
    as [activityData [E1 [E2 [_ [_ [_ [[E3 E4] _]]]]]]].
  eexists _, activityData. split; [exact H|]. split; [reflexivity|].
  split; [exact E1|]. split; [exact E2|]. split; [exact E3|exact E4].
Defined.

Lemma legacy_section_is_saved_without_section_witness :
  exists activityData,
    In (SelectionSpec.communitySelection "W2" Samples.legacy (Some Samples.legacy))
       (SelectionHandlers.offered [Samples.legacy] true) /\
    Backend.Saved.calls
      (ConfirmSelection.handleSave plainStrings (fun _ => None) accepting
         "2025-01-01T09:00:00.000Z"
         (SelectionSpec.communitySelection "W2" Samples.legacy
            (Some Samples.legacy))
         frenchBroad selectionForm) =
    [Backend.CreateManualActivity activityData] /\
    Backend.ActivityData.sharedWaterBodyId activityData = Some "W2" /\
    Backend.ActivityData.sectionId activityData = None /\
    Backend.ActivityData.sectionName activityData = None.
Proof.
  destruct (legacy_section_is_saved_without_section plainStrings
              (fun _ => None) accepting "2025-01-01T09:00:00.000Z" frenchBroad
              selectionForm [Samples.legacy] true Samples.legacy "W2"
              Samples.legacy (or_introl eq_refl) eq_refl eq_refl eq_refl eq_refl)
    as [H [_ [activityData E]]].
  exists activityData. split; [exact H|exact E].
Defined.

Lemma osm_rows_are_recognised_witness :
  exists r,
    CandidateSearch.resultOf nolichucky = Some r /\
    CandidateSearch.Result.id r = "osm-way-456" /\
    CreateActivityScreen.isOSM r = true.
Proof.
  eexists. split; [reflexivity|]. split; [reflexivity|].
  exact (proj1 (osm_rows_are_recognised nolichucky _ eq_refl) eq_refl).
Defined.

Lemma listed_results_witness :
  exists response r,
    CandidateSearch.searchCombined (fun _ => inr answer)
      DistanceSpec.frenchBroadLat DistanceSpec.frenchBroadLon None false =
    inr response /\
    CandidateSearch.resultOf upperSection = Some r /\
    map CandidateSearch.Result.id
        (CreateActivityScreen.listData
           (CandidateSearch.Response.results response) false) =
    ["section-456"] /\
    (In r (CreateActivityScreen.listData
             (CandidateSearch.Response.results response) false) <->
     exists c, In c [nolichucky; upperSection] /\
               CandidateSearch.resultOf c = Some r /\
               (false = true \/ CandidateSpec.ofOSM c = false)) /\
    List.length (CandidateSearch.Response.results response) = 2%nat.
Proof.
  eexists _, _. split; [reflexivity|]. split; [reflexivity|].
  split; [reflexivity|].
  apply (listed_results (fun _ => inr answer) DistanceSpec.frenchBroadLat
           DistanceSpec.frenchBroadLon None false answer _ false _
           eq_refl eq_refl).
  repeat constructor.
Defined.

Lemma osm_id_round_trip_witness :
  exists r rest,
    CandidateSearch.resultOf nolichucky = Some r /\
    ConfirmSearchResult.osmParts r = (Some "way", Some "456") /\
    Backend.Saved.calls
      (ConfirmSearchResult.handleSave plainStrings accepting r frenchBroad
         resultForm) =
    Backend.CheckOsmMatch
      {| Backend.CheckRequest.osmId := Some "456";
         Backend.CheckRequest.name := Some "Nolichucky River";
         Backend.CheckRequest.type := Some "way";
         Backend.CheckRequest.coordinates :=
           [DistanceSpec.frenchBroadLon; DistanceSpec.frenchBroadLat] |}
    :: rest.
Proof.
  destruct (osm_id_round_trip plainStrings accepting frenchBroad resultForm
              nolichucky _ eq_refl eq_refl eq_refl) as [P [rest E]].
  eexists _, rest. split; [reflexivity|]. split; [exact P|exact E].
Defined.

Lemma saving_a_community_result_witness :
  exists r activityData,
    CandidateSearch.resultOf upperSection = Some r /\
    Backend.Saved.calls
      (ConfirmSearchResult.handleSave plainStrings accepting r frenchBroad
         resultForm) =
    [Backend.CreateManualActivity activityData] /\
    Backend.ActivityData.sharedWaterBodyId activityData = Some "wb-123" /\
    Backend.ActivityData.longitude activityData = DistanceSpec.frenchBroadLon /\
    Backend.ActivityData.latitude activityData = DistanceSpec.frenchBroadLat /\
    Backend.ActivityData.sectionName activityData = Some "Upper Section".
Proof.
  destruct (proj1 (saving_a_community_result plainStrings accepting frenchBroad
                     resultForm upperSection _ eq_refl eq_refl eq_refl)
              "wb-123" DistanceSpec.frenchBroadLon DistanceSpec.frenchBroadLat
              eq_refl eq_refl)
    as [activityData [E1 [E2 [E3 [E4 [_ E5]]]]]].
  eexists _, activityData. split; [reflexivity|].
  split; [exact E1|]. split; [exact E2|]. split; [exact E3|].
  split; [exact E4|exact E5].
Defined.



Lemma nearby_results_witness :
  exists results,
    NearbySearch.searchCombined plainStrings DistanceSpec.smallAngles nearbyLake
      DistanceSpec.frenchBroadLat DistanceSpec.frenchBroadLon (Some "james") =
    inr results /\
    map NearbySearch.Result.name results =
    ["lake james"; "lake james - North Shore"] /\
    Forall (fun r => SortSpec.hasDistance NearbySearch.Result.distance r = true)
           results.
Proof.
  eexists. split; [reflexivity|]. split; [vm_compute; reflexivity|].
  exact (proj2 (nearby_results plainStrings DistanceSpec.smallAngles nearbyLake
                  DistanceSpec.frenchBroadLat DistanceSpec.frenchBroadLon
                  (Some "james") (Some [lake]) _ eq_refl eq_refl)).
Defined.

Lemma no_distance_text_at_gps_location_witness :
  MapLocationPickerScreen.distanceText DistanceSpec.smallAngles frenchBroad
    (MapLocationPickerScreen.handleResetToGPS frenchBroad northOfFrenchBroad) =
  None.
Proof.
  exact (proj2 (proj2 (no_distance_text_at_gps_location DistanceSpec.smallAngles
                         frenchBroad northOfFrenchBroad smallAngles_conforming
                         eq_refl eq_refl))).
Defined.

Lemma distance_text_in_meters_witness :
  MapLocationPickerScreen.distanceText DistanceSpec.smallAngles frenchBroad
    northOfFrenchBroad = Some "111m from GPS".
Proof.
  assert (Hd : JS.is_double
                 (MapLocationPickerScreen.distance DistanceSpec.smallAngles
                    frenchBroad northOfFrenchBroad) = true)
    by (vm_compute; reflexivity).
  assert (H10 : JS.lt (JS.of_Z 10)
                  (MapLocationPickerScreen.distance DistanceSpec.smallAngles
                     frenchBroad northOfFrenchBroad) = true)
    by (vm_compute; reflexivity).
  assert (H1000 : JS.lt (MapLocationPickerScreen.distance DistanceSpec.smallAngles
                           frenchBroad northOfFrenchBroad)
                        (JS.of_Z 1000) = true)
    by (vm_compute; reflexivity).
  rewrite (proj1 (distance_text_in_meters DistanceSpec.smallAngles frenchBroad
                    northOfFrenchBroad Hd H10 H1000)).
  vm_compute. reflexivity.
Defined.

Lemma screens_get_their_arguments_witness :
  HomeScreen.reachable chosen /\
  HomeScreen.screen chosen = HomeScreen.ConfirmScreen (Some "W1") (Some frenchBroad) /\
  match HomeScreen.screen chosen with
  | HomeScreen.NoModal => chosen = HomeScreen.initialState
  | HomeScreen.SelectScreen _ => True
  | HomeScreen.MapScreen initialLocation => initialLocation <> None
  | HomeScreen.ConfirmScreen selectedWaterBody location =>
      selectedWaterBody <> None /\ location <> None
  end.
Proof.
  assert (R : HomeScreen.reachable chosen).
  { unfold chosen. apply HomeScreen.reachable_handle; [|reflexivity].
    apply HomeScreen.reachable_handle; [|reflexivity].
    apply HomeScreen.reachable_initial. }
  split; [exact R|]. split; [reflexivity|].
  exact (screens_get_their_arguments chosen R).
Defined.

Lemma missing_distance_is_zero_witness :
  UnitConversion.formatDistance (Some S754_nan) UnitConversion.imperial None =
  Some "0.00 mi" /\
  UnitConversion.formatDistance None UnitConversion.metric (Some 1%Z) =
  Some "0.0 km".
Proof.
  split.
  - exact (proj2 (proj2 (proj2 (missing_distance_is_zero (Some S754_nan)
                                  UnitConversion.imperial eq_refl)))).
  - exact (proj1 (proj2 (proj2 (missing_distance_is_zero None
                                  UnitConversion.metric eq_refl)))
             1%nat ltac:(lia)).
Defined.

Lemma card_keys_are_distinct_witness :
  exists cards,
    WaterBodySelectionList.render Samples.mixed true =
    WaterBodySelectionList.Cards cards /\
    SelectionHandlers.groupKeys cards = ["W1"] /\
    SelectionHandlers.osmKeys cards = ["osm-123-0"] /\
    NoDup (SelectionHandlers.groupKeys cards) /\
    NoDup (SelectionHandlers.osmKeys cards).
Proof.
  eexists. split; [reflexivity|]. split; [reflexivity|].
  split; [reflexivity|].
  exact (card_keys_are_distinct Samples.mixed true _ eq_refl).
Defined.

Lemma calculateDistance_symmetric_witness :
  SymmetrySpec.oddSine DistanceSpec.smallAngles /\
  WaterBodyService.calculateDistance DistanceSpec.smallAngles
    (Coordinates.latitude frenchBroad) (Coordinates.longitude frenchBroad)
    (Coordinates.latitude northOfFrenchBroad)
    (Coordinates.longitude northOfFrenchBroad) =
  WaterBodyService.calculateDistance DistanceSpec.smallAngles
    (Coordinates.latitude northOfFrenchBroad)
    (Coordinates.longitude northOfFrenchBroad)
    (Coordinates.latitude frenchBroad) (Coordinates.longitude frenchBroad).
Proof.
  split; [intros x; reflexivity|].
  apply (proj1 (calculateDistance_symmetric DistanceSpec.smallAngles _ _ _ _
                  (fun x => eq_refl))).
Defined.

Lemma just_below_1000_is_1000m_witness :
  WaterBodyService.formatDistance
    (JS.div (JS.of_Z 9997) (JS.of_Z 10)) = "1000m" /\
  WaterBodySelectionList.formatDistance
    (JS.div (JS.of_Z 9997) (JS.of_Z 10)) = "1000m".
Proof.
  apply just_below_1000_is_1000m; vm_compute; reflexivity.
Defined.

End Witnesses.
